(** * vtkPhyloXMLTreeWriter: a shallow embedding and its verified properties

    The writer of [IO/Infovis/vtkPhyloXMLTreeWriter.cxx] turns a [vtkTree]
    with per-vertex and per-edge arrays into a PhyloXML document.  The
    member functions of the class are embedded below as functions in a
    state-and-fault monad over the writer object; the collaborators the
    writer only consumes (variant, information, arrays, tree, XML element,
    string array, output stream) are modelled by small records. *)

From Stdlib Require Import ZArith List String Ascii Bool Lia Arith.
Import ListNotations.
Local Open Scope string_scope.
Local Open Scope Z_scope.
Local Open Scope list_scope.

(* ================================================================== *)
(** ** Collaborators *)

(** Modelled from the spec: a double precision number.  The writer never
    computes with one, it only hands it to the element builder or prints
    it, so a double is carried by its decimal rendering. *)
Definition double := string.

(** Modelled from the spec: vtkVariant, the "Typed Value".  Only its three
    observers used by the writer are kept. *)
Record vtkVariant := {
  GetTypeAsString : string;
  ToString : string;
  ToDouble : double
}.

(** Modelled from the spec: the keys of a vtkInformation object.  A key is
    either a vtkInformationStringKey or a key of some other class; both
    have a name. *)
Inductive vtkInformationKey :=
| StringKey (name : string)
| OtherKey (name : string).

Definition KeyName (k : vtkInformationKey) : string :=
  match k with StringKey n => n | OtherKey n => n end.

(** [vtkInformationStringKey::SafeDownCast]: the key itself when it is a
    string key, the null pointer otherwise. *)
Definition SafeDownCast (k : vtkInformationKey) : option vtkInformationKey :=
  match k with StringKey _ => Some k | OtherKey _ => None end.

(** One entry of a vtkInformation: the key and what [info->Get(key)]
    returns for it. *)
Record vtkInformationEntry := {
  CurrentKey : vtkInformationKey;
  Get : string
}.

Definition vtkInformation := list vtkInformationEntry.

(** The concrete class of an array object, as [vtkArrayDownCast] sees it. *)
Inductive vtkArrayClass :=
| vtkUnsignedCharArray
| vtkDoubleArray
| vtkIntArray
| vtkStringArray.

Definition vtkArrayClass_eqb (a b : vtkArrayClass) : bool :=
  match a, b with
  | vtkUnsignedCharArray, vtkUnsignedCharArray => true
  | vtkDoubleArray, vtkDoubleArray => true
  | vtkIntArray, vtkIntArray => true
  | vtkStringArray, vtkStringArray => true
  | _, _ => false
  end.

(** Modelled from the spec: vtkAbstractArray, the "Attribute Column".
    [Ptr] is the identity of the object (the writer compares arrays by
    pointer), [Values] the flat value buffer. *)
Record vtkAbstractArray := {
  Ptr : nat;
  GetName : string;
  GetClass : vtkArrayClass;
  GetNumberOfComponents : nat;
  Values : list vtkVariant;
  GetInformation : vtkInformation
}.

(** Outcome of a computation of the writer.  [Fault] stands for the
    undefined behaviour of the C++ code: a null pointer dereferenced or a
    buffer read outside its bounds. *)
Inductive fault := NullPointer | OutOfRange.

Inductive result (A : Type) :=
| Ok (a : A)
| Fault (f : fault)
| OutOfFuel.
Arguments Ok {A} a.
Arguments Fault {A} f.
Arguments OutOfFuel {A}.

(** [array->GetVariantValue(idx)]: the value at a flat index. *)
Definition GetVariantValue (array : vtkAbstractArray) (idx : Z) : result vtkVariant :=
  if idx <? 0 then Fault OutOfRange
  else match nth_error (Values array) (Z.to_nat idx) with
       | Some v => Ok v
       | None => Fault OutOfRange
       end.

(** [array->GetComponent(tuple, comp)], read as a double. *)
Definition GetComponent (array : vtkAbstractArray) (tuple : Z) (comp : nat) : result double :=
  if (tuple <? 0) || negb (comp <? GetNumberOfComponents array)%nat then Fault OutOfRange
  else match nth_error (Values array)
                       (Z.to_nat tuple * GetNumberOfComponents array + comp) with
       | Some v => Ok (ToDouble v)
       | None => Fault OutOfRange
       end.

(** [vtkArrayDownCast<vtkUnsignedCharArray>]. *)
Definition vtkArrayDownCast_UnsignedChar (array : option vtkAbstractArray)
  : option vtkAbstractArray :=
  match array with
  | Some a => if vtkArrayClass_eqb (GetClass a) vtkUnsignedCharArray then Some a else None
  | None => None
  end.

(** Modelled from the spec: vtkDataSetAttributes, an ordered collection of
    arrays with lookup by name (first match) and by position. *)
Definition vtkDataSetAttributes := list vtkAbstractArray.

Definition GetAbstractArray (data : vtkDataSetAttributes) (name : string)
  : option vtkAbstractArray :=
  find (fun a => String.eqb (GetName a) name) data.

(** Pointer comparison [array == this->Member], the member possibly null. *)
Definition same_array (array : vtkAbstractArray) (member : option vtkAbstractArray) : bool :=
  match member with
  | Some m => Nat.eqb (Ptr array) (Ptr m)
  | None => false
  end.

(** Modelled from the spec: vtkTree.  Vertices are 0..N-1; [Adjacency]
    gives for each vertex its ordered out-edges. *)
Record vtkOutEdgeType := { Target : Z; Id : Z }.

Record vtkTree := {
  GetRoot : Z;
  Adjacency : list (list vtkOutEdgeType);
  GetVertexData : vtkDataSetAttributes;
  GetEdgeData : vtkDataSetAttributes
}.

Definition GetNumberOfVertices (input : vtkTree) : nat := List.length (Adjacency input).

Definition GetOutEdges (input : vtkTree) (v : Z) : result (list vtkOutEdgeType) :=
  if v <? 0 then Fault OutOfRange
  else match nth_error (Adjacency input) (Z.to_nat v) with
       | Some es => Ok es
       | None => Fault OutOfRange
       end.

(** The children of [v], in the order [GetChild(v, 0)], [GetChild(v, 1)], ... *)
Definition GetChildren (input : vtkTree) (v : Z) : result (list Z) :=
  match GetOutEdges input v with
  | Ok es => Ok (map Target es)
  | Fault f => Fault f
  | OutOfFuel => OutOfFuel
  end.

Fixpoint find_parent (adj : list (list vtkOutEdgeType)) (u v : Z) : Z :=
  match adj with
  | [] => -1
  | es :: rest =>
      if existsb (fun e => Target e =? v) es then u else find_parent rest (u + 1) v
  end.

(** [input->GetParent(v)]: the source of the in-edge of [v], -1 for a
    vertex without one. *)
Definition GetParent (input : vtkTree) (v : Z) : result Z :=
  match GetOutEdges input v with
  | Ok _ => Ok (find_parent (Adjacency input) 0 v)
  | Fault f => Fault f
  | OutOfFuel => OutOfFuel
  end.

(** [input->GetEdgeId(a, b)]: the id of the edge from [a] to [b], or -1. *)
Definition GetEdgeId (input : vtkTree) (a b : Z) : Z :=
  match GetOutEdges input a with
  | Ok es => match find (fun e => Target e =? b) es with
             | Some e => Id e
             | None => -1
             end
  | _ => -1
  end.

(** Modelled from the spec: vtkXMLDataElement, the "Element Tree". *)
Local Unset Elimination Schemes.
Inductive vtkXMLDataElement :=
| XMLDataElement (name : string) (attributes : list (string * string))
                 (characterData : string) (nested : list vtkXMLDataElement).
Local Set Elimination Schemes.

Definition NewElement : vtkXMLDataElement := XMLDataElement "" [] "" [].

Definition ElementName (e : vtkXMLDataElement) : string :=
  match e with XMLDataElement n _ _ _ => n end.
Definition Attributes (e : vtkXMLDataElement) : list (string * string) :=
  match e with XMLDataElement _ a _ _ => a end.
Definition CharacterData (e : vtkXMLDataElement) : string :=
  match e with XMLDataElement _ _ c _ => c end.
Definition NestedElements (e : vtkXMLDataElement) : list vtkXMLDataElement :=
  match e with XMLDataElement _ _ _ n => n end.

Definition SetName (e : vtkXMLDataElement) (n : string) : vtkXMLDataElement :=
  match e with XMLDataElement _ a c k => XMLDataElement n a c k end.

Fixpoint set_attribute (attrs : list (string * string)) (n v : string)
  : list (string * string) :=
  match attrs with
  | [] => [(n, v)]
  | (n', v') :: rest =>
      if String.eqb n' n then (n, v) :: rest else (n', v') :: set_attribute rest n v
  end.

Definition SetAttribute (e : vtkXMLDataElement) (n v : string) : vtkXMLDataElement :=
  match e with XMLDataElement m a c k => XMLDataElement m (set_attribute a n v) c k end.

Definition SetDoubleAttribute (e : vtkXMLDataElement) (n : string) (v : double)
  : vtkXMLDataElement := SetAttribute e n v.

Definition SetCharacterData (e : vtkXMLDataElement) (c : string) : vtkXMLDataElement :=
  match e with XMLDataElement m a _ k => XMLDataElement m a c k end.

Definition AddNestedElement (e child : vtkXMLDataElement) : vtkXMLDataElement :=
  match e with XMLDataElement m a c k => XMLDataElement m a c (k ++ [child]) end.

Fixpoint GetAttribute (attrs : list (string * string)) (n : string) : option string :=
  match attrs with
  | [] => None
  | (n', v) :: rest => if String.eqb n' n then Some v else GetAttribute rest n
  end.

(** Modelled from the spec: vtkStringArray, as the Blacklist uses it.
    [LookupValue] is the index of the first match, -1 without one. *)
Fixpoint LookupValue (values : list string) (value : string) : Z :=
  match values with
  | [] => -1
  | x :: rest =>
      if String.eqb x value then 0
      else let r := LookupValue rest value in
           if r =? -1 then -1 else r + 1
  end.

(** Modelled from the spec: the output character stream.  [Written] is
    what was sent to it, [FailBit] its sticky failure flag, [Device] the
    outcomes of the flushes still to come and [SystemError] the code
    [vtkErrorCode::GetLastSystemError()] reports. *)
Record ostream := {
  Written : string;
  FailBit : bool;
  Device : list bool;
  SystemError : Z
}.

Definition put_string (os : ostream) (s : string) : ostream :=
  if FailBit os then os
  else {| Written := Written os ++ s; FailBit := false;
          Device := Device os; SystemError := SystemError os |}.

Definition flush (os : ostream) : ostream :=
  match Device os with
  | [] => os
  | ok :: rest =>
      {| Written := Written os; FailBit := FailBit os || negb ok;
         Device := rest; SystemError := SystemError os |}
  end.

Definition endl (os : ostream) : ostream := flush (put_string os (String "010"%char "")).

Definition fail (os : ostream) : bool := FailBit os.

Definition GetLastSystemError (os : ostream) : Z := SystemError os.

(* ================================================================== *)
(** ** The writer object and its monad *)

Record vtkPhyloXMLTreeWriter := {
  EdgeWeightArrayName : string;
  NodeNameArrayName : string;
  EdgeWeightArray : option vtkAbstractArray;
  NodeNameArray : option vtkAbstractArray;
  Blacklist : list string;
  ErrorCode : Z;
  Stream : ostream;
  (** History variable, not a member of the class: every call of
      [WritePropertyElement], as the array and the vertex it was given. *)
  PropertyLog : list (vtkAbstractArray * Z);
  (** History variable: the vertex of every clade element created, in the
      order of creation. *)
  CladeLog : list Z
}.

Definition M (A : Type) : Type :=
  vtkPhyloXMLTreeWriter -> result (A * vtkPhyloXMLTreeWriter).

Definition ret {A} (a : A) : M A := fun w => Ok (a, w).

Definition bind {A B} (m : M A) (k : A -> M B) : M B :=
  fun w => match m w with
           | Ok (a, w') => k a w'
           | Fault f => Fault f
           | OutOfFuel => OutOfFuel
           end.

Notation "x <- m ;; k" := (bind m (fun x => k))
  (at level 61, m at next level, right associativity).
Notation "m ;;; k" := (bind m (fun _ => k))
  (at level 61, right associativity).

(** A computation that does not touch the writer. *)
Definition lift {A} (r : result A) : M A :=
  fun w => match r with
           | Ok a => Ok (a, w)
           | Fault f => Fault f
           | OutOfFuel => OutOfFuel
           end.

Definition this : M vtkPhyloXMLTreeWriter := fun w => Ok (w, w).

Definition set_arrays (ew nn : option vtkAbstractArray) : M unit :=
  fun w => Ok (tt, {| EdgeWeightArrayName := EdgeWeightArrayName w;
                      NodeNameArrayName := NodeNameArrayName w;
                      EdgeWeightArray := ew;
                      NodeNameArray := nn;
                      Blacklist := Blacklist w;
                      ErrorCode := ErrorCode w;
                      Stream := Stream w;
                      PropertyLog := PropertyLog w;
                      CladeLog := CladeLog w |}).

Definition Blacklist_InsertNextValue (value : string) : M unit :=
  fun w => Ok (tt, {| EdgeWeightArrayName := EdgeWeightArrayName w;
                      NodeNameArrayName := NodeNameArrayName w;
                      EdgeWeightArray := EdgeWeightArray w;
                      NodeNameArray := NodeNameArray w;
                      Blacklist := Blacklist w ++ [value];
                      ErrorCode := ErrorCode w;
                      Stream := Stream w;
                      PropertyLog := PropertyLog w;
                      CladeLog := CladeLog w |}).

Definition SetErrorCode (code : Z) : M unit :=
  fun w => Ok (tt, {| EdgeWeightArrayName := EdgeWeightArrayName w;
                      NodeNameArrayName := NodeNameArrayName w;
                      EdgeWeightArray := EdgeWeightArray w;
                      NodeNameArray := NodeNameArray w;
                      Blacklist := Blacklist w;
                      ErrorCode := code;
                      Stream := Stream w;
                      PropertyLog := PropertyLog w;
                      CladeLog := CladeLog w |}).

Definition on_stream (f : ostream -> ostream) : M unit :=
  fun w => Ok (tt, {| EdgeWeightArrayName := EdgeWeightArrayName w;
                      NodeNameArrayName := NodeNameArrayName w;
                      EdgeWeightArray := EdgeWeightArray w;
                      NodeNameArray := NodeNameArray w;
                      Blacklist := Blacklist w;
                      ErrorCode := ErrorCode w;
                      Stream := f (Stream w);
                      PropertyLog := PropertyLog w;
                      CladeLog := CladeLog w |}).

Definition log_property (array : vtkAbstractArray) (vertex : Z) : M unit :=
  fun w => Ok (tt, {| EdgeWeightArrayName := EdgeWeightArrayName w;
                      NodeNameArrayName := NodeNameArrayName w;
                      EdgeWeightArray := EdgeWeightArray w;
                      NodeNameArray := NodeNameArray w;
                      Blacklist := Blacklist w;
                      ErrorCode := ErrorCode w;
                      Stream := Stream w;
                      PropertyLog := PropertyLog w ++ [(array, vertex)];
                      CladeLog := CladeLog w |}).

Definition log_clade (vertex : Z) : M unit :=
  fun w => Ok (tt, {| EdgeWeightArrayName := EdgeWeightArrayName w;
                      NodeNameArrayName := NodeNameArrayName w;
                      EdgeWeightArray := EdgeWeightArray w;
                      NodeNameArray := NodeNameArray w;
                      Blacklist := Blacklist w;
                      ErrorCode := ErrorCode w;
                      Stream := Stream w;
                      PropertyLog := PropertyLog w;
                      CladeLog := CladeLog w ++ [vertex] |}).

(** A loop that threads the element under construction through its body. *)
Fixpoint for_each {A} (xs : list A)
  (body : A -> vtkXMLDataElement -> M vtkXMLDataElement)
  (e : vtkXMLDataElement) : M vtkXMLDataElement :=
  match xs with
  | [] => ret e
  | x :: rest => e' <- body x e ;; for_each rest body e'
  end.

(* ================================================================== *)
(** ** The member functions of vtkPhyloXMLTreeWriter *)

(** The constructor (lines 33 to 41); the stream is the one the superclass
    opens for the writer. *)
Definition New (os : ostream) : vtkPhyloXMLTreeWriter :=
  {| EdgeWeightArrayName := "weight";
     NodeNameArrayName := "node name";
     EdgeWeightArray := None;
     NodeNameArray := None;
     Blacklist := [];
     ErrorCode := 0;
     Stream := os;
     PropertyLog := [];
     CladeLog := [] |}.

(** The setters of the two configured names. *)
Definition SetEdgeWeightArrayName (name : string) (w : vtkPhyloXMLTreeWriter)
  : vtkPhyloXMLTreeWriter :=
  {| EdgeWeightArrayName := name;
     NodeNameArrayName := NodeNameArrayName w;
     EdgeWeightArray := EdgeWeightArray w;
     NodeNameArray := NodeNameArray w;
     Blacklist := Blacklist w;
     ErrorCode := ErrorCode w;
     Stream := Stream w;
     PropertyLog := PropertyLog w;
     CladeLog := CladeLog w |}.

Definition SetNodeNameArrayName (name : string) (w : vtkPhyloXMLTreeWriter)
  : vtkPhyloXMLTreeWriter :=
  {| EdgeWeightArrayName := EdgeWeightArrayName w;
     NodeNameArrayName := name;
     EdgeWeightArray := EdgeWeightArray w;
     NodeNameArray := NodeNameArray w;
     Blacklist := Blacklist w;
     ErrorCode := ErrorCode w;
     Stream := Stream w;
     PropertyLog := PropertyLog w;
     CladeLog := CladeLog w |}.

(** The superclass hands the writer its stream before each write. *)
Definition SetStream (os : ostream) (w : vtkPhyloXMLTreeWriter) : vtkPhyloXMLTreeWriter :=
  {| EdgeWeightArrayName := EdgeWeightArrayName w;
     NodeNameArrayName := NodeNameArrayName w;
     EdgeWeightArray := EdgeWeightArray w;
     NodeNameArray := NodeNameArray w;
     Blacklist := Blacklist w;
     ErrorCode := ErrorCode w;
     Stream := os;
     PropertyLog := PropertyLog w;
     CladeLog := CladeLog w |}.

Definition dquote : string := String "034"%char EmptyString.
Definition newline : string := String "010"%char EmptyString.

Definition phyloxml_open : string :=
  ("<phyloxml xmlns:xsi=" ++ dquote ++ "http://www.w3.org/2001/XMLSchema-instance" ++ dquote
   ++ " xmlns=" ++ dquote ++ "http://www.phyloxml.org" ++ dquote
   ++ " xsi:schemaLocation=" ++ dquote
   ++ "http://www.phyloxml.org http://www.phyloxml.org/1.10/phyloxml.xsd" ++ dquote
   ++ ">")%string.

Definition phyloxml_close : string := ("</phyloxml>" ++ newline)%string.

(** Lines 44 to 63.  The locale the stream is imbued with plays no part
    in what follows and is left out. *)
Definition StartFile : M Z :=
  on_stream (fun os => endl (put_string os phyloxml_open)) ;;;
  on_stream flush ;;;
  w <- this ;;
  if fail (Stream w)
  then SetErrorCode (GetLastSystemError (Stream w)) ;;; ret 0
  else ret 1.

(** Lines 66 to 81. *)
Definition EndFile : M Z :=
  on_stream (fun os => put_string os phyloxml_close) ;;;
  on_stream flush ;;;
  w <- this ;;
  if fail (Stream w)
  then SetErrorCode (GetLastSystemError (Stream w)) ;;; ret 0
  else ret 1.

(** Lines 500 to 503. *)
Definition IgnoreArray (arrayName : string) : M unit :=
  Blacklist_InsertNextValue arrayName.

(** The loop of [GetArrayAttribute] over the keys of the information
    (lines 512 to 524): the name is compared first, the downcast tested
    before the value is fetched. *)
Fixpoint GetArrayAttribute_keys (info : vtkInformation) (attributeName : string) : string :=
  match info with
  | [] => EmptyString
  | e :: rest =>
      if String.eqb (KeyName (CurrentKey e)) attributeName
      then match SafeDownCast (CurrentKey e) with
           | Some _ => Get e
           | None => GetArrayAttribute_keys rest attributeName
           end
      else GetArrayAttribute_keys rest attributeName
  end.

Definition GetArrayAttribute (array : vtkAbstractArray) (attributeName : string) : string :=
  GetArrayAttribute_keys (GetInformation array) attributeName.

(** The three strings the metadata scan of [WritePropertyElement] fills. *)
Record property_attributes := {
  authority : string;
  appliesTo : string;
  unit_ : string
}.

(** The loop of [WritePropertyElement] over the keys of the information
    (lines 341 to 356): each key is downcast to a string key and its name
    read through the result, whatever the downcast gave. *)
Fixpoint scan_keys (info : vtkInformation) (acc : property_attributes)
  : result property_attributes :=
  match info with
  | [] => Ok acc
  | e :: rest =>
      match SafeDownCast (CurrentKey e) with
      | None => Fault NullPointer
      | Some key =>
          if String.eqb (KeyName key) "authority"
          then scan_keys rest {| authority := Get e; appliesTo := appliesTo acc;
                                 unit_ := unit_ acc |}
          else if String.eqb (KeyName key) "applies_to"
          then scan_keys rest {| authority := authority acc; appliesTo := Get e;
                                 unit_ := unit_ acc |}
          else if String.eqb (KeyName key) "unit"
          then scan_keys rest {| authority := authority acc; appliesTo := appliesTo acc;
                                 unit_ := Get e |}
          else scan_keys rest acc
      end
  end.

(** The value of the datatype attribute, from the type name of the
    variant (lines 399 to 438): one [if], then a chain of [if ... else if]. *)
Definition datatype (variantType : string) : string :=
  let datatype := "xsd:string" in
  let datatype :=
    if String.eqb variantType "short" || String.eqb variantType "long"
       || String.eqb variantType "float" || String.eqb variantType "double"
    then ("xsd:" ++ variantType)%string
    else datatype in
  if String.eqb variantType "int" then "xsd:integer"
  else if String.eqb variantType "bit" then "xsd:boolean"
  else if String.eqb variantType "char" || String.eqb variantType "signed char"
  then "xsd:byte"
  else if String.eqb variantType "unsigned char" then "xsd:unsignedByte"
  else if String.eqb variantType "unsigned short" then "xsd:unsignedShort"
  else if String.eqb variantType "unsigned int" then "xsd:unsignedInt"
  else if String.eqb variantType "unsigned long"
          || String.eqb variantType "unsigned __int64"
          || String.eqb variantType "idtype"
  then "xsd:unsignedLong"
  else if String.eqb variantType "__int64" then "xsd:long"
  else datatype.

(** The local name of the ref attribute (lines 372 to 383): [find], then
    [substr] from behind what was found. *)
Definition propertyName (arrayName : string) : string :=
  let prefix := "property." in
  let strBegin :=
    match String.index 0 prefix arrayName with
    | None => 0%nat
    | Some pos => (pos + String.length prefix)%nat
    end in
  String.substring strBegin (String.length arrayName - strBegin + 1) arrayName.

Definition ref (authority arrayName : string) : string :=
  (authority ++ ":" ++ propertyName arrayName)%string.

(** Lines 330 to 456.  The first step records the call in the history
    variable [PropertyLog]; the rest follows the code. *)
Definition WritePropertyElement (array : vtkAbstractArray) (vertex : Z)
  (element : vtkXMLDataElement) : M vtkXMLDataElement :=
  log_property array vertex ;;;
  found <- lift (scan_keys (GetInformation array)
                   {| authority := EmptyString; appliesTo := EmptyString;
                      unit_ := EmptyString |}) ;;
  let authority := if String.eqb (authority found) EmptyString then "VTK"
                   else authority found in
  let appliesTo := if String.eqb (appliesTo found) EmptyString then "clade"
                   else appliesTo found in
  let unit := unit_ found in
  let arrayName := GetName array in
  let ref := ref authority arrayName in
  vertex <- (if vertex =? -1 then IgnoreArray arrayName ;;; ret 0 else ret vertex) ;;
  value <- lift (GetVariantValue array vertex) ;;
  let datatype := datatype (GetTypeAsString value) in
  let val := ToString value in
  let propertyElement := SetName NewElement "property" in
  let propertyElement := SetAttribute propertyElement "datatype" datatype in
  let propertyElement := SetAttribute propertyElement "ref" ref in
  let propertyElement := SetAttribute propertyElement "applies_to" appliesTo in
  let propertyElement :=
    if negb (String.eqb unit EmptyString)
    then SetAttribute propertyElement "unit" unit else propertyElement in
  let propertyElement := SetCharacterData propertyElement val in
  ret (AddNestedElement element propertyElement).

(** Lines 116 to 144. *)
Definition WriteTreeLevelElement (input : vtkTree) (rootElement : vtkXMLDataElement)
  (elementName attributeName : string) : M vtkXMLDataElement :=
  let arrayName := ("phylogeny." ++ elementName)%string in
  match GetAbstractArray (GetVertexData input) arrayName with
  | Some array =>
      let element := SetName NewElement elementName in
      value <- lift (GetVariantValue array 0) ;;
      let val := ToString value in
      let element := SetCharacterData element val in
      let element :=
        if negb (String.eqb attributeName EmptyString)
        then
          let attributeValue := GetArrayAttribute array attributeName in
          if negb (String.eqb attributeValue EmptyString)
          then SetAttribute element attributeName attributeValue
          else element
        else element in
      let rootElement := AddNestedElement rootElement element in
      Blacklist_InsertNextValue arrayName ;;;
      ret rootElement
  | None => ret rootElement
  end.

(** Lines 147 to 159; the loop over the array indices is a loop over the
    arrays in their order. *)
Definition WriteTreeLevelProperties (input : vtkTree) (element : vtkXMLDataElement)
  : M vtkXMLDataElement :=
  let prefix := "phylogeny.property." in
  for_each (GetVertexData input)
    (fun arr element =>
       let arrName := GetName arr in
       if String.prefix prefix arrName
       then WritePropertyElement arr (-1) element
       else ret element)
    element.

(** Lines 207 to 230. *)
Definition WriteBranchLengthAttribute (input : vtkTree) (vertex : Z)
  (element : vtkXMLDataElement) : M vtkXMLDataElement :=
  w <- this ;;
  match EdgeWeightArray w with
  | None => ret element
  | Some edgeWeightArray =>
      parent <- lift (GetParent input vertex) ;;
      element <-
        (if negb (parent =? -1)
         then
           let edge := GetEdgeId input parent vertex in
           if negb (edge =? -1)
           then
             value <- lift (GetVariantValue edgeWeightArray edge) ;;
             let weight := ToDouble value in
             ret (SetDoubleAttribute element "branch_length" weight)
           else ret element
         else ret element) ;;
      (if LookupValue (Blacklist w) (GetName edgeWeightArray) =? -1
       then IgnoreArray (GetName edgeWeightArray)
       else ret tt) ;;;
      ret element
  end.

(** Lines 233 to 253. *)
Definition WriteNameElement (vertex : Z) (element : vtkXMLDataElement)
  : M vtkXMLDataElement :=
  w <- this ;;
  match NodeNameArray w with
  | None => ret element
  | Some nodeNameArray =>
      value <- lift (GetVariantValue nodeNameArray vertex) ;;
      let name := ToString value in
      let element :=
        if negb (String.eqb name EmptyString)
        then
          let nameElement := SetName NewElement "name" in
          let nameElement := SetCharacterData nameElement name in
          AddNestedElement element nameElement
        else element in
      (if LookupValue (Blacklist w) (GetName nodeNameArray) =? -1
       then IgnoreArray (GetName nodeNameArray)
       else ret tt) ;;;
      ret element
  end.

(** Lines 256 to 286. *)
Definition WriteConfidenceElement (input : vtkTree) (vertex : Z)
  (element : vtkXMLDataElement) : M vtkXMLDataElement :=
  match GetAbstractArray (GetVertexData input) "confidence" with
  | None => ret element
  | Some confidenceArray =>
      value <- lift (GetVariantValue confidenceArray vertex) ;;
      let confidence := ToString value in
      let element :=
        if negb (String.eqb confidence EmptyString)
        then
          let confidenceElement := SetName NewElement "confidence" in
          let type := GetArrayAttribute confidenceArray "type" in
          let confidenceElement :=
            if negb (String.eqb type EmptyString)
            then SetAttribute confidenceElement "type" type
            else confidenceElement in
          let confidenceElement := SetCharacterData confidenceElement confidence in
          AddNestedElement element confidenceElement
        else element in
      w <- this ;;
      (if LookupValue (Blacklist w) "confidence" =? -1
       then IgnoreArray "confidence"
       else ret tt) ;;;
      ret element
  end.

(** Lines 289 to 327.  The downcast is the only test made of the array. *)
Definition WriteColorElement (input : vtkTree) (vertex : Z)
  (element : vtkXMLDataElement) : M vtkXMLDataElement :=
  match vtkArrayDownCast_UnsignedChar (GetAbstractArray (GetVertexData input) "color") with
  | None => ret element
  | Some colorArray =>
      let colorElement := SetName NewElement "color" in
      let redElement := SetName NewElement "red" in
      r <- lift (GetComponent colorArray vertex 0) ;;
      let redElement := SetCharacterData redElement r in
      let greenElement := SetName NewElement "green" in
      g <- lift (GetComponent colorArray vertex 1) ;;
      let greenElement := SetCharacterData greenElement g in
      let blueElement := SetName NewElement "blue" in
      b <- lift (GetComponent colorArray vertex 2) ;;
      let blueElement := SetCharacterData blueElement b in
      let colorElement := AddNestedElement colorElement redElement in
      let colorElement := AddNestedElement colorElement greenElement in
      let colorElement := AddNestedElement colorElement blueElement in
      let element := AddNestedElement element colorElement in
      w <- this ;;
      (if LookupValue (Blacklist w) "color" =? -1
       then IgnoreArray "color"
       else ret tt) ;;;
      ret element
  end.

(** The loop of [WriteCladeElement] over the vertex arrays (lines 177 to
    191): every array that is neither one of the two designated arrays, by
    pointer, nor blacklisted, by name, becomes a property element of the
    clade. *)
Definition WriteCladeProperties (input : vtkTree) (vertex : Z)
  (cladeElement : vtkXMLDataElement) : M vtkXMLDataElement :=
  for_each (GetVertexData input)
    (fun array cladeElement =>
       w <- this ;;
       if same_array array (NodeNameArray w) || same_array array (EdgeWeightArray w)
       then ret cladeElement
       else if negb (LookupValue (Blacklist w) (GetName array) =? -1)
       then ret cladeElement
       else WritePropertyElement array vertex cladeElement)
    cladeElement.

(** Everything [WriteCladeElement] puts into the clade of [vertex] before
    it turns to the children (lines 166 to 191).  The creation of the clade
    element is recorded in the history variable [CladeLog]. *)
Definition WriteCladeContent (input : vtkTree) (vertex : Z) : M vtkXMLDataElement :=
  let cladeElement := SetName NewElement "clade" in
  log_clade vertex ;;;
  cladeElement <- WriteBranchLengthAttribute input vertex cladeElement ;;
  cladeElement <- WriteNameElement vertex cladeElement ;;
  cladeElement <- WriteConfidenceElement input vertex cladeElement ;;
  cladeElement <- WriteColorElement input vertex cladeElement ;;
  WriteCladeProperties input vertex cladeElement.

(** Lines 162 to 204.  The recursion of the C++ code is bounded by the
    depth of the tree; here it is bounded by [fuel]. *)
Fixpoint WriteCladeElement (fuel : nat) (input : vtkTree) (vertex : Z)
  (parentElement : vtkXMLDataElement) : M vtkXMLDataElement :=
  match fuel with
  | O => fun _ => OutOfFuel
  | S fuel' =>
      cladeElement <- WriteCladeContent input vertex ;;
      children <- lift (GetChildren input vertex) ;;
      cladeElement <-
        for_each children
          (fun child cladeElement => WriteCladeElement fuel' input child cladeElement)
          cladeElement ;;
      ret (AddNestedElement parentElement cladeElement)
  end.

Section Serialisation.

(** Modelled from the spec: [vtkXMLDataElement::PrintXML], the textual
    rendering of an element tree by the document builder. *)
Variable PrintXML : vtkXMLDataElement -> string.

(** Lines 84 to 113.  The result of [EndFile] is dropped, as in the code. *)
Definition WriteData (fuel : nat) (input : vtkTree) : M Z :=
  w <- this ;;
  set_arrays (GetAbstractArray (GetEdgeData input) (EdgeWeightArrayName w))
             (GetAbstractArray (GetVertexData input) (NodeNameArrayName w)) ;;;
  started <- StartFile ;;
  if started =? 0 then ret 0
  else
    let rootElement := SetName NewElement "phylogeny" in
    let rootElement := SetAttribute rootElement "rooted" "true" in
    rootElement <- WriteTreeLevelElement input rootElement "name" EmptyString ;;
    rootElement <- WriteTreeLevelElement input rootElement "description" EmptyString ;;
    rootElement <- WriteTreeLevelElement input rootElement "confidence" "type" ;;
    rootElement <- WriteTreeLevelProperties input rootElement ;;
    rootElement <- WriteCladeElement fuel input (GetRoot input) rootElement ;;
    on_stream (fun os => put_string os (PrintXML rootElement)) ;;;
    EndFile ;;;
    ret 1.

End Serialisation.

(* ================================================================== *)
(** ** The vocabulary of the properties *)

(** The tree below a vertex, as the recursion of [WriteCladeElement] visits it. *)
Local Unset Elimination Schemes.
Inductive rose := Rose (v : Z) (kids : list rose).
Local Set Elimination Schemes.

Definition rose_root (sh : rose) : Z := match sh with Rose v _ => v end.

(** The vertices of a tree, depth first, a vertex before its children and
    the children from first to last. *)
Fixpoint vertices (sh : rose) : list Z :=
  match sh with Rose v kids => v :: flat_map vertices kids end.

Definition size (sh : rose) : nat := List.length (vertices sh).

Fixpoint height (sh : rose) : nat :=
  match sh with Rose _ kids => S (fold_right Nat.max 0%nat (map height kids)) end.

Fixpoint Zlist_eqb (xs ys : list Z) : bool :=
  match xs, ys with
  | [], [] => true
  | x :: xs', y :: ys' => (x =? y) && Zlist_eqb xs' ys'
  | _, _ => false
  end.

(** [sh] is the tree that [input] reports below the root of [sh]: at every
    node the children are those of [GetChild], in that order. *)
Fixpoint unfolds (input : vtkTree) (sh : rose) : bool :=
  match sh with
  | Rose v kids =>
      match GetChildren input v with
      | Ok children => Zlist_eqb children (map rose_root kids) && forallb (unfolds input) kids
      | _ => false
      end
  end.

Fixpoint nodupb (xs : list Z) : bool :=
  match xs with
  | [] => true
  | x :: rest => negb (existsb (Z.eqb x) rest) && nodupb rest
  end.

(** The invariant of vtkTree: from the root every vertex is reached, once. *)
Definition is_tree (input : vtkTree) (sh : rose) : bool :=
  (rose_root sh =? GetRoot input) && unfolds input sh
  && (size sh =? GetNumberOfVertices input)%nat && nodupb (vertices sh).

(** The nesting of a tree, its vertex numbers forgotten. *)
Local Unset Elimination Schemes.
Inductive shape := Shape (kids : list shape).
Local Set Elimination Schemes.

Fixpoint shape_of (sh : rose) : shape :=
  match sh with Rose _ kids => Shape (map shape_of kids) end.

(** The number of elements called [n] in an element tree, itself included. *)
Fixpoint count_elements (n : string) (e : vtkXMLDataElement) : nat :=
  match e with
  | XMLDataElement m _ _ nested =>
      ((if String.eqb m n then 1 else 0) + list_sum (map (count_elements n) nested))%nat
  end.

(** The nesting of the clade elements directly below an element. *)
Fixpoint clade_forest (e : vtkXMLDataElement) : list shape :=
  match e with
  | XMLDataElement _ _ _ nested =>
      flat_map (fun c => if String.eqb (ElementName c) "clade"
                         then [Shape (clade_forest c)] else []) nested
  end.

(** The arrays a write can read without leaving their buffers. *)
Definition string_keys_only (info : vtkInformation) : bool :=
  forallb (fun e => match SafeDownCast (CurrentKey e) with
                    | Some _ => true
                    | None => false
                    end) info.

Definition vertex_array_ok (n : nat) (a : vtkAbstractArray) : bool :=
  (1 <=? GetNumberOfComponents a)%nat
  && (n * GetNumberOfComponents a <=? List.length (Values a))%nat
  && string_keys_only (GetInformation a).

Definition color_array_ok (input : vtkTree) : bool :=
  match vtkArrayDownCast_UnsignedChar (GetAbstractArray (GetVertexData input) "color") with
  | Some a => (3 <=? GetNumberOfComponents a)%nat
  | None => true
  end.

Definition edge_ids (input : vtkTree) : list Z := map Id (List.concat (Adjacency input)).

Definition edge_array_ok (input : vtkTree) (a : option vtkAbstractArray) : bool :=
  match a with
  | Some a => forallb (fun e => (0 <=? e) && (e <? Z.of_nat (List.length (Values a))))
                      (edge_ids input)
  | None => true
  end.

Definition node_array_ok (input : vtkTree) (a : option vtkAbstractArray) : bool :=
  match a with
  | Some a => vertex_array_ok (GetNumberOfVertices input) a
  | None => true
  end.

Definition readable (input : vtkTree) (w : vtkPhyloXMLTreeWriter) : bool :=
  forallb (vertex_array_ok (GetNumberOfVertices input)) (GetVertexData input)
  && color_array_ok input
  && edge_array_ok input (GetAbstractArray (GetEdgeData input) (EdgeWeightArrayName w)).

(** The stream takes the opening of the document. *)
Definition opens (os : ostream) : bool :=
  negb (FailBit os) && nth 0 (Device os) true && nth 1 (Device os) true.

(** The names the fixed steps of a clade put into the ledger: the two
    designated arrays when resolved, confidence when present, color when
    present as an unsigned char array. *)
Definition name_of (a : option vtkAbstractArray) : list string :=
  match a with Some a => [GetName a] | None => [] end.

Definition fixed_names (input : vtkTree) (w : vtkPhyloXMLTreeWriter) : list string :=
  name_of (EdgeWeightArray w) ++ name_of (NodeNameArray w)
  ++ (match GetAbstractArray (GetVertexData input) "confidence" with
      | Some _ => ["confidence"] | None => [] end)
  ++ (match vtkArrayDownCast_UnsignedChar
              (GetAbstractArray (GetVertexData input) "color") with
      | Some _ => ["color"] | None => [] end).

(** The names the tree-level section puts into the ledger. *)
Definition tree_level_name (input : vtkTree) (elementName : string) : list string :=
  match GetAbstractArray (GetVertexData input) ("phylogeny." ++ elementName) with
  | Some _ => [("phylogeny." ++ elementName)%string]
  | None => []
  end.

Definition tree_level_names (input : vtkTree) : list string :=
  tree_level_name input "name" ++ tree_level_name input "description"
  ++ tree_level_name input "confidence"
  ++ map GetName (filter (fun a => String.prefix "phylogeny.property." (GetName a))
                         (GetVertexData input)).

(** The names of the columns a write of [input] handles by a fixed
    convention, with the two designated arrays resolved as [WriteData]
    resolves them. *)
Definition ledger_names (input : vtkTree) (w : vtkPhyloXMLTreeWriter) : list string :=
  tree_level_names input
  ++ name_of (GetAbstractArray (GetEdgeData input) (EdgeWeightArrayName w))
  ++ name_of (GetAbstractArray (GetVertexData input) (NodeNameArrayName w))
  ++ (match GetAbstractArray (GetVertexData input) "confidence" with
      | Some _ => ["confidence"] | None => [] end)
  ++ (match vtkArrayDownCast_UnsignedChar
              (GetAbstractArray (GetVertexData input) "color") with
      | Some _ => ["color"] | None => [] end).

(** The value a column's metadata gives a key, the last entry winning;
    empty without one. *)
Fixpoint metadata (info : vtkInformation) (key : string) : string :=
  match info with
  | [] => EmptyString
  | e :: rest =>
      if existsb (fun e' => String.eqb (KeyName (CurrentKey e')) key) rest
      then metadata rest key
      else if String.eqb (KeyName (CurrentKey e)) key then Get e else EmptyString
  end.

Definition authority_of (array : vtkAbstractArray) : string :=
  if String.eqb (metadata (GetInformation array) "authority") EmptyString
  then "VTK" else metadata (GetInformation array) "authority".

Fixpoint drop (n : nat) (s : string) : string :=
  match n, s with
  | O, _ => s
  | S n', EmptyString => EmptyString
  | S n', String _ s' => drop n' s'
  end.

(** What follows the first occurrence of [p] in [s], if [p] occurs. *)
Fixpoint after_first (p s : string) : option string :=
  if String.prefix p s then Some (drop (String.length p) s)
  else match s with
       | EmptyString => None
       | String _ s' => after_first p s'
       end.

(** The local name, by recursion over the name: what follows the first
    occurrence of the marker, wherever it stands; the whole name without
    one. *)
Definition local_name (arrayName : string) : string :=
  match after_first "property." arrayName with
  | Some rest => rest
  | None => arrayName
  end.

(** The type names the datatype inference recognises. *)
Definition recognised_types : list string :=
  ["short"; "long"; "float"; "double"; "int"; "bit"; "char"; "signed char";
   "unsigned char"; "unsigned short"; "unsigned int"; "unsigned long";
   "unsigned __int64"; "idtype"; "__int64"].

(** The tokens the datatype inference can return. *)
Definition xsd_tokens : list string :=
  ["xsd:string"; "xsd:short"; "xsd:long"; "xsd:float"; "xsd:double"; "xsd:integer";
   "xsd:boolean"; "xsd:byte"; "xsd:unsignedByte"; "xsd:unsignedShort";
   "xsd:unsignedInt"; "xsd:unsignedLong"].

(* ================================================================== *)
(** ** Auxiliary definitions of the proofs *)

(** The writer after [names] went into the ledger and [props] into the
    history of property elements. *)
Definition record_ (names : list string) (props : list (vtkAbstractArray * Z))
  (w : vtkPhyloXMLTreeWriter) : vtkPhyloXMLTreeWriter :=
  {| EdgeWeightArrayName := EdgeWeightArrayName w;
     NodeNameArrayName := NodeNameArrayName w;
     EdgeWeightArray := EdgeWeightArray w;
     NodeNameArray := NodeNameArray w;
     Blacklist := Blacklist w ++ names;
     ErrorCode := ErrorCode w;
     Stream := Stream w;
     PropertyLog := PropertyLog w ++ props;
     CladeLog := CladeLog w |}.

Definition no_attributes : property_attributes :=
  {| authority := EmptyString; appliesTo := EmptyString; unit_ := EmptyString |}.

(** The property element [WritePropertyElement] builds from what its
    metadata scan found and the value it read. *)
Definition property_element (array : vtkAbstractArray) (found : property_attributes)
  (value : vtkVariant) : vtkXMLDataElement :=
  let authority := if String.eqb (authority found) EmptyString then "VTK"
                   else authority found in
  let appliesTo := if String.eqb (appliesTo found) EmptyString then "clade"
                   else appliesTo found in
  let propertyElement := SetName NewElement "property" in
  let propertyElement :=
    SetAttribute propertyElement "datatype" (datatype (GetTypeAsString value)) in
  let propertyElement := SetAttribute propertyElement "ref" (ref authority (GetName array)) in
  let propertyElement := SetAttribute propertyElement "applies_to" appliesTo in
  let propertyElement :=
    if negb (String.eqb (unit_ found) EmptyString)
    then SetAttribute propertyElement "unit" (unit_ found) else propertyElement in
  SetCharacterData propertyElement (ToString value).

Definition rbind {A B} (r : result A) (k : A -> result B) : result B :=
  match r with
  | Ok a => k a
  | Fault f => Fault f
  | OutOfFuel => OutOfFuel
  end.

Notation "x <~ r ;; k" := (rbind r (fun x => k))
  (at level 61, r at next level, right associativity).

(** A result together with the state the writer is left in. *)
Definition with_state {A} (r : result A) (w : vtkPhyloXMLTreeWriter)
  : result (A * vtkPhyloXMLTreeWriter) :=
  x <~ r ;; Ok (x, w).

Definition visit (vertex : Z) (w : vtkPhyloXMLTreeWriter) : vtkPhyloXMLTreeWriter :=
  {| EdgeWeightArrayName := EdgeWeightArrayName w;
     NodeNameArrayName := NodeNameArrayName w;
     EdgeWeightArray := EdgeWeightArray w;
     NodeNameArray := NodeNameArray w;
     Blacklist := Blacklist w;
     ErrorCode := ErrorCode w;
     Stream := Stream w;
     PropertyLog := PropertyLog w;
     CladeLog := CladeLog w ++ [vertex] |}.

(** The names of [names] the guarded insertions add to the ledger [ledger],
    one after the other. *)
Fixpoint fresh (ledger names : list string) : list string :=
  match names with
  | [] => []
  | n :: rest =>
      if LookupValue ledger n =? -1
      then n :: fresh (ledger ++ [n]) rest
      else fresh ledger rest
  end.

(** The element each fixed step of a clade leaves, the ledger apart. *)
Definition branch_length_attribute (input : vtkTree) (ew : option vtkAbstractArray)
  (vertex : Z) (element : vtkXMLDataElement) : result vtkXMLDataElement :=
  match ew with
  | None => Ok element
  | Some edgeWeightArray =>
      parent <~ GetParent input vertex ;;
      if negb (parent =? -1)
      then
        let edge := GetEdgeId input parent vertex in
        if negb (edge =? -1)
        then
          value <~ GetVariantValue edgeWeightArray edge ;;
          Ok (SetDoubleAttribute element "branch_length" (ToDouble value))
        else Ok element
      else Ok element
  end.

Definition name_element (nn : option vtkAbstractArray) (vertex : Z)
  (element : vtkXMLDataElement) : result vtkXMLDataElement :=
  match nn with
  | None => Ok element
  | Some nodeNameArray =>
      value <~ GetVariantValue nodeNameArray vertex ;;
      let name := ToString value in
      Ok (if negb (String.eqb name EmptyString)
          then
            let nameElement := SetName NewElement "name" in
            let nameElement := SetCharacterData nameElement name in
            AddNestedElement element nameElement
          else element)
  end.

Definition confidence_element (input : vtkTree) (vertex : Z)
  (element : vtkXMLDataElement) : result vtkXMLDataElement :=
  match GetAbstractArray (GetVertexData input) "confidence" with
  | None => Ok element
  | Some confidenceArray =>
      value <~ GetVariantValue confidenceArray vertex ;;
      let confidence := ToString value in
      Ok (if negb (String.eqb confidence EmptyString)
          then
            let confidenceElement := SetName NewElement "confidence" in
            let type := GetArrayAttribute confidenceArray "type" in
            let confidenceElement :=
              if negb (String.eqb type EmptyString)
              then SetAttribute confidenceElement "type" type
              else confidenceElement in
            let confidenceElement := SetCharacterData confidenceElement confidence in
            AddNestedElement element confidenceElement
          else element)
  end.

Definition color_element (input : vtkTree) (vertex : Z)
  (element : vtkXMLDataElement) : result vtkXMLDataElement :=
  match vtkArrayDownCast_UnsignedChar (GetAbstractArray (GetVertexData input) "color") with
  | None => Ok element
  | Some colorArray =>
      r <~ GetComponent colorArray vertex 0 ;;
      g <~ GetComponent colorArray vertex 1 ;;
      b <~ GetComponent colorArray vertex 2 ;;
      let colorElement := SetName NewElement "color" in
      let redElement := SetCharacterData (SetName NewElement "red") r in
      let greenElement := SetCharacterData (SetName NewElement "green") g in
      let blueElement := SetCharacterData (SetName NewElement "blue") b in
      let colorElement := AddNestedElement colorElement redElement in
      let colorElement := AddNestedElement colorElement greenElement in
      let colorElement := AddNestedElement colorElement blueElement in
      Ok (AddNestedElement element colorElement)
  end.

Definition fixed_elements (input : vtkTree) (ew nn : option vtkAbstractArray)
  (vertex : Z) : result vtkXMLDataElement :=
  e <~ branch_length_attribute input ew vertex (SetName NewElement "clade") ;;
  e <~ name_element nn vertex e ;;
  e <~ confidence_element input vertex e ;;
  color_element input vertex e.

(** One property element, the value read at [row]. *)
Definition property_of (array : vtkAbstractArray) (row : Z)
  (element : vtkXMLDataElement) : result vtkXMLDataElement :=
  found <~ scan_keys (GetInformation array) no_attributes ;;
  value <~ GetVariantValue array row ;;
  Ok (AddNestedElement element (property_element array found value)).

Fixpoint properties_of (arrays : list vtkAbstractArray) (row : Z)
  (element : vtkXMLDataElement) : result vtkXMLDataElement :=
  match arrays with
  | [] => Ok element
  | a :: rest => e <~ property_of a row element ;; properties_of rest row e
  end.

(** The arrays the generic scan of a clade turns into property elements
    when the ledger is [ledger]. *)
Definition selected (data : vtkDataSetAttributes) (ew nn : option vtkAbstractArray)
  (ledger : list string) : list vtkAbstractArray :=
  filter (fun a => negb (same_array a nn || same_array a ew)
                   && (LookupValue ledger (GetName a) =? -1)) data.

(** The arrays of the tree-level properties. *)
Definition tree_level_arrays (input : vtkTree) : list vtkAbstractArray :=
  filter (fun a => String.prefix "phylogeny.property." (GetName a)) (GetVertexData input).

(** The element [WriteTreeLevelElement] leaves. *)
Definition tree_level_element (input : vtkTree) (rootElement : vtkXMLDataElement)
  (elementName attributeName : string) : result vtkXMLDataElement :=
  match GetAbstractArray (GetVertexData input) ("phylogeny." ++ elementName) with
  | Some array =>
      let element := SetName NewElement elementName in
      value <~ GetVariantValue array 0 ;;
      let val := ToString value in
      let element := SetCharacterData element val in
      let element :=
        if negb (String.eqb attributeName EmptyString)
        then
          let attributeValue := GetArrayAttribute array attributeName in
          if negb (String.eqb attributeValue EmptyString)
          then SetAttribute element attributeName attributeValue
          else element
        else element in
      Ok (AddNestedElement rootElement element)
  | None => Ok rootElement
  end.

(** The content of the clade of [vertex] and the writer after it, for a
    writer that was in state [w]. *)
Definition clade_ledger (input : vtkTree) (w : vtkPhyloXMLTreeWriter) : list string :=
  Blacklist w ++ fresh (Blacklist w) (fixed_names input w).

Definition clade_arrays (input : vtkTree) (w : vtkPhyloXMLTreeWriter)
  : list vtkAbstractArray :=
  selected (GetVertexData input) (EdgeWeightArray w) (NodeNameArray w)
           (clade_ledger input w).

Definition clade_content (input : vtkTree) (w : vtkPhyloXMLTreeWriter) (vertex : Z)
  : result vtkXMLDataElement :=
  e <~ fixed_elements input (EdgeWeightArray w) (NodeNameArray w) vertex ;;
  properties_of (clade_arrays input w) vertex e.

Definition after_content (input : vtkTree) (w : vtkPhyloXMLTreeWriter) (vertex : Z)
  : vtkPhyloXMLTreeWriter :=
  record_ (fresh (Blacklist w) (fixed_names input w))
          (map (fun a => (a, vertex)) (clade_arrays input w))
          (visit vertex w).

(** The configuration of the writer and its stream are the same in [w']
    as in [w]. *)
Definition same_setup (w w' : vtkPhyloXMLTreeWriter) : Prop :=
  EdgeWeightArrayName w' = EdgeWeightArrayName w
  /\ NodeNameArrayName w' = NodeNameArrayName w
  /\ EdgeWeightArray w' = EdgeWeightArray w
  /\ NodeNameArray w' = NodeNameArray w
  /\ ErrorCode w' = ErrorCode w
  /\ Stream w' = Stream w.

(** What the clades written between [w] and [w'] did to the writer: the
    ledger grew by names of the fixed steps only, and every property
    element written came from a vertex of the tree and from a column whose
    name was neither in the ledger nor a name of the fixed steps. *)
Record clade_step (input : vtkTree) (w w' : vtkPhyloXMLTreeWriter) : Prop := {
  step_setup : same_setup w w';
  step_names :
    exists names,
      Blacklist w' = Blacklist w ++ names
      /\ Forall (fun n => In n (fixed_names input w)) names;
  step_props :
    exists added,
      PropertyLog w' = PropertyLog w ++ added
      /\ Forall (fun cv => 0 <= snd cv
                           /\ ~ In (GetName (fst cv)) (Blacklist w)
                           /\ ~ In (GetName (fst cv)) (fixed_names input w)) added
}.

(** Two writers that the clades cannot tell apart: the same designated
    arrays, and the same names in the ledger once the fixed steps ran. *)
Definition agree (input : vtkTree) (w1 w2 : vtkPhyloXMLTreeWriter) : Prop :=
  EdgeWeightArray w1 = EdgeWeightArray w2
  /\ NodeNameArray w1 = NodeNameArray w2
  /\ forall n, In n (clade_ledger input w1) <-> In n (clade_ledger input w2).

(** The writer with its two designated arrays resolved, as the first two
    statements of [WriteData] leave it. *)
Definition resolve (input : vtkTree) (w : vtkPhyloXMLTreeWriter) : vtkPhyloXMLTreeWriter :=
  {| EdgeWeightArrayName := EdgeWeightArrayName w;
     NodeNameArrayName := NodeNameArrayName w;
     EdgeWeightArray := GetAbstractArray (GetEdgeData input) (EdgeWeightArrayName w);
     NodeNameArray := GetAbstractArray (GetVertexData input) (NodeNameArrayName w);
     Blacklist := Blacklist w;
     ErrorCode := ErrorCode w;
     Stream := Stream w;
     PropertyLog := PropertyLog w;
     CladeLog := CladeLog w |}.

(** The writer after a flush of its stream was checked. *)
Definition checked (os : ostream) (w : vtkPhyloXMLTreeWriter) : vtkPhyloXMLTreeWriter :=
  {| EdgeWeightArrayName := EdgeWeightArrayName w;
     NodeNameArrayName := NodeNameArrayName w;
     EdgeWeightArray := EdgeWeightArray w;
     NodeNameArray := NodeNameArray w;
     Blacklist := Blacklist w;
     ErrorCode := if fail os then GetLastSystemError os else ErrorCode w;
     Stream := os;
     PropertyLog := PropertyLog w;
     CladeLog := CladeLog w |}.

Definition opened (os : ostream) : ostream := flush (endl (put_string os phyloxml_open)).

Definition closed (os : ostream) (document : string) : ostream :=
  flush (put_string (put_string os document) phyloxml_close).

Definition phylogeny_element : vtkXMLDataElement :=
  SetAttribute (SetName NewElement "phylogeny") "rooted" "true".

(** The phylogeny element after the tree-level section. *)
Definition tree_level_section (input : vtkTree) : result vtkXMLDataElement :=
  e <~ tree_level_element input phylogeny_element "name" EmptyString ;;
  e <~ tree_level_element input e "description" EmptyString ;;
  e <~ tree_level_element input e "confidence" "type" ;;
  properties_of (tree_level_arrays input) 0 e.

(** The writer when the tree-level section is written. *)
Definition after_tree_level (input : vtkTree) (w : vtkPhyloXMLTreeWriter)
  : vtkPhyloXMLTreeWriter :=
  record_ (tree_level_names input)
          (map (fun a => (a, -1)) (tree_level_arrays input))
          (checked (opened (Stream w)) (resolve input w)).

(** What a clade of [input] reads stays inside the buffers. *)
Definition clade_readable (input : vtkTree) (w : vtkPhyloXMLTreeWriter) : bool :=
  forallb (vertex_array_ok (GetNumberOfVertices input)) (GetVertexData input)
  && color_array_ok input
  && edge_array_ok input (EdgeWeightArray w)
  && node_array_ok input (NodeNameArray w).

(** An element without a clade element among its nested elements. *)
Definition no_clades (e : vtkXMLDataElement) : Prop :=
  Forall (fun c => count_elements "clade" c = 0%nat) (NestedElements e).

(** [e'] has the name of [e] and, like [e], no clade element below it. *)
Definition keeps (e e' : vtkXMLDataElement) : Prop :=
  ElementName e' = ElementName e /\ (no_clades e -> no_clades e').

(** Following the spec's words for the clade writer: the clade of a vertex
    holds the vertex's own content, then the clades of its children in the
    order the tree reports them.  [w] is the writer the clades start from. *)
Definition own_content (input : vtkTree) (w : vtkPhyloXMLTreeWriter) (vertex : Z)
  : vtkXMLDataElement :=
  match clade_content input w vertex with
  | Ok c => c
  | _ => NewElement
  end.

Fixpoint mirrored_clade (input : vtkTree) (w : vtkPhyloXMLTreeWriter) (sh : rose)
  : vtkXMLDataElement :=
  match sh with
  | Rose v kids =>
      fold_left AddNestedElement (map (mirrored_clade input w) kids)
                (own_content input w v)
  end.

(** What the metadata scan leaves in a field that started as [default]:
    the value of the last entry called [key], or [default] without one. *)
Definition picked (info : vtkInformation) (key default : string) : string :=
  if existsb (fun e => String.eqb (KeyName (CurrentKey e)) key) info
  then metadata info key else default.

(** [child_in sh u v]: in the tree [sh] the vertex [v] is a child of [u]. *)
Inductive child_in : rose -> Z -> Z -> Prop :=
| child_here v kids k : In k kids -> child_in (Rose v kids) v (rose_root k)
| child_below v kids k a b : In k kids -> child_in k a b -> child_in (Rose v kids) a b.

(** The elements the clade of [vertex] shows for the name, the confidence
    and the color of the vertex. *)
Definition name_part (nn : option vtkAbstractArray) (vertex : Z) : list vtkXMLDataElement :=
  match nn with
  | Some a =>
      match GetVariantValue a vertex with
      | Ok value =>
          if String.eqb (ToString value) EmptyString then []
          else [XMLDataElement "name" [] (ToString value) []]
      | _ => []
      end
  | None => []
  end.

Definition confidence_part (input : vtkTree) (vertex : Z) : list vtkXMLDataElement :=
  match GetAbstractArray (GetVertexData input) "confidence" with
  | Some a =>
      match GetVariantValue a vertex with
      | Ok value =>
          if String.eqb (ToString value) EmptyString then []
          else [XMLDataElement "confidence"
                  (if String.eqb (GetArrayAttribute a "type") EmptyString then []
                   else [("type", GetArrayAttribute a "type")])
                  (ToString value) []]
      | _ => []
      end
  | None => []
  end.

Definition color_part (input : vtkTree) (vertex : Z) : list vtkXMLDataElement :=
  match vtkArrayDownCast_UnsignedChar (GetAbstractArray (GetVertexData input) "color") with
  | Some a =>
      match GetComponent a vertex 0, GetComponent a vertex 1, GetComponent a vertex 2 with
      | Ok r, Ok g, Ok b =>
          [XMLDataElement "color" [] EmptyString
             [XMLDataElement "red" [] r []; XMLDataElement "green" [] g [];
              XMLDataElement "blue" [] b []]]
      | _, _, _ => []
      end
  | None => []
  end.

(** The element [e] with [parts] behind its nested elements. *)
Definition extend (e : vtkXMLDataElement) (parts : list vtkXMLDataElement)
  : vtkXMLDataElement :=
  XMLDataElement (ElementName e) (Attributes e) (CharacterData e) (NestedElements e ++ parts).

(** The element the phylogeny shows for the tree-level column
    phylogeny.[elementName], the value of attribute [attributeName] taken
    from the metadata of the column. *)
Definition tree_level_part (input : vtkTree) (elementName attributeName : string)
  : list vtkXMLDataElement :=
  match GetAbstractArray (GetVertexData input) ("phylogeny." ++ elementName) with
  | Some a =>
      match GetVariantValue a 0 with
      | Ok value =>
          [XMLDataElement elementName
             (if String.eqb attributeName EmptyString
                 || String.eqb (GetArrayAttribute a attributeName) EmptyString
              then [] else [(attributeName, GetArrayAttribute a attributeName)])
             (ToString value) []]
      | _ => []
      end
  | None => []
  end.

(** A computation that does not run out of fuel, whatever the writer. *)
Definition fuelless {A} (m : M A) : Prop := forall w, m w <> OutOfFuel.

(* ================================================================== *)
(** ** Example inputs *)

Definition variant (type text number : string) : vtkVariant :=
  {| GetTypeAsString := type; ToString := text; ToDouble := number |}.

Definition string_value (s : string) : vtkVariant := variant "string" s "0".
Definition double_value (s : string) : vtkVariant := variant "double" s s.
Definition byte_value (s : string) : vtkVariant := variant "unsigned char" s s.

Definition column (ptr : nat) (name : string) (class : vtkArrayClass) (components : nat)
  (values : list vtkVariant) (info : vtkInformation) : vtkAbstractArray :=
  {| Ptr := ptr; GetName := name; GetClass := class;
     GetNumberOfComponents := components; Values := values; GetInformation := info |}.

Definition entry (k : vtkInformationKey) (v : string) : vtkInformationEntry :=
  {| CurrentKey := k; Get := v |}.

Definition edge (target id : Z) : vtkOutEdgeType := {| Target := target; Id := id |}.

(** A stream whose flushes all succeed. *)
Definition good_stream : ostream :=
  {| Written := EmptyString; FailBit := false; Device := []; SystemError := 0 |}.

(** A column with the marker in the middle of its name. *)
Definition trait_mass : vtkAbstractArray :=
  column 7 "trait.property.mass" vtkDoubleArray 1 [double_value "4.5"] [].

Definition habitat : vtkAbstractArray :=
  column 2 "property.habitat" vtkStringArray 1
    [string_value "sea"; string_value "shore"; string_value "forest"]
    [entry (StringKey "authority") "NCBI"; entry (StringKey "unit") "biome"].

(** A one-component and a four-component unsigned char column called color,
    and a color column that is not an unsigned char array. *)
Definition grey : vtkAbstractArray :=
  column 5 "color" vtkUnsignedCharArray 1 [byte_value "128"] [].

Definition rgba : vtkAbstractArray :=
  column 6 "color" vtkUnsignedCharArray 4
    [byte_value "255"; byte_value "128"; byte_value "0"; byte_value "64"] [].


(** The tree of a single vertex with the given vertex arrays. *)
Definition single_vertex (data : vtkDataSetAttributes) : vtkTree :=
  {| GetRoot := 0; Adjacency := [[]]; GetVertexData := data; GetEdgeData := [] |}.

(** A stream that takes the opening of the document and fails at the
    closing flush, the system reporting error 28. *)
Definition closing_flush_fails : ostream :=
  {| Written := EmptyString; FailBit := false; Device := [true; true; false];
     SystemError := 28 |}.

(** A plain rendering of element trees, to run the writer on examples. *)
Fixpoint render (e : vtkXMLDataElement) : string :=
  match e with
  | XMLDataElement name attributes text nested =>
      ("<" ++ name
       ++ String.concat EmptyString
            (map (fun a => " " ++ fst a ++ "=" ++ dquote ++ snd a ++ dquote) attributes)
       ++ ">" ++ text
       ++ String.concat EmptyString (map render nested)
       ++ "</" ++ name ++ ">")%string
  end.

(** A root with two leaves: names on the vertices, weights on the edges, a
    habitat property, a name for the whole tree, and a vertex column that
    has the name of the edge weights. *)
Definition node_names : vtkAbstractArray :=
  column 1 "node name" vtkStringArray 1
    [string_value "root"; string_value "leafA"; string_value "leafB"] [].

Definition tree_title : vtkAbstractArray :=
  column 3 "phylogeny.name" vtkStringArray 1
    [string_value "Primate phylogeny"; string_value EmptyString; string_value EmptyString]
    [].

Definition vertex_weights : vtkAbstractArray :=
  column 9 "weight" vtkDoubleArray 1
    [double_value "0"; double_value "10"; double_value "20"] [].

Definition edge_weights : vtkAbstractArray :=
  column 4 "weight" vtkDoubleArray 1 [double_value "1.5"; double_value "2.25"] [].

Definition root_and_two_leaves : vtkTree :=
  {| GetRoot := 0;
     Adjacency := [[edge 1 0; edge 2 1]; []; []];
     GetVertexData := [node_names; habitat; tree_title; vertex_weights];
     GetEdgeData := [edge_weights] |}.

Definition root_and_two_leaves_rose : rose := Rose 0 [Rose 1 []; Rose 2 []].


(** A vertex with a name column and a label column. *)
Definition vertex_label : vtkAbstractArray :=
  column 11 "label" vtkStringArray 1 [string_value "Homo"] [].

Definition vertex_name : vtkAbstractArray :=
  column 12 "node name" vtkStringArray 1 [string_value "sapiens"] [].

(** A column with a metadata key that is not a string key. *)
Definition keyed : vtkAbstractArray :=
  column 13 "depth" vtkIntArray 1 [variant "int" "3" "3"]
    [entry (OtherKey "type") EmptyString].

(** A stream whose first flush fails, the system reporting error 5. *)
Definition opening_flush_fails : ostream :=
  {| Written := EmptyString; FailBit := false; Device := [false]; SystemError := 5 |}.

(** A column with two string keys of the same name around a key of
    another class, and a column without a row. *)
Definition twice_typed : vtkAbstractArray :=
  column 14 "confidence" vtkDoubleArray 1 [double_value "0.9"]
    [entry (OtherKey "type") "ignored"; entry (StringKey "type") "bootstrap";
     entry (StringKey "type") "posterior"].

Definition no_rows : vtkAbstractArray :=
  column 15 "property.size" vtkIntArray 1 [] [entry (OtherKey "unit") "mm"].

(** A tree without a vertex. *)
Definition empty_tree : vtkTree :=
  {| GetRoot := -1; Adjacency := []; GetVertexData := []; GetEdgeData := [] |}.

(* ================================================================== *)
(** * Properties *)

(** ** Datatype inference *)

Ltac in_list := simpl; repeat (first [left; reflexivity | right]).

Lemma datatype_fallback (variantType : string) :
  ~ In variantType recognised_types -> datatype variantType = "xsd:string".
Proof.
  intros Hnot. unfold datatype.
  repeat match goal with
         | |- context [String.eqb variantType ?s] =>
             destruct (String.eqb_spec variantType s) as [-> | _];
             [exfalso; apply Hnot; in_list | ]
         end.
  reflexivity.
Qed.

Lemma datatype_is_token (variantType : string) : In (datatype variantType) xsd_tokens.
Proof.
  unfold datatype.
  repeat match goal with
         | |- context [String.eqb variantType ?s] =>
             destruct (String.eqb_spec variantType s) as [-> | _]; [in_list | ]
         end.
  in_list.
Qed.

(** C4: the datatype inference is a total function from the type name of
    the value to an XML Schema token.  Unsigned char gives xsd:unsignedByte,
    int xsd:integer, bit (the boolean kind) xsd:boolean, each of short, long,
    float and double the token xsd: followed by that name, unsigned short,
    int and long the matching xsd:unsigned token, __int64 xsd:long; string
    and every type name that is not recognised give xsd:string; and whatever
    the type name, the result is one of the twelve tokens. *)
Theorem datatype_total :
  datatype "unsigned char" = "xsd:unsignedByte"
  /\ datatype "int" = "xsd:integer"
  /\ datatype "bit" = "xsd:boolean"
  /\ (forall t, In t ["short"; "long"; "float"; "double"] ->
        datatype t = ("xsd:" ++ t)%string)
  /\ datatype "unsigned short" = "xsd:unsignedShort"
  /\ datatype "unsigned int" = "xsd:unsignedInt"
  /\ datatype "unsigned long" = "xsd:unsignedLong"
  /\ datatype "__int64" = "xsd:long"
  /\ datatype "string" = "xsd:string"
  /\ (forall t, ~ In t recognised_types -> datatype t = "xsd:string")
  /\ (forall t, In (datatype t) xsd_tokens).
Proof.
  repeat split; try reflexivity.
  - intros t Ht. simpl in Ht.
    destruct Ht as [<- | [<- | [<- | [<- | []]]]]; reflexivity.
  - apply datatype_fallback.
  - apply datatype_is_token.
Qed.

(** ** The two metadata scans *)

Lemma scan_keys_null (info : vtkInformation) :
  forall acc, string_keys_only info = false -> scan_keys info acc = Fault NullPointer.
Proof.
  induction info as [| e rest IH]; intros acc H; simpl in *.
  - discriminate.
  - destruct (SafeDownCast (CurrentKey e)) as [key |]; [| reflexivity].
    simpl in H.
    repeat match goal with |- context [if ?b then _ else _] => destruct b end;
      apply IH; assumption.
Qed.

Lemma scan_keys_ok (info : vtkInformation) :
  forall acc, string_keys_only info = true -> exists found, scan_keys info acc = Ok found.
Proof.
  induction info as [| e rest IH]; intros acc H; simpl in *.
  - eauto.
  - destruct (SafeDownCast (CurrentKey e)) as [key |]; [| discriminate].
    simpl in H.
    repeat match goal with |- context [if ?b then _ else _] => destruct b end;
      apply IH; assumption.
Qed.

Lemma GetArrayAttribute_keys_guarded (info : vtkInformation) (attributeName : string) :
  (forall e, In e info -> KeyName (CurrentKey e) = attributeName ->
             SafeDownCast (CurrentKey e) = None) ->
  GetArrayAttribute_keys info attributeName = EmptyString.
Proof.
  induction info as [| e rest IH]; intros H; simpl.
  - reflexivity.
  - destruct (String.eqb_spec (KeyName (CurrentKey e)) attributeName) as [Heq | Hne].
    + rewrite (H e (or_introl eq_refl) Heq). apply IH.
      intros e' Hin. apply H. right. assumption.
    + apply IH. intros e' Hin. apply H. right. assumption.
Qed.

(** C10: the metadata scan of the property writer is safe exactly when
    every information key of the column is a string key.  With a key of
    another class among them the scan reads the name through the null
    pointer the downcast returned, whatever the vertex, the element and the
    state of the writer; with string keys only it runs to its end.  The
    attribute lookup helper tests the downcast first: it returns a string
    for every column, and the empty string when the keys with the name
    asked for are not string keys. *)
Theorem metadata_scan_precondition :
  (forall array vertex element w,
      string_keys_only (GetInformation array) = false ->
      WritePropertyElement array vertex element w = Fault NullPointer)
  /\ (forall array acc,
         string_keys_only (GetInformation array) = true ->
         exists found, scan_keys (GetInformation array) acc = Ok found)
  /\ (forall array attributeName,
         (forall e, In e (GetInformation array) ->
                    KeyName (CurrentKey e) = attributeName ->
                    SafeDownCast (CurrentKey e) = None) ->
         GetArrayAttribute array attributeName = EmptyString).
Proof.
  split; [| split].
  - intros array vertex element w H.
    unfold WritePropertyElement, bind, log_property, lift.
    rewrite (scan_keys_null _ _ H). reflexivity.
  - intros array acc H. apply scan_keys_ok. assumption.
  - intros array attributeName H. apply GetArrayAttribute_keys_guarded. assumption.
Qed.

(** ** The ref attribute of a property element *)

Lemma substring_all (s : string) :
  forall m, (String.length s <= m)%nat -> String.substring 0 m s = s.
Proof.
  induction s as [| c s IH]; intros m Hm; destruct m as [| m]; simpl in *;
    try reflexivity; try lia.
  f_equal. apply IH. lia.
Qed.

Lemma substring_drop (s : string) :
  forall n m, (String.length s - n <= m)%nat -> String.substring n m s = drop n s.
Proof.
  induction s as [| c s IH]; intros n m Hm.
  - destruct n, m; reflexivity.
  - destruct n as [| n].
    + simpl drop. apply substring_all. simpl in *. lia.
    + simpl. apply IH. simpl in Hm. lia.
Qed.

Lemma index_after_first (p s : string) :
  match String.index 0 p s with
  | Some pos => after_first p s = Some (drop (pos + String.length p) s)
  | None => after_first p s = None
  end.
Proof.
  induction s as [| c s IH].
  - destruct p; simpl; reflexivity.
  - cbn [String.index after_first].
    destruct (String.prefix p (String c s)).
    + cbn. reflexivity.
    + destruct (String.index 0 p s) as [pos |]; cbn; assumption.
Qed.

Lemma propertyName_local_name (arrayName : string) :
  propertyName arrayName = local_name arrayName.
Proof.
  unfold propertyName, local_name.
  pose proof (index_after_first "property." arrayName) as H.
  destruct (String.index 0 "property." arrayName) as [pos |]; rewrite H.
  - apply substring_drop. lia.
  - apply substring_all. lia.
Qed.

Lemma prefix_drop (p s : string) :
  String.prefix p s = true -> s = (p ++ drop (String.length p) s)%string.
Proof.
  revert s. induction p as [| a p IH]; intros s H.
  - reflexivity.
  - destruct s as [| b s]; simpl in H; [discriminate |].
    destruct (Ascii.ascii_dec a b) as [-> | ]; [| discriminate].
    simpl. f_equal. apply IH. assumption.
Qed.

Lemma prefix_append (p s : string) : String.prefix p (p ++ s) = true.
Proof.
  induction p as [| a p IH]; simpl.
  - destruct s; reflexivity.
  - destruct (Ascii.ascii_dec a a); [assumption | congruence].
Qed.

Lemma drop_append (p s : string) : drop (String.length p) (p ++ s) = s.
Proof. induction p as [| a p IH]; simpl; [destruct s; reflexivity | assumption]. Qed.

Lemma after_first_occurs (p s rest : string) :
  after_first p s = Some rest -> exists a, s = (a ++ p ++ rest)%string.
Proof.
  induction s as [| c s IH]; cbn [after_first].
  - destruct (String.prefix p EmptyString) eqn:Hp; [| discriminate].
    intros [= <-]. exists EmptyString. apply (prefix_drop _ _ Hp).
  - destruct (String.prefix p (String c s)) eqn:Hp.
    + intros [= <-]. exists EmptyString. apply (prefix_drop _ _ Hp).
    + intros H. destruct (IH H) as [a ->]. exists (String c a). reflexivity.
Qed.

Lemma metadata_absent (info : vtkInformation) (key : string) :
  existsb (fun e => String.eqb (KeyName (CurrentKey e)) key) info = false ->
  metadata info key = EmptyString.
Proof.
  induction info as [| e rest IH]; simpl; intros H.
  - reflexivity.
  - apply orb_false_iff in H. destruct H as [He Hrest].
    rewrite Hrest, He. reflexivity.
Qed.

Lemma SafeDownCast_name (k key : vtkInformationKey) :
  SafeDownCast k = Some key -> key = k.
Proof. destruct k; simpl; congruence. Qed.

Lemma scan_keys_authority (info : vtkInformation) :
  forall acc found,
    scan_keys info acc = Ok found ->
    authority found =
      if existsb (fun e => String.eqb (KeyName (CurrentKey e)) "authority") info
      then metadata info "authority" else authority acc.
Proof.
  induction info as [| e rest IH]; intros acc found H; simpl in H.
  - injection H as <-. reflexivity.
  - destruct (SafeDownCast (CurrentKey e)) as [key |] eqn:Hk; [| discriminate].
    apply SafeDownCast_name in Hk. subst key.
    cbn [existsb metadata].
    destruct (String.eqb (KeyName (CurrentKey e)) "authority") eqn:Ha.
    + rewrite (IH _ _ H). simpl.
      destruct (existsb _ rest); reflexivity.
    + assert (Hacc : forall acc', authority acc' = authority acc ->
                scan_keys rest acc' = Ok found ->
                authority found =
                  if existsb (fun e => String.eqb (KeyName (CurrentKey e)) "authority") rest
                  then metadata rest "authority" else authority acc).
      { intros acc' Heq H'. rewrite (IH _ _ H'), Heq. reflexivity. }
      assert (Hfound : authority found =
                if existsb (fun e => String.eqb (KeyName (CurrentKey e)) "authority") rest
                then metadata rest "authority" else authority acc).
      { destruct (String.eqb (KeyName (CurrentKey e)) "applies_to");
          [refine (Hacc _ _ H); reflexivity |].
        destruct (String.eqb (KeyName (CurrentKey e)) "unit");
          refine (Hacc _ _ H); reflexivity. }
      rewrite Hfound. simpl.
      destruct (existsb _ rest); reflexivity.
Qed.

Lemma WritePropertyElement_run array vertex element w :
  WritePropertyElement array vertex element w =
  match scan_keys (GetInformation array) no_attributes with
  | Ok found =>
      match GetVariantValue array (if vertex =? -1 then 0 else vertex) with
      | Ok value =>
          Ok (AddNestedElement element (property_element array found value),
              record_ (if vertex =? -1 then [GetName array] else [])
                      [(array, vertex)] w)
      | Fault f => Fault f
      | OutOfFuel => OutOfFuel
      end
  | Fault f => Fault f
  | OutOfFuel => OutOfFuel
  end.
Proof.
  unfold WritePropertyElement, bind, log_property, lift, no_attributes.
  destruct (scan_keys (GetInformation array) _) as [found | |]; try reflexivity.
  destruct (vertex =? -1); simpl;
    destruct (GetVariantValue array _) as [value | |]; simpl; try reflexivity;
    unfold ret, record_, property_element; simpl; rewrite ?app_nil_r; reflexivity.
Qed.

Lemma WritePropertyElement_ref array vertex element w e' w' :
  WritePropertyElement array vertex element w = Ok (e', w') ->
  exists p,
    e' = AddNestedElement element p
    /\ ElementName p = "property"
    /\ GetAttribute (Attributes p) "ref"
       = Some (authority_of array ++ ":" ++ local_name (GetName array))%string.
Proof.
  rewrite WritePropertyElement_run. unfold no_attributes.
  destruct (scan_keys (GetInformation array) _) as [found | |] eqn:Hscan;
    try discriminate.
  pose proof (scan_keys_authority _ _ _ Hscan) as Hauth. simpl in Hauth.
  assert (Hmeta : authority found = metadata (GetInformation array) "authority").
  { rewrite Hauth. destruct (existsb _ _) eqn:Hex; [reflexivity |].
    symmetry. apply metadata_absent. assumption. }
  destruct (GetVariantValue array _) as [value | |]; try discriminate.
  intros [= <- _]. eexists. split; [reflexivity |].
  unfold property_element, ref, authority_of.
  rewrite propertyName_local_name, Hmeta.
  destruct (negb (String.eqb (unit_ found) EmptyString)); split; reflexivity.
Qed.

(** C5, as the code has it: every property element has a ref attribute made of the
    authority, a colon and the local name.  The authority is the value the
    column's metadata gives the key authority, the literal VTK when that is
    absent or empty.  The local name is what follows the first occurrence of
    the marker property. in the column's name, wherever that occurrence
    stands: a leading marker is stripped, a name that contains the marker
    further in loses everything up to and including it, and a name without
    the marker is kept whole. *)
Theorem property_ref_attribute :
  (forall array vertex element w e' w',
      WritePropertyElement array vertex element w = Ok (e', w') ->
      exists p,
        e' = AddNestedElement element p
        /\ ElementName p = "property"
        /\ GetAttribute (Attributes p) "ref"
           = Some (authority_of array ++ ":" ++ local_name (GetName array))%string)
  /\ (forall rest, local_name ("property." ++ rest) = rest)
  /\ (forall name rest,
         after_first "property." name = Some rest ->
         local_name name = rest /\ exists a, name = (a ++ "property." ++ rest)%string)
  /\ (forall name,
         (forall a rest, name <> (a ++ "property." ++ rest)%string) ->
         local_name name = name).
Proof.
  split; [| split; [| split]].
  - intros. eapply WritePropertyElement_ref. eassumption.
  - intros rest. unfold local_name.
    change (after_first "property." ("property." ++ rest))
      with (if String.prefix "property." ("property." ++ rest)
            then Some (drop (String.length "property.") ("property." ++ rest))
            else after_first "property." ("roperty." ++ rest)).
    rewrite prefix_append, drop_append. reflexivity.
  - intros name rest H. split.
    + unfold local_name. rewrite H. reflexivity.
    + apply after_first_occurs. assumption.
  - intros name H. unfold local_name.
    destruct (after_first "property." name) as [rest |] eqn:Hafter; [| reflexivity].
    destruct (after_first_occurs _ _ _ Hafter) as [a Ha].
    exfalso. apply (H a rest). assumption.
Qed.

Lemma property_ref_attribute_witness :
  exists p,
    ElementName p = "property"
    /\ GetAttribute (Attributes p) "ref" = Some "NCBI:habitat".
Proof.
  destruct (proj1 property_ref_attribute habitat 2 NewElement (New good_stream) _ _
              eq_refl) as [p [_ [Hname Href]]].
  exists p. split; [exact Hname | exact Href].
Defined.

(** C5, as stated, fails: a column whose name holds the marker in the
    middle does not keep its full name as local name. *)
Lemma inner_marker_is_stripped :
  String.prefix "property." (GetName trait_mass) = false
  /\ exists p w',
       WritePropertyElement trait_mass 0 NewElement (New good_stream)
       = Ok (AddNestedElement NewElement p, w')
       /\ GetAttribute (Attributes p) "ref" = Some "VTK:mass"
       /\ GetAttribute (Attributes p) "ref" <> Some "VTK:trait.property.mass".
Proof.
  split; [reflexivity |].
  exists (property_element trait_mass no_attributes (double_value "4.5")).
  exists (record_ [] [(trait_mass, 0)] (New good_stream)).
  split; [reflexivity |].
  split; [reflexivity | discriminate].
Qed.

(** ** The color element *)

Lemma WriteColorElement_not_unsigned_char input vertex element w :
  vtkArrayDownCast_UnsignedChar (GetAbstractArray (GetVertexData input) "color") = None ->
  WriteColorElement input vertex element w = Ok (element, w).
Proof. intros H. unfold WriteColorElement. rewrite H. reflexivity. Qed.

(** C7, the code at the failing input: a color column of unsigned chars
    with one component passes the downcast, and the reads of the green and
    blue components leave the tuple; with four components a color element
    is written. *)
Theorem color_component_count_unchecked :
  WriteColorElement (single_vertex [grey]) 0 (SetName NewElement "clade") (New good_stream)
  = Fault OutOfRange
  /\ exists w',
       WriteColorElement (single_vertex [rgba]) 0 (SetName NewElement "clade")
         (New good_stream)
       = Ok (XMLDataElement "clade" [] EmptyString
               [XMLDataElement "color" [] EmptyString
                  [XMLDataElement "red" [] "255" [];
                   XMLDataElement "green" [] "128" [];
                   XMLDataElement "blue" [] "0" []]], w').
Proof. split; [reflexivity | eexists; lazy; reflexivity]. Qed.

(** ** The closing flush *)

(** C3, the code at the failing input: when the closing flush fails,
    [EndFile] records the system error, and [WriteData] still returns 1. *)
Theorem closing_flush_failure_returns_success :
  forall PrintXML, exists w',
    WriteData PrintXML 1 (single_vertex []) (New closing_flush_fails) = Ok (1, w')
    /\ fail (Stream w') = true
    /\ ErrorCode w' = GetLastSystemError closing_flush_fails.
Proof. intros PrintXML. eexists. split; [lazy; reflexivity | split; reflexivity]. Qed.

(** ** Run equations: each member function as its element and its effect *)

Lemma record_nil w : record_ [] [] w = w.
Proof. destruct w. unfold record_. simpl. rewrite !app_nil_r. reflexivity. Qed.

Lemma record_record n1 p1 n2 p2 w :
  record_ n2 p2 (record_ n1 p1 w) = record_ (n1 ++ n2) (p1 ++ p2) w.
Proof. unfold record_. simpl. rewrite !app_assoc. reflexivity. Qed.

Lemma bind_with_state {A B} (m : M A) (k : A -> M B) w r1 w1 r2 w2 :
  m w = with_state r1 w1 ->
  (forall a, k a w1 = with_state (r2 a) w2) ->
  bind m k w = with_state (rbind r1 r2) w2.
Proof.
  intros Hm Hk. unfold bind. rewrite Hm.
  destruct r1 as [a | f |]; simpl; [apply Hk | reflexivity | reflexivity].
Qed.

Lemma lift_with_state {A} (r : result A) w : lift r w = with_state r w.
Proof. destruct r; reflexivity. Qed.

Ltac state_eq :=
  unfold record_, visit; simpl; rewrite ?app_nil_r;
  try reflexivity;
  match goal with
  | w : vtkPhyloXMLTreeWriter |- _ => destruct w; reflexivity
  end.

Lemma guarded_IgnoreArray_run (name : string) w :
  (if LookupValue (Blacklist w) name =? -1 then IgnoreArray name else ret tt) w
  = Ok (tt, record_ (fresh (Blacklist w) [name]) [] w).
Proof.
  simpl. destruct (LookupValue (Blacklist w) name =? -1);
    unfold IgnoreArray, Blacklist_InsertNextValue, ret; f_equal; f_equal; state_eq.
Qed.

Lemma WriteBranchLengthAttribute_run input vertex element w :
  WriteBranchLengthAttribute input vertex element w
  = with_state (branch_length_attribute input (EdgeWeightArray w) vertex element)
               (record_ (fresh (Blacklist w) (name_of (EdgeWeightArray w))) [] w).
Proof.
  unfold WriteBranchLengthAttribute, branch_length_attribute, bind, this.
  destruct (EdgeWeightArray w) as [a |]; simpl name_of.
  - unfold lift.
    destruct (GetParent input vertex) as [parent | |]; try reflexivity.
    cbn [rbind with_state].
    destruct (negb (parent =? -1)).
    + destruct (negb (GetEdgeId input parent vertex =? -1)).
      * destruct (GetVariantValue a (GetEdgeId input parent vertex)); try reflexivity.
        cbn [rbind ret]. rewrite guarded_IgnoreArray_run. reflexivity.
      * cbn [rbind ret]. rewrite guarded_IgnoreArray_run. reflexivity.
    + cbn [rbind ret]. rewrite guarded_IgnoreArray_run. reflexivity.
  - simpl. rewrite record_nil. reflexivity.
Qed.

Lemma WriteNameElement_run vertex element w :
  WriteNameElement vertex element w
  = with_state (name_element (NodeNameArray w) vertex element)
               (record_ (fresh (Blacklist w) (name_of (NodeNameArray w))) [] w).
Proof.
  unfold WriteNameElement, name_element, bind, this.
  destruct (NodeNameArray w) as [a |]; simpl name_of.
  - unfold lift.
    destruct (GetVariantValue a vertex); try reflexivity.
    cbn [rbind with_state]. rewrite guarded_IgnoreArray_run. reflexivity.
  - simpl. rewrite record_nil. reflexivity.
Qed.

Lemma WriteConfidenceElement_run input vertex element w :
  WriteConfidenceElement input vertex element w
  = with_state (confidence_element input vertex element)
      (record_ (fresh (Blacklist w)
                  (match GetAbstractArray (GetVertexData input) "confidence" with
                   | Some _ => ["confidence"] | None => [] end)) [] w).
Proof.
  unfold WriteConfidenceElement, confidence_element, bind, this.
  destruct (GetAbstractArray (GetVertexData input) "confidence") as [a |].
  - unfold lift.
    destruct (GetVariantValue a vertex); try reflexivity.
    cbn [rbind with_state]. rewrite guarded_IgnoreArray_run. reflexivity.
  - simpl. rewrite record_nil. reflexivity.
Qed.

Lemma WriteColorElement_run input vertex element w :
  WriteColorElement input vertex element w
  = with_state (color_element input vertex element)
      (record_ (fresh (Blacklist w)
                  (match vtkArrayDownCast_UnsignedChar
                           (GetAbstractArray (GetVertexData input) "color") with
                   | Some _ => ["color"] | None => [] end)) [] w).
Proof.
  unfold WriteColorElement, color_element, bind, this.
  destruct (vtkArrayDownCast_UnsignedChar _) as [a |].
  - unfold lift.
    destruct (GetComponent a vertex 0); try reflexivity.
    destruct (GetComponent a vertex 1); try reflexivity.
    destruct (GetComponent a vertex 2); try reflexivity.
    cbn [rbind with_state]. rewrite guarded_IgnoreArray_run. reflexivity.
  - simpl. rewrite record_nil. reflexivity.
Qed.

Lemma fresh_app (names1 names2 ledger : list string) :
  fresh ledger (names1 ++ names2)
  = fresh ledger names1 ++ fresh (ledger ++ fresh ledger names1) names2.
Proof.
  revert ledger. induction names1 as [| n rest IH]; intros ledger; simpl.
  - rewrite app_nil_r. reflexivity.
  - destruct (LookupValue ledger n =? -1).
    + simpl. rewrite IH, <- app_assoc. reflexivity.
    + apply IH.
Qed.

Lemma WritePropertyElement_with_state array vertex element w :
  WritePropertyElement array vertex element w
  = with_state (property_of array (if vertex =? -1 then 0 else vertex) element)
      (record_ (if vertex =? -1 then [GetName array] else []) [(array, vertex)] w).
Proof.
  rewrite WritePropertyElement_run. unfold property_of, with_state.
  destruct (scan_keys _ _); try reflexivity. cbn [rbind].
  destruct (GetVariantValue _ _); reflexivity.
Qed.

Lemma clade_properties_run (data : list vtkAbstractArray) vertex :
  vertex <> -1 ->
  forall element w,
    for_each data
      (fun array cladeElement =>
         w <- this ;;
         if same_array array (NodeNameArray w) || same_array array (EdgeWeightArray w)
         then ret cladeElement
         else if negb (LookupValue (Blacklist w) (GetName array) =? -1)
         then ret cladeElement
         else WritePropertyElement array vertex cladeElement)
      element w
    = with_state
        (properties_of (selected data (EdgeWeightArray w) (NodeNameArray w) (Blacklist w))
                       vertex element)
        (record_ [] (map (fun a => (a, vertex))
                         (selected data (EdgeWeightArray w) (NodeNameArray w) (Blacklist w)))
                 w).
Proof.
  intros Hv. apply Z.eqb_neq in Hv.
  induction data as [| a rest IH]; intros element w.
  - simpl. rewrite record_nil. reflexivity.
  - cbn [for_each selected filter].
    unfold bind at 1. unfold this at 1. unfold bind at 1.
    destruct (same_array a (NodeNameArray w) || same_array a (EdgeWeightArray w)).
    + cbn [negb andb ret]. apply IH.
    + cbn [negb andb].
      destruct (LookupValue (Blacklist w) (GetName a) =? -1).
      * cbn [negb]. rewrite WritePropertyElement_with_state, Hv.
        cbn [properties_of map].
        destruct (property_of a vertex element) as [e | f |]; try reflexivity.
        cbn [with_state rbind]. rewrite IH.
        cbn [record_ Blacklist EdgeWeightArray NodeNameArray]. rewrite app_nil_r.
        fold (selected rest (EdgeWeightArray w) (NodeNameArray w) (Blacklist w)).
        destruct (properties_of _ vertex e); try reflexivity.
        cbn [with_state rbind]. f_equal. f_equal.
        unfold record_. simpl. rewrite !app_nil_r, <- !app_assoc. reflexivity.
      * cbn [negb ret]. apply IH.
Qed.

Lemma WriteCladeProperties_run input vertex element w :
  vertex <> -1 ->
  WriteCladeProperties input vertex element w
  = with_state
      (properties_of (selected (GetVertexData input) (EdgeWeightArray w) (NodeNameArray w)
                               (Blacklist w)) vertex element)
      (record_ [] (map (fun a => (a, vertex))
                       (selected (GetVertexData input) (EdgeWeightArray w)
                                 (NodeNameArray w) (Blacklist w))) w).
Proof. intros Hv. apply clade_properties_run. assumption. Qed.

Lemma WriteCladeContent_run input vertex w :
  vertex <> -1 ->
  WriteCladeContent input vertex w
  = with_state (clade_content input w vertex) (after_content input w vertex).
Proof.
  intros Hv. unfold WriteCladeContent, clade_content, fixed_elements.
  unfold bind at 1. unfold log_clade at 1. fold (visit vertex w).
  set (w0 := visit vertex w).
  set (B := Blacklist w).
  set (n1 := name_of (EdgeWeightArray w)).
  set (n2 := name_of (NodeNameArray w)).
  set (n3 := match GetAbstractArray (GetVertexData input) "confidence" with
             | Some _ => ["confidence"] | None => [] end).
  set (n4 := match vtkArrayDownCast_UnsignedChar
                     (GetAbstractArray (GetVertexData input) "color") with
             | Some _ => ["color"] | None => [] end).
  unfold bind at 1. rewrite WriteBranchLengthAttribute_run.
  change (EdgeWeightArray w0) with (EdgeWeightArray w).
  change (Blacklist w0) with B. fold n1.
  destruct (branch_length_attribute _ _ _ _) as [e1 | |]; try reflexivity.
  cbn [with_state rbind].
  unfold bind at 1. rewrite WriteNameElement_run.
  change (NodeNameArray (record_ (fresh B n1) [] w0)) with (NodeNameArray w).
  change (Blacklist (record_ (fresh B n1) [] w0)) with (B ++ fresh B n1).
  fold n2.
  destruct (name_element _ _ _) as [e2 | |]; try reflexivity.
  cbn [with_state rbind]. rewrite record_record.
  unfold bind at 1. rewrite WriteConfidenceElement_run. fold n3.
  destruct (confidence_element _ _ _) as [e3 | |]; try reflexivity.
  cbn [with_state rbind]. rewrite record_record.
  unfold bind at 1. rewrite WriteColorElement_run. fold n4.
  destruct (color_element _ _ _) as [e4 | |]; try reflexivity.
  cbn [with_state rbind]. rewrite record_record.
  match goal with
  | |- context [record_ ?nm ?pr w0] =>
      set (NM := nm); change pr with (@nil (vtkAbstractArray * Z))
  end.
  assert (HNM : NM = fresh B (fixed_names input w)).
  { subst NM. unfold fixed_names. fold n1 n2 n3 n4.
    change (Blacklist (record_ ?n ?p w0)) with (B ++ n).
    rewrite !fresh_app, <- !app_assoc. reflexivity. }
  rewrite HNM. rewrite (WriteCladeProperties_run _ _ _ _ Hv).
  change (Blacklist (record_ ?n ?p w0)) with (B ++ n).
  change (EdgeWeightArray (record_ ?n ?p w0)) with (EdgeWeightArray w).
  change (NodeNameArray (record_ ?n ?p w0)) with (NodeNameArray w).
  unfold clade_arrays, clade_ledger, after_content. fold B w0.
  destruct (properties_of _ vertex e4); try reflexivity.
  cbn [with_state rbind]. rewrite record_record, app_nil_r. reflexivity.
Qed.

Lemma WriteTreeLevelElement_run input rootElement elementName attributeName w :
  WriteTreeLevelElement input rootElement elementName attributeName w
  = with_state (tree_level_element input rootElement elementName attributeName)
               (record_ (tree_level_name input elementName) [] w).
Proof.
  unfold WriteTreeLevelElement, tree_level_element, tree_level_name.
  destruct (GetAbstractArray (GetVertexData input) _) as [array |].
  - unfold bind, lift.
    destruct (GetVariantValue array 0); try reflexivity.
    unfold Blacklist_InsertNextValue, ret. cbn [with_state rbind].
    f_equal. f_equal. state_eq.
  - unfold ret. rewrite record_nil. reflexivity.
Qed.

Lemma tree_level_properties_run (data : list vtkAbstractArray) :
  forall element w,
    for_each data
      (fun arr element =>
         if String.prefix "phylogeny.property." (GetName arr)
         then WritePropertyElement arr (-1) element
         else ret element)
      element w
    = with_state
        (properties_of
           (filter (fun a => String.prefix "phylogeny.property." (GetName a)) data)
           0 element)
        (record_
           (map GetName
              (filter (fun a => String.prefix "phylogeny.property." (GetName a)) data))
           (map (fun a => (a, -1))
              (filter (fun a => String.prefix "phylogeny.property." (GetName a)) data))
           w).
Proof.
  induction data as [| a rest IH]; intros element w.
  - simpl. rewrite record_nil. reflexivity.
  - cbn [for_each filter]. unfold bind at 1.
    destruct (String.prefix "phylogeny.property." (GetName a)).
    + rewrite WritePropertyElement_with_state.
      change (-1 =? -1) with true. cbv iota. cbn [properties_of map].
      destruct (property_of a 0 element) as [e | f |]; try reflexivity.
      cbn [with_state rbind]. rewrite IH.
      destruct (properties_of _ 0 e); try reflexivity.
      cbn [with_state rbind]. rewrite record_record. reflexivity.
    + unfold ret at 1. apply IH.
Qed.

Lemma WriteTreeLevelProperties_run input element w :
  WriteTreeLevelProperties input element w
  = with_state (properties_of (tree_level_arrays input) 0 element)
      (record_ (map GetName (tree_level_arrays input))
               (map (fun a => (a, -1)) (tree_level_arrays input)) w).
Proof. apply tree_level_properties_run. Qed.

(** ** The ledger as a set of names *)

Lemma LookupValue_range (values : list string) (value : string) :
  -1 <= LookupValue values value.
Proof.
  induction values as [| x rest IH]; simpl; [lia |].
  destruct (String.eqb x value); [lia |].
  destruct (LookupValue rest value =? -1); lia.
Qed.

Lemma LookupValue_absent (values : list string) (value : string) :
  (LookupValue values value =? -1) = true <-> ~ In value values.
Proof.
  induction values as [| x rest IH]; simpl.
  - split; [tauto | reflexivity].
  - destruct (String.eqb_spec x value) as [-> | Hne].
    + split; [discriminate | tauto].
    + pose proof (LookupValue_range rest value) as Hr.
      destruct (LookupValue rest value =? -1) eqn:Hl.
      * split; [| reflexivity]. intros _ [H | H]; [congruence |].
        apply IH in H; [assumption | reflexivity].
      * split.
        -- rewrite Z.eqb_eq. apply Z.eqb_neq in Hl. lia.
        -- intros H. exfalso.
           assert (Hnot : ~ In value rest) by tauto.
           apply IH in Hnot. discriminate.
Qed.

Lemma LookupValue_present (values : list string) (value : string) :
  (LookupValue values value =? -1) = false <-> In value values.
Proof.
  pose proof (LookupValue_absent values value) as H.
  destruct (LookupValue values value =? -1).
  - split; [discriminate |]. intros Hin. exfalso. apply (proj1 H); auto.
  - split; [| reflexivity]. intros _.
    destruct (in_dec string_dec value values) as [Hin | Hnot]; [assumption |].
    apply H in Hnot. discriminate.
Qed.

Lemma fresh_In (names ledger : list string) (n : string) :
  In n (fresh ledger names) <-> In n names /\ ~ In n ledger.
Proof.
  revert ledger. induction names as [| m rest IH]; intros ledger; simpl.
  - tauto.
  - destruct (LookupValue ledger m =? -1) eqn:Hl.
    + apply LookupValue_absent in Hl. simpl. rewrite IH, in_app_iff. simpl.
      destruct (string_dec m n) as [-> | Hne]; [tauto |].
      split; [intros [H | H] | intros [[H | H] H']]; try tauto.
    + apply LookupValue_present in Hl. rewrite IH.
      split; [tauto |]. intros [[<- | H] H']; tauto.
Qed.

Lemma closure_In (names ledger : list string) (n : string) :
  In n (ledger ++ fresh ledger names) <-> In n ledger \/ In n names.
Proof.
  rewrite in_app_iff, fresh_In.
  destruct (in_dec string_dec n ledger); tauto.
Qed.

Lemma fresh_closed (names ledger : list string) :
  incl names ledger -> fresh ledger names = [].
Proof.
  intros H. destruct (fresh ledger names) as [| n rest] eqn:Hf; [reflexivity |].
  assert (Hin : In n (fresh ledger names)) by (rewrite Hf; left; reflexivity).
  apply fresh_In in Hin. destruct Hin as [Hin Hnot]. exfalso. apply Hnot, H, Hin.
Qed.

(** ** The recursion over the clades *)

Lemma GetChildren_Ok input v kids : GetChildren input v = Ok kids -> 0 <= v.
Proof.
  unfold GetChildren, GetOutEdges. destruct (v <? 0) eqn:Hv; [discriminate |].
  intros _. apply Z.ltb_ge in Hv. assumption.
Qed.

Lemma WriteCladeElement_Ok fuel input vertex parentElement w p' w' :
  WriteCladeElement fuel input vertex parentElement w = Ok (p', w') ->
  exists fuel' c0 kids c,
    fuel = S fuel'
    /\ 0 <= vertex
    /\ clade_content input w vertex = Ok c0
    /\ GetChildren input vertex = Ok kids
    /\ for_each kids (fun child e => WriteCladeElement fuel' input child e) c0
         (after_content input w vertex) = Ok (c, w')
    /\ p' = AddNestedElement parentElement c.
Proof.
  destruct fuel as [| fuel']; [discriminate |].
  cbn [WriteCladeElement]. unfold bind at 1.
  destruct (GetChildren input vertex) as [kids | f |] eqn:Hkids.
  - pose proof (GetChildren_Ok _ _ _ Hkids) as Hv.
    rewrite WriteCladeContent_run by lia.
    destruct (clade_content input w vertex) as [c0 | |]; try discriminate.
    cbn [with_state rbind]. unfold bind at 1. unfold lift at 1.
    unfold bind at 1.
    destruct (for_each kids _ c0 _) as [[c w1] | |] eqn:Hloop; try discriminate.
    unfold ret. intros [= <- <-].
    exists fuel', c0, kids, c. repeat apply conj; assumption || reflexivity.
  - destruct (WriteCladeContent input vertex w) as [[c0 w1] | |]; discriminate.
  - destruct (WriteCladeContent input vertex w) as [[c0 w1] | |]; discriminate.
Qed.

Lemma WriteCladeElement_intro fuel' input vertex parentElement w c0 kids c w' :
  clade_content input w vertex = Ok c0 ->
  GetChildren input vertex = Ok kids ->
  for_each kids (fun child e => WriteCladeElement fuel' input child e) c0
    (after_content input w vertex) = Ok (c, w') ->
  WriteCladeElement (S fuel') input vertex parentElement w
  = Ok (AddNestedElement parentElement c, w').
Proof.
  intros Hc Hkids Hloop. pose proof (GetChildren_Ok _ _ _ Hkids) as Hv.
  cbn [WriteCladeElement]. unfold bind at 1.
  rewrite WriteCladeContent_run by lia. rewrite Hc. cbn [with_state rbind].
  unfold bind at 1. unfold lift at 1. rewrite Hkids.
  unfold bind at 1. rewrite Hloop. reflexivity.
Qed.

Lemma for_each_cons_Ok {A} (x : A) xs body e w e' w' :
  for_each (x :: xs) body e w = Ok (e', w') ->
  exists e1 w1, body x e w = Ok (e1, w1) /\ for_each xs body e1 w1 = Ok (e', w').
Proof.
  cbn [for_each]. unfold bind at 1.
  destruct (body x e w) as [[e1 w1] | |]; try discriminate.
  intros H. exists e1, w1. split; [reflexivity | assumption].
Qed.

Lemma same_setup_refl w : same_setup w w.
Proof. unfold same_setup. tauto. Qed.

Lemma same_setup_trans w1 w2 w3 :
  same_setup w1 w2 -> same_setup w2 w3 -> same_setup w1 w3.
Proof. unfold same_setup. intuition congruence. Qed.

Lemma fixed_names_setup input w w' :
  same_setup w w' -> fixed_names input w' = fixed_names input w.
Proof.
  intros (_ & _ & Hew & Hnn & _). unfold fixed_names. rewrite Hew, Hnn. reflexivity.
Qed.

Lemma clade_step_refl input w : clade_step input w w.
Proof.
  split.
  - apply same_setup_refl.
  - exists []. rewrite app_nil_r. split; [reflexivity | constructor].
  - exists []. rewrite app_nil_r. split; [reflexivity | constructor].
Qed.

Lemma clade_step_trans input w1 w2 w3 :
  clade_step input w1 w2 -> clade_step input w2 w3 -> clade_step input w1 w3.
Proof.
  intros [S1 (n1 & Hn1 & Fn1) (a1 & Ha1 & Fa1)] [S2 (n2 & Hn2 & Fn2) (a2 & Ha2 & Fa2)].
  pose proof (fixed_names_setup input _ _ S1) as Hfx.
  split.
  - eapply same_setup_trans; eassumption.
  - exists (n1 ++ n2). split.
    + rewrite Hn2, Hn1, app_assoc. reflexivity.
    + apply Forall_app. split; [assumption |]. rewrite Hfx in Fn2. assumption.
  - exists (a1 ++ a2). split.
    + rewrite Ha2, Ha1, app_assoc. reflexivity.
    + apply Forall_app. split; [assumption |].
      eapply Forall_impl; [| exact Fa2]. intros cv (Hv & Hb & Hf).
      rewrite Hfx in Hf. rewrite Hn1 in Hb. rewrite in_app_iff in Hb. tauto.
Qed.

Lemma selected_In data ew nn ledger a :
  In a (selected data ew nn ledger) -> ~ In (GetName a) ledger.
Proof.
  unfold selected. rewrite filter_In. intros [_ H].
  apply andb_prop in H. destruct H as [_ H]. apply LookupValue_absent. assumption.
Qed.

Lemma after_content_step input w vertex :
  0 <= vertex -> clade_step input w (after_content input w vertex).
Proof.
  intros Hv. unfold after_content. split.
  - unfold same_setup. simpl. tauto.
  - exists (fresh (Blacklist w) (fixed_names input w)). split; [reflexivity |].
    apply Forall_forall. intros n Hn. apply fresh_In in Hn. tauto.
  - exists (map (fun a => (a, vertex)) (clade_arrays input w)). split; [reflexivity |].
    apply Forall_forall. intros cv Hcv. apply in_map_iff in Hcv.
    destruct Hcv as (a & <- & Ha). simpl. split; [assumption |].
    apply selected_In in Ha. unfold clade_ledger in Ha.
    rewrite closure_In in Ha. tauto.
Qed.

Lemma after_content_closed input w vertex :
  incl (fixed_names input w) (Blacklist (after_content input w vertex)).
Proof.
  intros n Hn. unfold after_content. simpl. apply closure_In. tauto.
Qed.

Lemma clade_step_incl input w w' :
  clade_step input w w' -> incl (Blacklist w) (Blacklist w').
Proof.
  intros [_ (names & Hn & _) _] n Hin. rewrite Hn. apply in_app_iff. tauto.
Qed.

Lemma WriteCladeElement_step fuel input :
  forall vertex parentElement w p' w',
    WriteCladeElement fuel input vertex parentElement w = Ok (p', w') ->
    clade_step input w w' /\ incl (fixed_names input w) (Blacklist w').
Proof.
  induction fuel as [| fuel IH]; intros vertex parentElement w p' w' H;
    apply WriteCladeElement_Ok in H;
    destruct H as (fuel' & c0 & kids & c & Hfuel & Hv & Hc0 & Hkids & Hloop & ->);
    [discriminate |].
  injection Hfuel as <-.
  assert (Hchildren : forall kids e w1 e' w2,
             for_each kids (fun child e => WriteCladeElement fuel input child e) e w1
             = Ok (e', w2) -> clade_step input w1 w2).
  { clear - IH. induction kids as [| k rest IHk]; intros e w1 e' w2 H.
    - injection H as _ <-. apply clade_step_refl.
    - apply for_each_cons_Ok in H. destruct H as (e1 & wk & Hk & Hrest).
      eapply clade_step_trans; [apply (IH _ _ _ _ _ Hk) | apply (IHk _ _ _ _ Hrest)]. }
  pose proof (Hchildren _ _ _ _ _ Hloop) as Hstep.
  split.
  - eapply clade_step_trans; [apply (after_content_step input w vertex Hv) | exact Hstep].
  - intros n Hn. apply (clade_step_incl _ _ _ Hstep).
    apply (after_content_closed input w vertex). assumption.
Qed.

(** ** The whole write *)

Lemma StartFile_run w :
  StartFile w = Ok (if fail (opened (Stream w)) then 0 else 1, checked (opened (Stream w)) w).
Proof.
  unfold StartFile, bind, on_stream, this, SetErrorCode, ret, checked, opened. simpl.
  destruct (fail _); reflexivity.
Qed.

Lemma EndFile_run w :
  EndFile w
  = Ok (if fail (flush (put_string (Stream w) phyloxml_close)) then 0 else 1,
        checked (flush (put_string (Stream w) phyloxml_close)) w).
Proof.
  unfold EndFile, bind, on_stream, this, SetErrorCode, ret, checked. simpl.
  destruct (fail _); reflexivity.
Qed.

Section WholeWrite.

Variable PrintXML : vtkXMLDataElement -> string.

Lemma WriteData_run fuel input w :
  WriteData PrintXML fuel input w
  = if fail (opened (Stream w))
    then Ok (0, checked (opened (Stream w)) (resolve input w))
    else
      root <~ tree_level_section input ;;
      match WriteCladeElement fuel input (GetRoot input) root (after_tree_level input w) with
      | Ok (root', w') =>
          Ok (1, checked (closed (Stream w') (PrintXML root')) w')
      | Fault f => Fault f
      | OutOfFuel => OutOfFuel
      end.
Proof.
  unfold WriteData. unfold bind at 1. unfold this at 1.
  unfold bind at 1. unfold set_arrays at 1. fold (resolve input w).
  unfold bind at 1. rewrite StartFile_run.
  change (Stream (resolve input w)) with (Stream w).
  destruct (fail (opened (Stream w))) eqn:Hfail; [reflexivity |].
  change (1 =? 0) with false. cbv iota.
  fold phylogeny_element. unfold tree_level_section, after_tree_level.
  set (w0 := checked (opened (Stream w)) (resolve input w)).
  unfold bind at 1. rewrite WriteTreeLevelElement_run.
  destruct (tree_level_element input phylogeny_element _ _) as [e1 | |]; try reflexivity.
  cbn [with_state rbind].
  unfold bind at 1. rewrite WriteTreeLevelElement_run.
  destruct (tree_level_element input e1 _ _) as [e2 | |]; try reflexivity.
  cbn [with_state rbind]. rewrite record_record.
  unfold bind at 1. rewrite WriteTreeLevelElement_run.
  destruct (tree_level_element input e2 _ _) as [e3 | |]; try reflexivity.
  cbn [with_state rbind]. rewrite record_record.
  unfold bind at 1. rewrite WriteTreeLevelProperties_run.
  destruct (properties_of _ 0 e3) as [e4 | |]; try reflexivity.
  cbn [with_state rbind]. rewrite record_record.
  unfold tree_level_names. rewrite <- !app_assoc. cbn [app].
  unfold bind at 1.
  destruct (WriteCladeElement fuel input (GetRoot input) e4 _) as [[root' w'] | |];
    try reflexivity.
  unfold bind at 1. unfold on_stream at 1.
  unfold bind at 1. rewrite EndFile_run. unfold ret, closed, checked. simpl.
  destruct (fail _); reflexivity.
Qed.

End WholeWrite.

Lemma ledger_names_split input w :
  ledger_names input w
  = tree_level_names input ++ fixed_names input (after_tree_level input w).
Proof. reflexivity. Qed.

Section WriteEffects.

Variable PrintXML : vtkXMLDataElement -> string.

(** What a write leaves in the writer. *)
Lemma WriteData_effect fuel input w r w' :
  WriteData PrintXML fuel input w = Ok (r, w') ->
  (exists names, Blacklist w' = Blacklist w ++ names)
  /\ (r = 1 -> incl (ledger_names input w) (Blacklist w'))
  /\ exists added,
       PropertyLog w' = PropertyLog w ++ added
       /\ forall c v, In (c, v) added ->
                      v = -1 \/ (0 <= v /\ ~ In (GetName c) (ledger_names input w)).
Proof.
  rewrite WriteData_run.
  destruct (fail (opened (Stream w))).
  - intros [= <- <-]. simpl. split; [| split].
    + exists []. rewrite app_nil_r. reflexivity.
    + discriminate.
    + exists []. rewrite app_nil_r. split; [reflexivity | intros c v []].
  - destruct (tree_level_section input) as [root | |]; try discriminate.
    cbn [rbind].
    destruct (WriteCladeElement fuel input (GetRoot input) root _)
      as [[root' wc] | |] eqn:Hclade; try discriminate.
    intros [= <- <-].
    apply WriteCladeElement_step in Hclade.
    destruct Hclade as [[_ (names & Hnames & _) (added & Hadded & Fadded)] Hclosed].
    change (Blacklist (checked _ wc)) with (Blacklist wc).
    change (PropertyLog (checked _ wc)) with (PropertyLog wc).
    change (Blacklist (after_tree_level input w))
      with (Blacklist w ++ tree_level_names input) in *.
    change (PropertyLog (after_tree_level input w))
      with (PropertyLog w ++ map (fun a => (a, -1)) (tree_level_arrays input)) in *.
    split; [| split].
    + exists (tree_level_names input ++ names). rewrite Hnames, app_assoc. reflexivity.
    + intros _ n Hn. rewrite ledger_names_split in Hn. apply in_app_iff in Hn.
      destruct Hn as [Hn | Hn].
      * rewrite Hnames, !in_app_iff. tauto.
      * apply Hclosed. assumption.
    + exists (map (fun a => (a, -1)) (tree_level_arrays input) ++ added). split.
      * rewrite Hadded, app_assoc. reflexivity.
      * intros c v Hin. apply in_app_iff in Hin. destruct Hin as [Hin | Hin].
        -- left. apply in_map_iff in Hin. destruct Hin as (a & [= _ <-] & _). reflexivity.
        -- right. rewrite Forall_forall in Fadded.
           destruct (Fadded _ Hin) as (Hv & Hb & Hf). simpl in Hv, Hb, Hf.
           split; [assumption |]. rewrite ledger_names_split, in_app_iff.
           rewrite in_app_iff in Hb. tauto.
Qed.


(** C9: when the edge-weight name resolves to an edge-scope column, a
    vertex column with the same name, the same object or another one, is
    never the source of a property element of a clade: the only property
    elements a write can make of it are tree-level ones (logged with the
    vertex -1), and after a complete write the name is in the ledger. *)
Theorem edge_weight_name_shadows_vertex_column fuel input w r w' e c :
  WriteData PrintXML fuel input w = Ok (r, w') ->
  GetAbstractArray (GetEdgeData input) (EdgeWeightArrayName w) = Some e ->
  GetName c = GetName e ->
  (r = 1 -> In (GetName c) (Blacklist w'))
  /\ exists added,
       PropertyLog w' = PropertyLog w ++ added
       /\ forall v, In (c, v) added -> v = -1.
Proof.
  intros Hrun He Hname.
  assert (Hin : In (GetName c) (ledger_names input w)).
  { unfold ledger_names. rewrite He, Hname, !in_app_iff. right. left. left. reflexivity. }
  destruct (WriteData_effect _ _ _ _ _ Hrun) as (_ & Hledger & added & Hadded & Hsources).
  split.
  - intros Hr. apply (Hledger Hr). assumption.
  - exists added. split; [assumption |].
    intros v Hv. destruct (Hsources _ _ Hv) as [Hm | [_ Hnot]]; [assumption | tauto].
Qed.

(** C6, as the code has it: the Emission Ledger is created empty when the writer is
    constructed and lives in the writer: a write starts from the ledger the
    writer holds, only adds names to it and leaves it in the writer for the
    next write. *)
Theorem ledger_kept_by_writer :
  (forall os, Blacklist (New os) = [])
  /\ (forall fuel input w r w',
         WriteData PrintXML fuel input w = Ok (r, w') ->
         exists names, Blacklist w' = Blacklist w ++ names)
  /\ (forall os w, Blacklist (SetStream os w) = Blacklist w).
Proof.
  split; [reflexivity | split; [| reflexivity]].
  intros fuel input w r w' Hrun. apply (WriteData_effect _ _ _ _ _ Hrun).
Qed.

End WriteEffects.

(** ** Two writers the clades cannot tell apart *)

Lemma LookupValue_ext (ledger1 ledger2 : list string) (value : string) :
  (forall n, In n ledger1 <-> In n ledger2) ->
  (LookupValue ledger1 value =? -1) = (LookupValue ledger2 value =? -1).
Proof.
  intros H.
  destruct (LookupValue ledger1 value =? -1) eqn:H1;
    destruct (LookupValue ledger2 value =? -1) eqn:H2; try reflexivity.
  - apply LookupValue_absent in H1. apply LookupValue_present in H2.
    exfalso. apply H1, H, H2.
  - apply LookupValue_present in H1. apply LookupValue_absent in H2.
    exfalso. apply H2, H, H1.
Qed.

Lemma selected_ext data ew nn (ledger1 ledger2 : list string) :
  (forall n, In n ledger1 <-> In n ledger2) ->
  selected data ew nn ledger1 = selected data ew nn ledger2.
Proof.
  intros H. unfold selected. apply filter_ext. intros a.
  rewrite (LookupValue_ext _ _ _ H). reflexivity.
Qed.

Lemma agree_refl input w : agree input w w.
Proof. unfold agree. repeat split; auto. Qed.

Lemma clade_content_agree input w1 w2 vertex :
  agree input w1 w2 -> clade_content input w1 vertex = clade_content input w2 vertex.
Proof.
  intros (Hew & Hnn & Hledger). unfold clade_content, clade_arrays.
  rewrite Hew, Hnn, (selected_ext _ _ _ _ _ Hledger). reflexivity.
Qed.

Lemma clade_ledger_after_content input w vertex n :
  In n (clade_ledger input (after_content input w vertex)) <-> In n (clade_ledger input w).
Proof.
  unfold clade_ledger at 1. rewrite closure_In.
  change (Blacklist (after_content input w vertex)) with (clade_ledger input w).
  change (fixed_names input (after_content input w vertex)) with (fixed_names input w).
  unfold clade_ledger. rewrite closure_In. tauto.
Qed.

Lemma after_content_agree input w1 w2 vertex :
  agree input w1 w2 ->
  agree input (after_content input w1 vertex) (after_content input w2 vertex).
Proof.
  intros (Hew & Hnn & Hledger). split; [exact Hew | split; [exact Hnn |]].
  intros n. rewrite !clade_ledger_after_content. apply Hledger.
Qed.

Lemma WriteCladeElement_agree fuel input :
  forall vertex parentElement w1 w2 p' w1',
    agree input w1 w2 ->
    WriteCladeElement fuel input vertex parentElement w1 = Ok (p', w1') ->
    exists w2',
      WriteCladeElement fuel input vertex parentElement w2 = Ok (p', w2')
      /\ agree input w1' w2'.
Proof.
  induction fuel as [| fuel IH]; intros vertex parentElement w1 w2 p' w1' Hagree H;
    apply WriteCladeElement_Ok in H;
    destruct H as (fuel' & c0 & kids & c & Hfuel & Hv & Hc0 & Hkids & Hloop & ->);
    [discriminate |].
  injection Hfuel as <-.
  assert (Hchildren : forall kids e wa wb e' wa',
             agree input wa wb ->
             for_each kids (fun child e => WriteCladeElement fuel input child e) e wa
             = Ok (e', wa') ->
             exists wb',
               for_each kids (fun child e => WriteCladeElement fuel input child e) e wb
               = Ok (e', wb')
               /\ agree input wa' wb').
  { clear - IH. induction kids as [| k rest IHk]; intros e wa wb e' wa' Hab H.
    - injection H as <- <-. exists wb. split; [reflexivity | assumption].
    - apply for_each_cons_Ok in H. destruct H as (e1 & wk & Hk & Hrest).
      destruct (IH _ _ _ _ _ _ Hab Hk) as (wk' & Hk' & Hagree').
      destruct (IHk _ _ _ _ _ Hagree' Hrest) as (wb' & Hrest' & Hfinal).
      exists wb'. split; [| assumption].
      cbn [for_each]. unfold bind at 1. rewrite Hk'. assumption. }
  destruct (Hchildren _ _ _ _ _ _ (after_content_agree _ _ _ vertex Hagree) Hloop)
    as (w2' & Hloop' & Hfinal).
  exists w2'. split; [| assumption].
  apply (WriteCladeElement_intro _ _ _ _ _ c0 kids); try assumption.
  rewrite <- (clade_content_agree _ _ _ _ Hagree). assumption.
Qed.

Section Rerun.

Variable PrintXML : vtkXMLDataElement -> string.

(** C8: a second write of the same tree by the same writer, its stream in
    the state it had before the first write, returns what the first write
    returned and sends the same characters to the stream.  The ledger the
    first write left in the writer changes nothing: the names it holds are
    those the second write puts there itself before the first generic scan. *)
Theorem rerun_writes_same_bytes fuel input w r w1 :
  WriteData PrintXML fuel input w = Ok (r, w1) ->
  exists w2,
    WriteData PrintXML fuel input (SetStream (Stream w) w1) = Ok (r, w2)
    /\ Written (Stream w2) = Written (Stream w1).
Proof.
  rewrite !WriteData_run.
  change (Stream (SetStream (Stream w) w1)) with (Stream w).
  destruct (fail (opened (Stream w))).
  - intros [= <- <-]. eexists. split; reflexivity.
  - destruct (tree_level_section input) as [root | |]; try discriminate.
    cbn [rbind].
    destruct (WriteCladeElement fuel input (GetRoot input) root (after_tree_level input w))
      as [[root' wc] | |] eqn:Hclade; try discriminate.
    intros [= <- <-].
    pose proof (WriteCladeElement_step _ _ _ _ _ _ _ Hclade) as [Hstep _].
    destruct Hstep as [Hsetup (names & Hnames & Fnames) _].
    destruct Hsetup as (Hewn & Hnnn & Hew & Hnn & _ & Hstream).
    set (w1 := checked (closed (Stream wc) (PrintXML root')) wc).
    assert (Hagree : agree input (after_tree_level input w)
                       (after_tree_level input (SetStream (Stream w) w1))).
    { split; [| split].
      - simpl. simpl in Hewn. rewrite Hewn. reflexivity.
      - simpl. simpl in Hnnn. rewrite Hnnn. reflexivity.
      - intros n. unfold clade_ledger. rewrite !closure_In.
        assert (Hfx : fixed_names input (after_tree_level input (SetStream (Stream w) w1))
                      = fixed_names input (after_tree_level input w)).
        { unfold fixed_names. simpl. simpl in Hewn, Hnnn. rewrite Hewn, Hnnn.
          reflexivity. }
        rewrite Hfx.
        change (Blacklist (after_tree_level input (SetStream (Stream w) w1)))
          with (Blacklist wc ++ tree_level_names input).
        rewrite Hnames.
        change (Blacklist (after_tree_level input w))
          with (Blacklist w ++ tree_level_names input).
        rewrite !in_app_iff. rewrite Forall_forall in Fnames.
        split; [tauto |]. intros [[[[H | H] | H] | H] | H]; try tauto.
        right. apply Fnames. assumption. }
    destruct (WriteCladeElement_agree _ _ _ _ _ _ _ _ Hagree Hclade)
      as (wc2 & Hclade2 & _).
    rewrite Hclade2.
    pose proof (WriteCladeElement_step _ _ _ _ _ _ _ Hclade2) as [[Hsetup2 _ _] _].
    destruct Hsetup2 as (_ & _ & _ & _ & _ & Hstream2).
    eexists. split; [reflexivity |].
    simpl. rewrite Hstream2, Hstream. reflexivity.
Qed.

End Rerun.

(** ** One clade for every vertex *)

Lemma rose_induction (P : rose -> Prop) :
  (forall v kids, Forall P kids -> P (Rose v kids)) -> forall sh, P sh.
Proof.
  intros Hnode. fix IH 1. intros [v kids]. apply Hnode.
  induction kids as [| k rest IHrest]; constructor; [apply IH | exact IHrest].
Qed.

Lemma Zlist_eqb_eq (xs ys : list Z) : Zlist_eqb xs ys = true -> xs = ys.
Proof.
  revert ys. induction xs as [| x xs IH]; intros [| y ys] H; simpl in H;
    try discriminate; [reflexivity |].
  apply andb_prop in H. destruct H as [Hxy Hrest].
  apply Z.eqb_eq in Hxy. subst y. f_equal. apply IH. assumption.
Qed.

Lemma height_child (kids : list rose) (k : rose) :
  In k kids -> (height k <= fold_right Nat.max 0 (map height kids))%nat.
Proof.
  induction kids as [| k' rest IH]; intros Hin; [contradiction |].
  simpl. destruct Hin as [-> | Hin]; [lia |]. specialize (IH Hin). lia.
Qed.

Lemma height_le_size : forall sh, (height sh <= size sh)%nat.
Proof.
  induction sh as [v kids IH] using rose_induction.
  unfold size. cbn [height vertices List.length]. apply le_n_S.
  induction kids as [| k rest IHrest]; simpl; [lia |].
  inversion IH as [| ? ? Hk Hrest]; subst.
  rewrite length_app. specialize (IHrest Hrest). unfold size in Hk. lia.
Qed.

(** Reading inside the buffers. *)

Lemma GetChildren_range input v kids :
  GetChildren input v = Ok kids -> 0 <= v < Z.of_nat (GetNumberOfVertices input).
Proof.
  intros H. pose proof (GetChildren_Ok _ _ _ H) as Hv.
  unfold GetChildren, GetOutEdges in H.
  destruct (v <? 0); [discriminate |].
  destruct (nth_error (Adjacency input) (Z.to_nat v)) as [es |] eqn:Hnth; [| discriminate].
  assert (Hlt : (Z.to_nat v < List.length (Adjacency input))%nat).
  { apply nth_error_Some. congruence. }
  unfold GetNumberOfVertices. lia.
Qed.

Lemma GetVariantValue_readable n a v :
  vertex_array_ok n a = true -> 0 <= v < Z.of_nat n ->
  exists value, GetVariantValue a v = Ok value.
Proof.
  unfold vertex_array_ok. intros H Hv.
  apply andb_prop in H. destruct H as [H _].
  apply andb_prop in H. destruct H as [Hc Hl].
  apply Nat.leb_le in Hc, Hl.
  unfold GetVariantValue.
  destruct (v <? 0) eqn:Hneg; [apply Z.ltb_lt in Hneg; lia |].
  destruct (nth_error (Values a) (Z.to_nat v)) as [value |] eqn:Hnth; [eauto |].
  apply nth_error_None in Hnth. exfalso. nia.
Qed.

Lemma GetComponent_readable n a v comp :
  vertex_array_ok n a = true -> 0 <= v < Z.of_nat n ->
  (comp < GetNumberOfComponents a)%nat ->
  exists value, GetComponent a v comp = Ok value.
Proof.
  unfold vertex_array_ok. intros H Hv Hcomp.
  apply andb_prop in H. destruct H as [H _].
  apply andb_prop in H. destruct H as [_ Hl].
  apply Nat.leb_le in Hl.
  unfold GetComponent.
  destruct (v <? 0) eqn:Hneg; [apply Z.ltb_lt in Hneg; lia |].
  apply Nat.ltb_lt in Hcomp. rewrite Hcomp. simpl. apply Nat.ltb_lt in Hcomp.
  destruct (nth_error (Values a) _) as [value |] eqn:Hnth; [eauto |].
  apply nth_error_None in Hnth. exfalso. nia.
Qed.

Lemma GetAbstractArray_In data name a :
  GetAbstractArray data name = Some a -> In a data.
Proof. intros H. apply find_some in H. tauto. Qed.

Lemma GetEdgeId_known input a b :
  GetEdgeId input a b = -1 \/ In (GetEdgeId input a b) (edge_ids input).
Proof.
  unfold GetEdgeId, GetOutEdges.
  destruct (a <? 0); [left; reflexivity |].
  destruct (nth_error (Adjacency input) (Z.to_nat a)) as [es |] eqn:Hnth;
    [| left; reflexivity].
  destruct (find _ es) as [e |] eqn:Hfind; [| left; reflexivity].
  right. unfold edge_ids. apply in_map. apply in_concat.
  exists es. split; [eapply nth_error_In; eassumption |].
  apply find_some in Hfind. tauto.
Qed.

(** The elements of the fixed steps and of the properties hold no clade. *)

Lemma keeps_refl e : keeps e e.
Proof. split; auto. Qed.

Lemma keeps_trans e1 e2 e3 : keeps e1 e2 -> keeps e2 e3 -> keeps e1 e3.
Proof. intros [H1 H1'] [H2 H2']. split; [congruence | auto]. Qed.

Lemma keeps_SetAttribute e n v : keeps e (SetAttribute e n v).
Proof. destruct e. split; auto. Qed.

Lemma keeps_AddNestedElement e c :
  count_elements "clade" c = 0%nat -> keeps e (AddNestedElement e c).
Proof.
  intros Hc. destruct e as [m a t k]. split; [reflexivity |].
  unfold no_clades. simpl. intros Hk. apply Forall_app. split; [assumption |].
  constructor; [assumption | constructor].
Qed.

Lemma branch_length_attribute_keeps input ew vertex e e' :
  branch_length_attribute input ew vertex e = Ok e' -> keeps e e'.
Proof.
  unfold branch_length_attribute. destruct ew as [a |].
  - destruct (GetParent input vertex) as [parent | |]; try discriminate. cbn [rbind].
    destruct (negb (parent =? -1)).
    + destruct (negb (GetEdgeId input parent vertex =? -1)).
      * destruct (GetVariantValue a _); try discriminate.
        intros [= <-]. apply keeps_SetAttribute.
      * intros [= <-]. apply keeps_refl.
    + intros [= <-]. apply keeps_refl.
  - intros [= <-]. apply keeps_refl.
Qed.

Lemma name_element_keeps nn vertex e e' :
  name_element nn vertex e = Ok e' -> keeps e e'.
Proof.
  unfold name_element. destruct nn as [a |].
  - destruct (GetVariantValue a vertex) as [value | |]; try discriminate.
    intros [= <-]. destruct (negb _); [| apply keeps_refl].
    apply keeps_AddNestedElement. reflexivity.
  - intros [= <-]. apply keeps_refl.
Qed.

Lemma confidence_element_keeps input vertex e e' :
  confidence_element input vertex e = Ok e' -> keeps e e'.
Proof.
  unfold confidence_element.
  destruct (GetAbstractArray (GetVertexData input) "confidence") as [a |].
  - destruct (GetVariantValue a vertex) as [value | |]; try discriminate.
    intros [= <-]. destruct (negb _); [| apply keeps_refl].
    apply keeps_AddNestedElement. destruct (negb _); reflexivity.
  - intros [= <-]. apply keeps_refl.
Qed.

Lemma color_element_keeps input vertex e e' :
  color_element input vertex e = Ok e' -> keeps e e'.
Proof.
  unfold color_element.
  destruct (vtkArrayDownCast_UnsignedChar _) as [a |].
  - destruct (GetComponent a vertex 0); try discriminate.
    destruct (GetComponent a vertex 1); try discriminate.
    destruct (GetComponent a vertex 2); try discriminate.
    intros [= <-]. apply keeps_AddNestedElement. reflexivity.
  - intros [= <-]. apply keeps_refl.
Qed.

Lemma property_element_no_clade array found value :
  count_elements "clade" (property_element array found value) = 0%nat.
Proof. unfold property_element. destruct (negb _); reflexivity. Qed.

Lemma properties_of_keeps arrays row :
  forall e e', properties_of arrays row e = Ok e' -> keeps e e'.
Proof.
  induction arrays as [| a rest IH]; intros e e'; cbn [properties_of].
  - intros [= <-]. apply keeps_refl.
  - unfold property_of.
    destruct (scan_keys _ _) as [found | |]; try discriminate. cbn [rbind].
    destruct (GetVariantValue a row) as [value | |]; try discriminate. cbn [rbind].
    intros H. eapply keeps_trans; [| apply (IH _ _ H)].
    apply keeps_AddNestedElement, property_element_no_clade.
Qed.

Lemma tree_level_element_keeps input e elementName attributeName e' :
  elementName <> "clade" ->
  tree_level_element input e elementName attributeName = Ok e' -> keeps e e'.
Proof.
  intros Hname. unfold tree_level_element.
  destruct (GetAbstractArray (GetVertexData input) _) as [a |].
  - cbv zeta. destruct (GetVariantValue a 0) as [value | |]; try discriminate.
    cbn [rbind]. intros [= <-]. apply keeps_AddNestedElement.
    apply String.eqb_neq in Hname.
    destruct (negb (String.eqb attributeName EmptyString));
      [destruct (negb _) |]; simpl; rewrite Hname; reflexivity.
  - intros [= <-]. apply keeps_refl.
Qed.

Lemma clade_content_head input w vertex c0 :
  clade_content input w vertex = Ok c0 ->
  ElementName c0 = "clade" /\ no_clades c0.
Proof.
  unfold clade_content, fixed_elements.
  destruct (branch_length_attribute _ _ _ _) as [e1 | |] eqn:H1; try discriminate.
  cbn [rbind].
  destruct (name_element _ _ e1) as [e2 | |] eqn:H2; try discriminate. cbn [rbind].
  destruct (confidence_element _ _ e2) as [e3 | |] eqn:H3; try discriminate. cbn [rbind].
  destruct (color_element _ _ e3) as [e4 | |] eqn:H4; try discriminate. cbn [rbind].
  intros H5.
  assert (Hkeeps : keeps (SetName NewElement "clade") c0).
  { eapply keeps_trans; [apply (branch_length_attribute_keeps _ _ _ _ _ H1) |].
    eapply keeps_trans; [apply (name_element_keeps _ _ _ _ H2) |].
    eapply keeps_trans; [apply (confidence_element_keeps _ _ _ _ H3) |].
    eapply keeps_trans; [apply (color_element_keeps _ _ _ _ H4) |].
    apply (properties_of_keeps _ _ _ _ H5). }
  destruct Hkeeps as [Hn Hk]. split; [exact Hn | apply Hk; constructor].
Qed.

Lemma tree_level_section_head input root :
  tree_level_section input = Ok root ->
  ElementName root = "phylogeny" /\ no_clades root.
Proof.
  unfold tree_level_section.
  destruct (tree_level_element input phylogeny_element _ _) as [e1 | |] eqn:H1;
    try discriminate. cbn [rbind].
  destruct (tree_level_element input e1 _ _) as [e2 | |] eqn:H2; try discriminate.
  cbn [rbind].
  destruct (tree_level_element input e2 _ _) as [e3 | |] eqn:H3; try discriminate.
  cbn [rbind]. intros H4.
  assert (Hkeeps : keeps phylogeny_element root).
  { eapply keeps_trans;
      [eapply tree_level_element_keeps; [| exact H1]; discriminate |].
    eapply keeps_trans;
      [eapply tree_level_element_keeps; [| exact H2]; discriminate |].
    eapply keeps_trans;
      [eapply tree_level_element_keeps; [| exact H3]; discriminate |].
    apply (properties_of_keeps _ _ _ _ H4). }
  destruct Hkeeps as [Hn Hk]. split; [exact Hn | apply Hk; constructor].
Qed.

(** Counting clades and reading their nesting. *)

Lemma count_AddNestedElement n e c :
  count_elements n (AddNestedElement e c)
  = (count_elements n e + count_elements n c)%nat.
Proof.
  destruct e as [m a t k]. simpl.
  rewrite map_app, list_sum_app. simpl. lia.
Qed.

Lemma clade_forest_AddNestedElement e c :
  ElementName c = "clade" ->
  clade_forest (AddNestedElement e c) = clade_forest e ++ [Shape (clade_forest c)].
Proof.
  intros Hc. destruct e as [m a t k]. simpl.
  rewrite flat_map_app. simpl. rewrite Hc. reflexivity.
Qed.

Lemma no_clades_count n e :
  n = "clade" -> no_clades e ->
  count_elements n e = if String.eqb (ElementName e) n then 1%nat else 0%nat.
Proof.
  intros -> H. destruct e as [m a t k]. unfold no_clades in H. simpl in *.
  assert (Hsum : list_sum (map (count_elements "clade") k) = 0%nat).
  { induction H as [| c rest Hc Hrest IH]; simpl; [reflexivity | lia]. }
  rewrite Hsum. lia.
Qed.

Lemma no_clades_forest e : no_clades e -> clade_forest e = [].
Proof.
  destruct e as [m a t k]. unfold no_clades. simpl.
  induction 1 as [| c rest Hc Hrest IH]; simpl; [reflexivity |].
  rewrite IH. destruct c as [m' a' t' k']. simpl in *.
  destruct (String.eqb m' "clade"); [simpl in Hc; lia | reflexivity].
Qed.

(** Nothing faults on a readable tree. *)

Lemma vertex_array_ok_keys n a :
  vertex_array_ok n a = true -> string_keys_only (GetInformation a) = true.
Proof. unfold vertex_array_ok. intros H. apply andb_prop in H. tauto. Qed.

Lemma properties_of_readable n arrays row :
  (forall a, In a arrays -> vertex_array_ok n a = true) ->
  0 <= row < Z.of_nat n ->
  forall e, exists e', properties_of arrays row e = Ok e'.
Proof.
  intros Hok Hrow. induction arrays as [| a rest IH]; intros e; cbn [properties_of].
  - eauto.
  - assert (Ha : vertex_array_ok n a = true) by (apply Hok; left; reflexivity).
    unfold property_of.
    destruct (scan_keys_ok _ no_attributes (vertex_array_ok_keys _ _ Ha)) as [found ->].
    destruct (GetVariantValue_readable _ _ _ Ha Hrow) as [value ->].
    cbn [rbind]. apply IH. intros a' Hin. apply Hok. right. assumption.
Qed.

Lemma GetParent_readable input v kids :
  GetChildren input v = Ok kids -> exists parent, GetParent input v = Ok parent.
Proof.
  unfold GetChildren, GetParent. destruct (GetOutEdges input v); try discriminate.
  eauto.
Qed.

Lemma branch_length_attribute_readable input ew v kids e :
  edge_array_ok input ew = true ->
  GetChildren input v = Ok kids ->
  exists e', branch_length_attribute input ew v e = Ok e'.
Proof.
  intros Hok Hkids. unfold branch_length_attribute. destruct ew as [a |]; [| eauto].
  destruct (GetParent_readable _ _ _ Hkids) as [parent ->]. cbn [rbind].
  destruct (negb (parent =? -1)); [| eauto].
  destruct (GetEdgeId input parent v =? -1) eqn:Hedge; cbn [negb]; [eauto |].
  apply Z.eqb_neq in Hedge.
  destruct (GetEdgeId_known input parent v) as [Hnone | Hin]; [contradiction |].
  simpl in Hok. rewrite forallb_forall in Hok. specialize (Hok _ Hin).
  apply andb_prop in Hok. destruct Hok as [Hlo Hhi].
  apply Z.leb_le in Hlo. apply Z.ltb_lt in Hhi.
  unfold GetVariantValue.
  destruct (GetEdgeId input parent v <? 0) eqn:Hneg; [apply Z.ltb_lt in Hneg; lia |].
  destruct (nth_error (Values a) _) as [value |] eqn:Hnth; [cbn [rbind]; eauto |].
  apply nth_error_None in Hnth. exfalso. lia.
Qed.

Lemma vertex_arrays_ok input w a :
  clade_readable input w = true -> In a (GetVertexData input) ->
  vertex_array_ok (GetNumberOfVertices input) a = true.
Proof.
  unfold clade_readable. intros H Hin.
  repeat (apply andb_prop in H; destruct H as [H ?]).
  rewrite forallb_forall in H. apply H. assumption.
Qed.

Lemma color_element_readable input w v e :
  clade_readable input w = true ->
  0 <= v < Z.of_nat (GetNumberOfVertices input) ->
  exists e', color_element input v e = Ok e'.
Proof.
  intros Hok Hv. unfold color_element.
  assert (Hcolor : color_array_ok input = true).
  { unfold clade_readable in Hok. repeat (apply andb_prop in Hok; destruct Hok as [Hok ?]).
    assumption. }
  unfold color_array_ok in Hcolor.
  destruct (vtkArrayDownCast_UnsignedChar _) as [a |] eqn:Hcast; [| eauto].
  assert (Hin : In a (GetVertexData input)).
  { unfold vtkArrayDownCast_UnsignedChar in Hcast.
    destruct (GetAbstractArray _ "color") as [a' |] eqn:Hget; [| discriminate].
    destruct (vtkArrayClass_eqb _ _); [| discriminate].
    injection Hcast as <-. apply (GetAbstractArray_In _ _ _ Hget). }
  pose proof (vertex_arrays_ok _ _ _ Hok Hin) as Ha.
  apply Nat.leb_le in Hcolor.
  destruct (GetComponent_readable _ a v 0 Ha Hv ltac:(lia)) as [r ->].
  destruct (GetComponent_readable _ a v 1 Ha Hv ltac:(lia)) as [g ->].
  destruct (GetComponent_readable _ a v 2 Ha Hv ltac:(lia)) as [b ->].
  cbn [rbind]. eauto.
Qed.

Lemma selected_incl data ew nn ledger a : In a (selected data ew nn ledger) -> In a data.
Proof. unfold selected. rewrite filter_In. tauto. Qed.

Lemma clade_content_readable input w v kids :
  clade_readable input w = true ->
  GetChildren input v = Ok kids ->
  exists c0, clade_content input w v = Ok c0.
Proof.
  intros Hok Hkids. pose proof (GetChildren_range _ _ _ Hkids) as Hv.
  pose proof Hok as Hparts. unfold clade_readable in Hparts.
  apply andb_prop in Hparts. destruct Hparts as [Hparts Hnode].
  apply andb_prop in Hparts. destruct Hparts as [_ Hedge].
  unfold clade_content, fixed_elements.
  destruct (branch_length_attribute_readable input _ v kids (SetName NewElement "clade")
              Hedge Hkids) as [e1 ->]. cbn [rbind].
  assert (Hname : exists e2, name_element (NodeNameArray w) v e1 = Ok e2).
  { unfold name_element. destruct (NodeNameArray w) as [a |]; [| eauto].
    destruct (GetVariantValue_readable _ a v Hnode Hv) as [value ->].
    cbn [rbind]. eauto. }
  destruct Hname as [e2 ->]. cbn [rbind].
  assert (Hconf : exists e3, confidence_element input v e2 = Ok e3).
  { unfold confidence_element.
    destruct (GetAbstractArray (GetVertexData input) "confidence") as [a |] eqn:Hget;
      [| eauto].
    pose proof (vertex_arrays_ok _ _ _ Hok (GetAbstractArray_In _ _ _ Hget)) as Ha.
    destruct (GetVariantValue_readable _ a v Ha Hv) as [value ->].
    cbn [rbind]. eauto. }
  destruct Hconf as [e3 ->]. cbn [rbind].
  destruct (color_element_readable input w v e3 Hok Hv) as [e4 ->]. cbn [rbind].
  apply (properties_of_readable (GetNumberOfVertices input)); [| assumption].
  intros a Ha. apply (vertex_arrays_ok _ _ _ Hok).
  apply (selected_incl _ _ _ _ _ Ha).
Qed.

Lemma tree_level_section_readable input w :
  clade_readable input w = true ->
  (0 < GetNumberOfVertices input)%nat ->
  exists root, tree_level_section input = Ok root.
Proof.
  intros Hok Hn.
  assert (Hrow : 0 <= 0 < Z.of_nat (GetNumberOfVertices input)) by lia.
  assert (Helement : forall e elementName attributeName,
             exists e', tree_level_element input e elementName attributeName = Ok e').
  { intros e elementName attributeName. unfold tree_level_element.
    destruct (GetAbstractArray (GetVertexData input) _) as [a |] eqn:Hget; [| eauto].
    pose proof (vertex_arrays_ok _ _ _ Hok (GetAbstractArray_In _ _ _ Hget)) as Ha.
    cbv zeta. destruct (GetVariantValue_readable _ a 0 Ha Hrow) as [value ->].
    cbn [rbind]. eauto. }
  unfold tree_level_section.
  destruct (Helement phylogeny_element "name" EmptyString) as [e1 ->]. cbn [rbind].
  destruct (Helement e1 "description" EmptyString) as [e2 ->]. cbn [rbind].
  destruct (Helement e2 "confidence" "type") as [e3 ->]. cbn [rbind].
  apply (properties_of_readable (GetNumberOfVertices input)); [| assumption].
  intros a Ha. apply (vertex_arrays_ok _ _ _ Hok).
  unfold tree_level_arrays in Ha. apply filter_In in Ha. tauto.
Qed.

Lemma clade_readable_setup input w w' :
  same_setup w w' -> clade_readable input w = true -> clade_readable input w' = true.
Proof.
  intros (_ & _ & Hew & Hnn & _). unfold clade_readable. rewrite Hew, Hnn. auto.
Qed.

Lemma after_content_setup input w vertex : same_setup w (after_content input w vertex).
Proof. unfold same_setup. simpl. tauto. Qed.

Lemma agree_sym input w1 w2 : agree input w1 w2 -> agree input w2 w1.
Proof.
  intros (Hew & Hnn & Hledger). split; [auto | split; [auto |]].
  intros n. symmetry. apply Hledger.
Qed.

Lemma agree_trans input w1 w2 w3 :
  agree input w1 w2 -> agree input w2 w3 -> agree input w1 w3.
Proof.
  intros (Hew & Hnn & Hledger) (Hew' & Hnn' & Hledger').
  split; [congruence | split; [congruence |]].
  intros n. rewrite Hledger. apply Hledger'.
Qed.

Lemma clade_step_agree input w w' : clade_step input w w' -> agree input w w'.
Proof.
  intros [Hsetup (names & Hnames & Fnames) _].
  pose proof (fixed_names_setup input _ _ Hsetup) as Hfx.
  destruct Hsetup as (_ & _ & Hew & Hnn & _).
  split; [auto | split; [auto |]].
  intros n. unfold clade_ledger. rewrite !closure_In, Hfx, Hnames, in_app_iff.
  rewrite Forall_forall in Fnames. split; [tauto |].
  intros [[H | H] | H]; auto.
Qed.

Lemma mirrored_clade_agree input w1 w2 :
  agree input w1 w2 ->
  forall sh, mirrored_clade input w1 sh = mirrored_clade input w2 sh.
Proof.
  intros Hagree. induction sh as [v kids IH] using rose_induction.
  cbn [mirrored_clade]. unfold own_content.
  rewrite (clade_content_agree _ _ _ v Hagree). f_equal.
  induction IH as [| k rest Hk Hrest IHrest]; simpl; [reflexivity |].
  rewrite Hk, IHrest. reflexivity.
Qed.

(** The recursion over a readable tree returns, with one clade for each
    vertex below the root, nested as the tree is and created vertex by
    vertex in depth-first order. *)
Lemma WriteCladeElement_total input :
  forall sh,
    unfolds input sh = true ->
    forall fuel parentElement w,
      (height sh <= fuel)%nat ->
      clade_readable input w = true ->
      exists w',
        WriteCladeElement fuel input (rose_root sh) parentElement w
        = Ok (AddNestedElement parentElement (mirrored_clade input w sh), w')
        /\ ElementName (mirrored_clade input w sh) = "clade"
        /\ count_elements "clade" (mirrored_clade input w sh) = size sh
        /\ Shape (clade_forest (mirrored_clade input w sh)) = shape_of sh
        /\ CladeLog w' = CladeLog w ++ vertices sh
        /\ clade_step input w w'.
Proof.
  induction sh as [v kids IH] using rose_induction.
  intros Hunf fuel parentElement w Hfuel Hok.
  cbn [unfolds] in Hunf.
  destruct (GetChildren input v) as [children | |] eqn:Hkids; try discriminate.
  apply andb_prop in Hunf. destruct Hunf as [Hsame Hsub].
  apply Zlist_eqb_eq in Hsame. subst children.
  destruct fuel as [| fuel']; [cbn [height] in Hfuel; lia |].
  cbn [height] in Hfuel. apply le_S_n in Hfuel.
  assert (Hheights : forall k, In k kids -> (height k <= fuel')%nat).
  { intros k Hin. pose proof (height_child _ _ Hin). lia. }
  clear Hfuel.
  destruct (clade_content_readable _ _ _ _ Hok Hkids) as [c0 Hc0].
  destruct (clade_content_head _ _ _ _ Hc0) as [Hname0 Hfree0].
  pose proof (GetChildren_Ok _ _ _ Hkids) as Hv.
  assert (Hloop : forall e w1,
             clade_readable input w1 = true ->
             agree input w w1 ->
             exists w2,
               for_each (map rose_root kids)
                 (fun child e => WriteCladeElement fuel' input child e) e w1
               = Ok (fold_left AddNestedElement (map (mirrored_clade input w) kids) e, w2)
               /\ ElementName (fold_left AddNestedElement
                                 (map (mirrored_clade input w) kids) e)
                  = ElementName e
               /\ count_elements "clade"
                    (fold_left AddNestedElement (map (mirrored_clade input w) kids) e)
                  = (count_elements "clade" e + List.length (flat_map vertices kids))%nat
               /\ clade_forest
                    (fold_left AddNestedElement (map (mirrored_clade input w) kids) e)
                  = clade_forest e ++ map shape_of kids
               /\ CladeLog w2 = CladeLog w1 ++ flat_map vertices kids
               /\ clade_step input w1 w2).
  { clear Hkids Hc0 Hname0 Hfree0 c0 Hok Hv.
    induction kids as [| k rest IHrest]; intros e w1 Hok1 Hagree.
    - exists w1. cbn [map for_each flat_map List.length fold_left]. unfold ret.
      rewrite !app_nil_r, Nat.add_0_r.
      refine (conj _ (conj _ (conj _ (conj _ (conj _ _))))); try reflexivity.
      apply clade_step_refl.
    - inversion IH as [| ? ? IHk IHtail]; subst.
      cbn [forallb] in Hsub. apply andb_prop in Hsub. destruct Hsub as [Hk Hrest].
      destruct (IHk Hk fuel' e w1 (Hheights k (or_introl eq_refl)) Hok1)
        as (wk & Hrun & Hcname & Hccount & Hcshape & Hclog & Hcstep).
      rewrite <- (mirrored_clade_agree _ _ _ Hagree k) in Hrun, Hcname, Hccount, Hcshape.
      destruct (IHrest IHtail Hrest (fun k' Hin => Hheights k' (or_intror Hin))
                  (AddNestedElement e (mirrored_clade input w k)) wk
                  (clade_readable_setup _ _ _ (step_setup _ _ _ Hcstep) Hok1)
                  (agree_trans _ _ _ _ Hagree (clade_step_agree _ _ _ Hcstep)))
        as (w2 & Hrun' & Hname' & Hcount' & Hforest' & Hlog' & Hstep').
      exists w2. cbn [map for_each fold_left]. unfold bind at 1. rewrite Hrun.
      refine (conj _ (conj _ (conj _ (conj _ (conj _ _))))).
      + exact Hrun'.
      + rewrite Hname'. destruct e; reflexivity.
      + rewrite Hcount', count_AddNestedElement, Hccount.
        cbn [flat_map]. rewrite length_app. unfold size. lia.
      + rewrite Hforest', (clade_forest_AddNestedElement _ _ Hcname), Hcshape.
        rewrite <- app_assoc. reflexivity.
      + rewrite Hlog', Hclog. cbn [flat_map]. rewrite app_assoc. reflexivity.
      + eapply clade_step_trans; eassumption. }
  pose proof (after_content_step input w v Hv) as Hstep0.
  destruct (Hloop c0 (after_content input w v)
              (clade_readable_setup _ _ _ (after_content_setup input w v) Hok)
              (clade_step_agree _ _ _ Hstep0))
    as (w' & Hrun & Hname & Hcount & Hforest & Hlog & Hstep).
  assert (Hown : own_content input w v = c0) by (unfold own_content; rewrite Hc0; reflexivity).
  cbn [mirrored_clade rose_root]. rewrite Hown.
  exists w'. refine (conj _ (conj _ (conj _ (conj _ (conj _ _))))).
  - apply (WriteCladeElement_intro _ _ _ _ _ c0 (map rose_root kids)); assumption.
  - congruence.
  - rewrite Hcount, (no_clades_count _ _ eq_refl Hfree0), Hname0. reflexivity.
  - rewrite Hforest, (no_clades_forest _ Hfree0). reflexivity.
  - rewrite Hlog. cbn [vertices]. unfold after_content. simpl.
    rewrite <- app_assoc. reflexivity.
  - eapply clade_step_trans; eassumption.
Qed.

Lemma append_assoc (a b c : string) : ((a ++ b) ++ c)%string = (a ++ b ++ c)%string.
Proof. induction a as [| x a IH]; simpl; [reflexivity | rewrite IH; reflexivity]. Qed.

Lemma Written_flush os : Written (flush os) = Written os.
Proof. unfold flush. destruct (Device os); reflexivity. Qed.

Lemma Written_put_string os s :
  FailBit os = false -> Written (put_string os s) = (Written os ++ s)%string.
Proof. unfold put_string. intros ->. reflexivity. Qed.

Lemma FailBit_put_string os s : FailBit (put_string os s) = FailBit os.
Proof. unfold put_string. destruct (FailBit os) eqn:H; [assumption | reflexivity]. Qed.

Lemma opened_ok os :
  opens os = true ->
  FailBit (opened os) = false
  /\ Written (opened os) = (Written os ++ phyloxml_open ++ newline)%string.
Proof.
  unfold opens. intros H.
  apply andb_prop in H. destruct H as [H H1].
  apply andb_prop in H. destruct H as [Hfail H0].
  apply negb_true_iff in Hfail.
  split.
  - unfold opened, endl, flush, put_string. rewrite Hfail. simpl.
    destruct (Device os) as [| a [| b rest]]; simpl in *; subst; reflexivity.
  - unfold opened, endl. rewrite !Written_flush.
    rewrite Written_put_string by (rewrite FailBit_put_string; assumption).
    rewrite Written_put_string by assumption.
    apply append_assoc.
Qed.

Lemma is_tree_parts input sh :
  is_tree input sh = true ->
  rose_root sh = GetRoot input
  /\ unfolds input sh = true
  /\ size sh = GetNumberOfVertices input.
Proof.
  unfold is_tree. intros H.
  apply andb_prop in H. destruct H as [H _].
  apply andb_prop in H. destruct H as [H Hsize].
  apply andb_prop in H. destruct H as [Hroot Hunf].
  apply Z.eqb_eq in Hroot. apply Nat.eqb_eq in Hsize. tauto.
Qed.

Lemma readable_after_tree_level input w :
  readable input w = true -> clade_readable input (after_tree_level input w) = true.
Proof.
  unfold readable, clade_readable. intros H.
  apply andb_prop in H. destruct H as [H Hedge].
  apply andb_prop in H. destruct H as [Hdata Hcolor].
  rewrite Hdata, Hcolor. simpl. rewrite Hedge. simpl.
  destruct (GetAbstractArray (GetVertexData input) (NodeNameArrayName w)) as [a |] eqn:Hget;
    [| reflexivity].
  simpl. rewrite forallb_forall in Hdata. apply Hdata.
  apply (GetAbstractArray_In _ _ _ Hget).
Qed.

Section Clades.

Variable PrintXML : vtkXMLDataElement -> string.

(** C1: for every input tree whose arrays can be read (each vertex array
    has a row for each vertex and string keys only, the color array three
    components, the edge-weight array a row for each edge) and a stream that
    takes the opening of the document, the write returns 1 and sends the
    rendering of a phylogeny element between the opening and the closing of
    the document.  That element holds exactly as many clade elements as the
    tree has vertices; the clade elements nest as the vertices of the tree
    do, the children of a vertex in the order the tree reports them; the
    clades were created one vertex after the other, depth first, a vertex
    before its children; and the clade of the root, the last element of the
    phylogeny, is the mirrored clade of the tree: at every vertex the
    vertex's own content followed by the clades of its children in order. *)
Theorem one_clade_per_vertex fuel input sh w :
  is_tree input sh = true ->
  readable input w = true ->
  opens (Stream w) = true ->
  (height sh <= fuel)%nat ->
  exists document w',
    WriteData PrintXML fuel input w = Ok (1, w')
    /\ Written (Stream w')
       = (Written (Stream w) ++ phyloxml_open ++ newline
          ++ PrintXML document ++ phyloxml_close)%string
    /\ ElementName document = "phylogeny"
    /\ count_elements "clade" document = GetNumberOfVertices input
    /\ clade_forest document = [shape_of sh]
    /\ CladeLog w' = CladeLog w ++ vertices sh
    /\ exists root,
         tree_level_section input = Ok root
         /\ document
            = AddNestedElement root (mirrored_clade input (after_tree_level input w) sh).
Proof.
  intros Htree Hread Hopens Hfuel.
  destruct (is_tree_parts _ _ Htree) as (Hroot & Hunf & Hsize).
  destruct (opened_ok _ Hopens) as [Hfail Hwritten].
  pose proof (readable_after_tree_level _ _ Hread) as Hok.
  assert (Hpos : (0 < GetNumberOfVertices input)%nat).
  { rewrite <- Hsize. destruct sh. unfold size. simpl. lia. }
  destruct (tree_level_section_readable _ _ Hok Hpos) as [root Hsection].
  destruct (tree_level_section_head _ _ Hsection) as [Hrootname Hrootfree].
  destruct (WriteCladeElement_total input sh Hunf fuel root (after_tree_level input w)
              Hfuel Hok)
    as (wc & Hrun & Hcname & Hccount & Hcshape & Hclog & Hstep).
  rewrite Hroot in Hrun.
  set (c := mirrored_clade input (after_tree_level input w) sh) in *.
  destruct (step_setup _ _ _ Hstep) as (_ & _ & _ & _ & _ & Hstream).
  change (Stream (after_tree_level input w)) with (opened (Stream w)) in Hstream.
  exists (AddNestedElement root c),
    (checked (closed (Stream wc) (PrintXML (AddNestedElement root c))) wc).
  refine (conj _ (conj _ (conj _ (conj _ (conj _ (conj _ _)))))).
  - rewrite WriteData_run. unfold fail. rewrite Hfail, Hsection. cbn [rbind].
    rewrite Hrun. reflexivity.
  - cbn [checked Stream]. unfold closed. rewrite Written_flush, Hstream.
    rewrite Written_put_string by (rewrite FailBit_put_string; assumption).
    rewrite Written_put_string by assumption.
    rewrite Hwritten, !append_assoc. reflexivity.
  - rewrite <- Hrootname. destruct root; reflexivity.
  - rewrite count_AddNestedElement, Hccount, Hsize.
    rewrite (no_clades_count _ _ eq_refl Hrootfree), Hrootname. reflexivity.
  - rewrite (clade_forest_AddNestedElement _ _ Hcname), Hcshape.
    rewrite (no_clades_forest _ Hrootfree). reflexivity.
  - cbn [checked CladeLog]. rewrite Hclog. reflexivity.
  - exists root. split; [assumption | reflexivity].
Qed.

End Clades.

(** * The theorems at work on the example inputs *)

Lemma datatype_total_witness : datatype "vtkObject" = "xsd:string".
Proof.
  apply (proj1 (proj2 (proj2 (proj2 (proj2 (proj2 (proj2 (proj2 (proj2 (proj2
           datatype_total)))))))))).
  unfold recognised_types. simpl.
  intros H. repeat (destruct H as [H | H]; [discriminate H |]). exact H.
Defined.

Lemma metadata_scan_precondition_witness :
  WritePropertyElement keyed 0 NewElement (New good_stream) = Fault NullPointer
  /\ GetArrayAttribute keyed "type" = EmptyString.
Proof.
  split.
  - apply (proj1 metadata_scan_precondition). reflexivity.
  - apply (proj2 (proj2 metadata_scan_precondition)).
    intros e [<- | []] _. reflexivity.
Defined.

Lemma one_clade_per_vertex_witness :
  exists document w',
    WriteData render 3%nat root_and_two_leaves (New good_stream) = Ok (1, w')
    /\ Written (Stream w')
       = (Written (Stream (New good_stream)) ++ phyloxml_open ++ newline
          ++ render document ++ phyloxml_close)%string
    /\ ElementName document = "phylogeny"
    /\ count_elements "clade" document = GetNumberOfVertices root_and_two_leaves
    /\ clade_forest document = [shape_of root_and_two_leaves_rose]
    /\ CladeLog w' = CladeLog (New good_stream) ++ vertices root_and_two_leaves_rose
    /\ exists root,
         tree_level_section root_and_two_leaves = Ok root
         /\ document
            = AddNestedElement root
                (mirrored_clade root_and_two_leaves
                   (after_tree_level root_and_two_leaves (New good_stream))
                   root_and_two_leaves_rose).
Proof.
  apply (one_clade_per_vertex render 3%nat root_and_two_leaves root_and_two_leaves_rose
           (New good_stream)); try reflexivity.
  apply Nat.leb_le. reflexivity.
Defined.


Lemma edge_weight_name_shadows_vertex_column_witness :
  exists w',
    WriteData render 3%nat root_and_two_leaves (New good_stream) = Ok (1, w')
    /\ (1 = 1 -> In (GetName vertex_weights) (Blacklist w'))
    /\ exists added,
         PropertyLog w' = PropertyLog (New good_stream) ++ added
         /\ forall v, In (vertex_weights, v) added -> v = -1.
Proof.
  eexists. split; [lazy; reflexivity |].
  apply (edge_weight_name_shadows_vertex_column render 3%nat root_and_two_leaves
           (New good_stream) 1 _ edge_weights vertex_weights).
  - lazy. reflexivity.
  - reflexivity.
  - reflexivity.
Defined.

Lemma ledger_kept_by_writer_witness :
  exists w',
    WriteData render 3%nat root_and_two_leaves (New good_stream) = Ok (1, w')
    /\ exists names, Blacklist w' = Blacklist (New good_stream) ++ names.
Proof.
  eexists. split; [lazy; reflexivity |].
  apply (proj1 (proj2 (ledger_kept_by_writer render)) 3%nat root_and_two_leaves
           (New good_stream) 1).
  lazy. reflexivity.
Defined.

Lemma rerun_writes_same_bytes_witness :
  exists w1,
    WriteData render 3%nat root_and_two_leaves (New good_stream) = Ok (1, w1)
    /\ exists w2,
         WriteData render 3%nat root_and_two_leaves (SetStream (Stream (New good_stream)) w1)
         = Ok (1, w2)
         /\ Written (Stream w2) = Written (Stream w1).
Proof.
  eexists. split; [lazy; reflexivity |].
  apply (rerun_writes_same_bytes render 3%nat root_and_two_leaves (New good_stream) 1).
  lazy. reflexivity.
Defined.

(** * Where the specification and the code part *)


(** C6, as stated, fails: the ledger of the first write is still in the
    writer when the second write starts.  Here the node-name column of the
    first write is an ordinary column for the second write, which a fresh
    writer turns into a property element and the reused writer leaves out. *)
Lemma stale_ledger_hides_column :
  exists w1 w2 fresh_w2,
    WriteData render 1%nat (single_vertex [vertex_name; vertex_label]) (New good_stream)
    = Ok (1, w1)
    /\ Blacklist w1 = ["node name"]
    /\ WriteData render 1%nat (single_vertex [vertex_name; vertex_label])
         (SetNodeNameArrayName "label" (SetStream good_stream w1)) = Ok (1, w2)
    /\ WriteData render 1%nat (single_vertex [vertex_name; vertex_label])
         (SetNodeNameArrayName "label" (New good_stream)) = Ok (1, fresh_w2)
    /\ PropertyLog fresh_w2 = [(vertex_name, 0)]
    /\ PropertyLog w2 = PropertyLog w1
    /\ String.eqb (Written (Stream w2)) (Written (Stream fresh_w2)) = false.
Proof.
  eexists. eexists. eexists.
  split; [lazy; reflexivity |].
  split; [reflexivity |].
  split; [lazy; reflexivity |].
  split; [lazy; reflexivity |].
  split; [reflexivity |].
  split; [reflexivity | vm_compute; reflexivity].
Qed.

(** * Two scenarios of the specification, run on the embedding *)

(** The root has no branch length, the leaves have the weights of their
    edges and their names; the tree-level name is written once, above the
    clades; the vertex column that shares the name of the edge weights and
    the tree-level column are not written as properties. *)
Example root_and_two_leaves_document :
  exists w',
    WriteData render 3%nat root_and_two_leaves (New good_stream) = Ok (1, w')
    /\ Blacklist w' = ["phylogeny.name"; "weight"; "node name"]
    /\ map (fun cv => (GetName (fst cv), snd cv)) (PropertyLog w')
       = [("property.habitat", 0); ("property.habitat", 1); ("property.habitat", 2)]
    /\ Written (Stream w')
       = (phyloxml_open ++ newline
          ++ render
               (XMLDataElement "phylogeny" [("rooted", "true")] EmptyString
                  [XMLDataElement "name" [] "Primate phylogeny" [];
                   XMLDataElement "clade" [] EmptyString
                     [XMLDataElement "name" [] "root" [];
                      XMLDataElement "property"
                        [("datatype", "xsd:string"); ("ref", "NCBI:habitat");
                         ("applies_to", "clade"); ("unit", "biome")] "sea" [];
                      XMLDataElement "clade" [("branch_length", "1.5")] EmptyString
                        [XMLDataElement "name" [] "leafA" [];
                         XMLDataElement "property"
                           [("datatype", "xsd:string"); ("ref", "NCBI:habitat");
                            ("applies_to", "clade"); ("unit", "biome")] "shore" []];
                      XMLDataElement "clade" [("branch_length", "2.25")] EmptyString
                        [XMLDataElement "name" [] "leafB" [];
                         XMLDataElement "property"
                           [("datatype", "xsd:string"); ("ref", "NCBI:habitat");
                            ("applies_to", "clade"); ("unit", "biome")] "forest" []]]])
          ++ phyloxml_close)%string.
Proof.
  eexists. split; [lazy; reflexivity |].
  split; [reflexivity | split; [reflexivity |]].
  vm_compute. reflexivity.
Qed.

(** An edge-weight name that matches no edge column: no branch length
    anywhere and no name forced into the ledger; the vertex column called
    weight is then an ordinary column. *)
Example unresolved_edge_weight_name :
  exists w',
    WriteData render 3%nat root_and_two_leaves
      (SetEdgeWeightArrayName "length" (New good_stream)) = Ok (1, w')
    /\ EdgeWeightArray w' = None
    /\ Blacklist w' = ["phylogeny.name"; "node name"]
    /\ map (fun cv => (GetName (fst cv), snd cv)) (PropertyLog w')
       = [("property.habitat", 0); ("weight", 0);
          ("property.habitat", 1); ("weight", 1);
          ("property.habitat", 2); ("weight", 2)].
Proof.
  eexists. split; [lazy; reflexivity |].
  split; [reflexivity | split; reflexivity].
Qed.

(** * Further properties of the writer *)

(** ** What a write leaves in the ledger, exactly *)

Lemma clade_ledger_closed input w :
  incl (fixed_names input w) (Blacklist w) -> clade_ledger input w = Blacklist w.
Proof.
  intros H. unfold clade_ledger. rewrite (fresh_closed _ _ H). apply app_nil_r.
Qed.

(** The clades below a vertex add to the ledger what the fixed steps of
    the first of them add, and nothing more. *)
Lemma WriteCladeElement_ledger fuel input :
  forall vertex parentElement w p' w',
    WriteCladeElement fuel input vertex parentElement w = Ok (p', w') ->
    Blacklist w' = clade_ledger input w.
Proof.
  induction fuel as [| fuel IH]; intros vertex parentElement w p' w' H;
    apply WriteCladeElement_Ok in H;
    destruct H as (fuel' & c0 & kids & c & Hfuel & Hv & Hc0 & Hkids & Hloop & ->);
    [discriminate |].
  injection Hfuel as <-.
  assert (Hchildren : forall kids e w1 e' w2,
             incl (fixed_names input w1) (Blacklist w1) ->
             for_each kids (fun child e => WriteCladeElement fuel input child e) e w1
             = Ok (e', w2) -> Blacklist w2 = Blacklist w1).
  { clear - IH. induction kids as [| k rest IHk]; intros e w1 e' w2 Hclosed H.
    - injection H as _ <-. reflexivity.
    - apply for_each_cons_Ok in H. destruct H as (e1 & wk & Hk & Hrest).
      pose proof (IH _ _ _ _ _ Hk) as Hledger.
      rewrite (clade_ledger_closed _ _ Hclosed) in Hledger.
      destruct (WriteCladeElement_step _ _ _ _ _ _ _ Hk) as [Hstep _].
      rewrite <- Hledger. apply (IHk _ _ _ _ ltac:(
        rewrite (fixed_names_setup _ _ _ (step_setup _ _ _ Hstep)), Hledger;
        exact Hclosed) Hrest). }
  rewrite (Hchildren kids c0 (after_content input w vertex) c w'
             (after_content_closed input w vertex) Hloop).
  reflexivity.
Qed.

Section LedgerOfAWrite.

Variable PrintXML : vtkXMLDataElement -> string.

Lemma WriteData_ledger fuel input w w' :
  WriteData PrintXML fuel input w = Ok (1, w') ->
  Blacklist w'
  = Blacklist w ++ tree_level_names input
    ++ fresh (Blacklist w ++ tree_level_names input) (fixed_names input (resolve input w))
  /\ EdgeWeightArrayName w' = EdgeWeightArrayName w
  /\ NodeNameArrayName w' = NodeNameArrayName w.
Proof.
  rewrite WriteData_run.
  destruct (fail (opened (Stream w))); [discriminate |].
  destruct (tree_level_section input) as [root | |]; try discriminate. cbn [rbind].
  destruct (WriteCladeElement fuel input (GetRoot input) root _)
    as [[root' wc] | |] eqn:Hclade; try discriminate.
  intros [= <-].
  pose proof (WriteCladeElement_ledger _ _ _ _ _ _ _ Hclade) as Hledger.
  destruct (WriteCladeElement_step _ _ _ _ _ _ _ Hclade) as [[Hsetup _ _] _].
  destruct Hsetup as (Hewn & Hnnn & _).
  split; [| split; assumption].
  change (Blacklist (checked _ wc)) with (Blacklist wc). rewrite Hledger.
  unfold clade_ledger.
  change (Blacklist (after_tree_level input w)) with (Blacklist w ++ tree_level_names input).
  change (fixed_names input (after_tree_level input w))
    with (fixed_names input (resolve input w)).
  rewrite <- app_assoc. reflexivity.
Qed.

(** X1: a write that returns 1 appends to the ledger, in this order, the
    names of the tree-level columns it wrote (without looking whether they
    are there already) and then those names of the fixed clade steps that
    the ledger did not hold yet (guarded insertion).  When the writer such a
    write left writes the same tree again, on any stream, and that second
    write returns, it returns 0 or 1: a second write that returns 1 appends
    the tree-level names once more and nothing else, and one that returns 0
    leaves the ledger as it was. *)
Theorem ledger_of_a_write fuel input w w1 :
  WriteData PrintXML fuel input w = Ok (1, w1) ->
  Blacklist w1
  = Blacklist w ++ tree_level_names input
    ++ fresh (Blacklist w ++ tree_level_names input) (fixed_names input (resolve input w))
  /\ forall os fuel' r w2,
       WriteData PrintXML fuel' input (SetStream os w1) = Ok (r, w2) ->
       (r = 0 \/ r = 1)
       /\ Blacklist w2
          = Blacklist w1 ++ (if r =? 1 then tree_level_names input else []).
Proof.
  intros Hrun. destruct (WriteData_ledger _ _ _ _ Hrun) as (Hledger & Hewn & Hnnn).
  split; [assumption |].
  intros os fuel' r w2 Hrun2.
  assert (Hr : r = 0 /\ Blacklist w2 = Blacklist w1 \/ r = 1).
  { rewrite WriteData_run in Hrun2.
    destruct (fail (opened (Stream (SetStream os w1)))).
    - injection Hrun2 as <- <-. left. split; reflexivity.
    - destruct (tree_level_section input) as [root | |]; try discriminate.
      cbn [rbind] in Hrun2.
      destruct (WriteCladeElement fuel' input (GetRoot input) root _) as [[root' wc] | |];
        try discriminate.
      injection Hrun2 as <- _. right. reflexivity. }
  destruct Hr as [[-> Hsame] | ->].
  { split; [left; reflexivity |]. rewrite Hsame. cbn. rewrite app_nil_r. reflexivity. }
  split; [right; reflexivity |]. change (1 =? 1) with true. cbv iota.
  destruct (WriteData_ledger _ _ _ _ Hrun2) as (Hledger2 & _ & _).
  change (Blacklist (SetStream os w1)) with (Blacklist w1) in Hledger2.
  assert (Hfx : fixed_names input (resolve input (SetStream os w1))
                = fixed_names input (resolve input w)).
  { unfold fixed_names. simpl. rewrite Hewn, Hnnn. reflexivity. }
  rewrite Hfx in Hledger2. rewrite Hledger2.
  rewrite fresh_closed; [rewrite app_nil_r; reflexivity |].
  intros n Hn. rewrite Hledger, !in_app_iff.
  destruct (in_dec string_dec n (Blacklist w ++ tree_level_names input)) as [Hin | Hnot].
  - apply in_app_iff in Hin. tauto.
  - left. right. right. apply fresh_In. tauto.
Qed.

End LedgerOfAWrite.

Lemma ledger_of_a_write_witness :
  exists w1,
    WriteData render 3%nat root_and_two_leaves (New good_stream) = Ok (1, w1)
    /\ Blacklist w1
       = Blacklist (New good_stream) ++ tree_level_names root_and_two_leaves
         ++ fresh (Blacklist (New good_stream) ++ tree_level_names root_and_two_leaves)
              (fixed_names root_and_two_leaves
                 (resolve root_and_two_leaves (New good_stream)))
    /\ forall os fuel' r w2,
         WriteData render fuel' root_and_two_leaves (SetStream os w1) = Ok (r, w2) ->
         (r = 0 \/ r = 1)
         /\ Blacklist w2
            = Blacklist w1
              ++ (if r =? 1 then tree_level_names root_and_two_leaves else []).
Proof.
  eexists. split; [lazy; reflexivity |].
  apply (ledger_of_a_write render 3%nat root_and_two_leaves (New good_stream)).
  lazy. reflexivity.
Defined.

(** ** A write whose opening fails *)

Lemma SystemError_opened os : SystemError (opened os) = SystemError os.
Proof.
  destruct os as [written failbit device code].
  destruct failbit; destruct device as [| a [| b rest]]; reflexivity.
Qed.

Lemma fail_opened os : fail (opened os) = negb (opens os).
Proof.
  destruct os as [written failbit device code].
  destruct failbit; destruct device as [| [|] [| [|] rest]]; reflexivity.
Qed.

Section Opening.

Variable PrintXML : vtkXMLDataElement -> string.

(** X2: when the stream does not take the opening of the document (it is
    in failure already, or one of the two flushes of [StartFile] fails),
    [WriteData] returns 0 with the system error as error code, whatever the
    tree and the fuel: the two designated arrays are resolved, but no array
    is read, no element is built, nothing goes into the ledger.  And a
    write that returns, returns 0 in that case and 1 in every other. *)
Theorem failed_opening_aborts_write :
  (forall fuel input w,
      opens (Stream w) = false ->
      exists w',
        WriteData PrintXML fuel input w = Ok (0, w')
        /\ ErrorCode w' = SystemError (Stream w)
        /\ fail (Stream w') = true
        /\ Blacklist w' = Blacklist w
        /\ PropertyLog w' = PropertyLog w
        /\ CladeLog w' = CladeLog w
        /\ EdgeWeightArray w'
           = GetAbstractArray (GetEdgeData input) (EdgeWeightArrayName w)
        /\ NodeNameArray w'
           = GetAbstractArray (GetVertexData input) (NodeNameArrayName w))
  /\ (forall fuel input w r w',
         WriteData PrintXML fuel input w = Ok (r, w') ->
         r = if opens (Stream w) then 1 else 0).
Proof.
  split.
  - intros fuel input w Hopens. rewrite WriteData_run, fail_opened, Hopens. simpl negb.
    eexists. split; [reflexivity |].
    cbn [checked ErrorCode Stream Blacklist PropertyLog CladeLog EdgeWeightArray
           NodeNameArray resolve].
    rewrite fail_opened, Hopens. simpl negb. unfold GetLastSystemError.
    rewrite SystemError_opened.
    refine (conj _ (conj _ (conj _ (conj _ (conj _ (conj _ _)))))); reflexivity.
  - intros fuel input w r w'. rewrite WriteData_run, fail_opened.
    destruct (opens (Stream w)); simpl negb; cbv iota.
    + destruct (tree_level_section input) as [root | |]; try discriminate. cbn [rbind].
      destruct (WriteCladeElement fuel input (GetRoot input) root _) as [[root' wc] | |];
        try discriminate.
      intros [= <- _]. reflexivity.
    + intros [= <- _]. reflexivity.
Qed.

End Opening.

Lemma failed_opening_aborts_write_witness :
  exists w',
    WriteData render 0%nat (single_vertex [no_rows]) (New opening_flush_fails) = Ok (0, w')
    /\ ErrorCode w' = SystemError (Stream (New opening_flush_fails))
    /\ fail (Stream w') = true
    /\ Blacklist w' = Blacklist (New opening_flush_fails)
    /\ PropertyLog w' = PropertyLog (New opening_flush_fails)
    /\ CladeLog w' = CladeLog (New opening_flush_fails)
    /\ EdgeWeightArray w'
       = GetAbstractArray (GetEdgeData (single_vertex [no_rows]))
           (EdgeWeightArrayName (New opening_flush_fails))
    /\ NodeNameArray w'
       = GetAbstractArray (GetVertexData (single_vertex [no_rows]))
           (NodeNameArrayName (New opening_flush_fails)).
Proof.
  apply (proj1 (failed_opening_aborts_write render) 0%nat (single_vertex [no_rows])
           (New opening_flush_fails)).
  reflexivity.
Defined.

(** ** Arrays put into the ledger by hand *)

Section Ignored.

Variable PrintXML : vtkXMLDataElement -> string.

Lemma WriteData_sources fuel input w r w' :
  WriteData PrintXML fuel input w = Ok (r, w') ->
  exists added,
    PropertyLog w' = PropertyLog w ++ added
    /\ forall c v, In (c, v) added -> v = -1 \/ ~ In (GetName c) (Blacklist w).
Proof.
  rewrite WriteData_run.
  destruct (fail (opened (Stream w))).
  - intros [= <- <-]. exists []. simpl. rewrite app_nil_r.
    split; [reflexivity | intros c v []].
  - destruct (tree_level_section input) as [root | |]; try discriminate. cbn [rbind].
    destruct (WriteCladeElement fuel input (GetRoot input) root _)
      as [[root' wc] | |] eqn:Hclade; try discriminate.
    intros [= <- <-].
    destruct (WriteCladeElement_step _ _ _ _ _ _ _ Hclade)
      as [[_ _ (added & Hadded & Fadded)] _].
    exists (map (fun a => (a, -1)) (tree_level_arrays input) ++ added). split.
    + change (PropertyLog (checked _ wc)) with (PropertyLog wc). rewrite Hadded.
      change (PropertyLog (after_tree_level input w))
        with (PropertyLog w ++ map (fun a => (a, -1)) (tree_level_arrays input)).
      rewrite app_assoc. reflexivity.
    + intros c v Hin. apply in_app_iff in Hin. destruct Hin as [Hin | Hin].
      * left. apply in_map_iff in Hin. destruct Hin as (a & [= _ <-] & _). reflexivity.
      * right. rewrite Forall_forall in Fadded.
        destruct (Fadded _ Hin) as (_ & Hb & _). simpl in Hb.
        change (Blacklist (after_tree_level input w))
          with (Blacklist w ++ tree_level_names input) in Hb.
        rewrite in_app_iff in Hb. tauto.
Qed.

(** X3: after [IgnoreArray] was called with a name, no write makes a
    property element of a clade from a column of that name; only the
    tree-level section, which does not consult the ledger, can still make a
    property element of it (logged with the vertex -1). *)
Theorem ignored_array_not_in_clades arrayName fuel input w w0 r w' :
  IgnoreArray arrayName w = Ok (tt, w0) ->
  WriteData PrintXML fuel input w0 = Ok (r, w') ->
  exists added,
    PropertyLog w' = PropertyLog w ++ added
    /\ forall c v, In (c, v) added -> GetName c = arrayName -> v = -1.
Proof.
  unfold IgnoreArray, Blacklist_InsertNextValue. intros [= <-] Hrun.
  destruct (WriteData_sources _ _ _ _ _ Hrun) as (added & Hadded & Hsources).
  exists added. split; [exact Hadded |].
  intros c v Hin Hname. destruct (Hsources _ _ Hin) as [Hv | Hnot]; [assumption |].
  exfalso. apply Hnot. simpl. rewrite Hname, in_app_iff. right. left. reflexivity.
Qed.

End Ignored.

Lemma ignored_array_not_in_clades_witness :
  exists w0 w',
    IgnoreArray "property.habitat" (New good_stream) = Ok (tt, w0)
    /\ WriteData render 3%nat root_and_two_leaves w0 = Ok (1, w')
    /\ exists added,
         PropertyLog w' = PropertyLog (New good_stream) ++ added
         /\ forall c v, In (c, v) added -> GetName c = "property.habitat" -> v = -1.
Proof.
  eexists. eexists. split; [reflexivity |]. split; [lazy; reflexivity |].
  eapply (ignored_array_not_in_clades render "property.habitat" 3%nat root_and_two_leaves
            (New good_stream)).
  - reflexivity.
  - lazy. reflexivity.
Defined.

(** ** The attribute lookup and the attributes of a property element *)

Lemma GetArrayAttribute_keys_first (pre post : vtkInformation) (n v : string) :
  (forall e, In e pre -> CurrentKey e <> StringKey n) ->
  GetArrayAttribute_keys (pre ++ entry (StringKey n) v :: post) n = v.
Proof.
  induction pre as [| e pre IH]; intros Hpre; cbn [app GetArrayAttribute_keys].
  - cbn [entry CurrentKey KeyName SafeDownCast Get]. rewrite String.eqb_refl. reflexivity.
  - assert (IH' : GetArrayAttribute_keys (pre ++ entry (StringKey n) v :: post) n = v).
    { apply IH. intros e' Hin. apply Hpre. right. assumption. }
    destruct (String.eqb_spec (KeyName (CurrentKey e)) n) as [Heq | Hne]; [| exact IH'].
    destruct (CurrentKey e) as [m | m] eqn:Hkey; simpl in *.
    + exfalso. apply (Hpre e (or_introl eq_refl)). rewrite Hkey, Heq. reflexivity.
    + exact IH'.
Qed.

Lemma GetArrayAttribute_keys_none (info : vtkInformation) (n : string) :
  (forall e, In e info -> CurrentKey e <> StringKey n) ->
  GetArrayAttribute_keys info n = EmptyString.
Proof.
  intros H. apply GetArrayAttribute_keys_guarded. intros e Hin Hname.
  destruct (CurrentKey e) as [m | m] eqn:Hkey; simpl in *; [| reflexivity].
  exfalso. apply (H e Hin). rewrite Hkey, Hname. reflexivity.
Qed.

(** X4: [GetArrayAttribute] returns the value of the first string key
    with the name asked for, passing over keys of other names and keys with
    that name that are not string keys, and the empty string when the
    column has no such string key. *)
Theorem GetArrayAttribute_first_string_key :
  (forall array n pre v post,
      GetInformation array = pre ++ entry (StringKey n) v :: post ->
      (forall e, In e pre -> CurrentKey e <> StringKey n) ->
      GetArrayAttribute array n = v)
  /\ (forall array n,
         (forall e, In e (GetInformation array) -> CurrentKey e <> StringKey n) ->
         GetArrayAttribute array n = EmptyString).
Proof.
  split.
  - intros array n pre v post Hinfo Hpre. unfold GetArrayAttribute. rewrite Hinfo.
    apply GetArrayAttribute_keys_first. assumption.
  - intros array n H. apply GetArrayAttribute_keys_none. assumption.
Qed.

Lemma GetArrayAttribute_first_string_key_witness :
  GetArrayAttribute twice_typed "type" = "bootstrap"
  /\ GetArrayAttribute keyed "type" = EmptyString.
Proof.
  split.
  - apply (proj1 GetArrayAttribute_first_string_key twice_typed "type"
             [entry (OtherKey "type") "ignored"] "bootstrap"
             [entry (StringKey "type") "posterior"]); [reflexivity |].
    intros e [<- | []]. discriminate.
  - apply (proj2 GetArrayAttribute_first_string_key keyed "type").
    intros e [<- | []]. discriminate.
Defined.

Lemma picked_cons_same e rest key default :
  String.eqb (KeyName (CurrentKey e)) key = true ->
  picked (e :: rest) key default = picked rest key (Get e).
Proof.
  intros H. unfold picked. cbn [existsb metadata]. rewrite H. simpl.
  destruct (existsb _ rest); reflexivity.
Qed.

Lemma picked_cons_other e rest key default :
  String.eqb (KeyName (CurrentKey e)) key = false ->
  picked (e :: rest) key default = picked rest key default.
Proof.
  intros H. unfold picked. cbn [existsb metadata]. rewrite H. simpl.
  destruct (existsb _ rest); reflexivity.
Qed.

Lemma scan_keys_found (info : vtkInformation) :
  forall acc found,
    scan_keys info acc = Ok found ->
    authority found = picked info "authority" (authority acc)
    /\ appliesTo found = picked info "applies_to" (appliesTo acc)
    /\ unit_ found = picked info "unit" (unit_ acc).
Proof.
  induction info as [| e rest IH]; intros acc found H; cbn [scan_keys] in H.
  - injection H as <-. repeat split.
  - destruct (SafeDownCast (CurrentKey e)) as [key |] eqn:Hk; [| discriminate].
    apply SafeDownCast_name in Hk. subst key.
    destruct (String.eqb_spec (KeyName (CurrentKey e)) "authority") as [Ha | Ha].
    { destruct (IH _ _ H) as (H1 & H2 & H3). cbn [authority appliesTo unit_] in *.
      rewrite picked_cons_same by (rewrite Ha; reflexivity).
      rewrite !picked_cons_other by (rewrite Ha; reflexivity). auto. }
    destruct (String.eqb_spec (KeyName (CurrentKey e)) "applies_to") as [Hb | Hb].
    { destruct (IH _ _ H) as (H1 & H2 & H3). cbn [authority appliesTo unit_] in *.
      rewrite (picked_cons_same e rest "applies_to") by (rewrite Hb; reflexivity).
      rewrite !picked_cons_other by (rewrite Hb; reflexivity). auto. }
    destruct (String.eqb_spec (KeyName (CurrentKey e)) "unit") as [Hc | Hc].
    { destruct (IH _ _ H) as (H1 & H2 & H3). cbn [authority appliesTo unit_] in *.
      rewrite (picked_cons_same e rest "unit") by (rewrite Hc; reflexivity).
      rewrite !picked_cons_other by (rewrite Hc; reflexivity). auto. }
    destruct (IH _ _ H) as (H1 & H2 & H3).
    rewrite !picked_cons_other by (apply String.eqb_neq; assumption). auto.
Qed.

Lemma picked_empty info key : picked info key EmptyString = metadata info key.
Proof.
  unfold picked. destruct (existsb _ info) eqn:H; [reflexivity |].
  symmetry. apply metadata_absent. assumption.
Qed.

Lemma scan_keys_Ok_string_keys info :
  forall acc found, scan_keys info acc = Ok found -> string_keys_only info = true.
Proof.
  intros acc found H. destruct (string_keys_only info) eqn:Hkeys; [reflexivity |].
  rewrite (scan_keys_null _ acc Hkeys) in H. discriminate.
Qed.

(** X5: a property element that [WritePropertyElement] returns is made of
    one row of the column, row 0 for a tree-level call and the row of the
    vertex otherwise: its text is that value, its datatype attribute the
    token of the value's type, its applies_to attribute the value of the
    last metadata key applies_to (clade without one or with an empty one),
    and it has a unit attribute only when the last metadata key unit has a
    non-empty value.  The attributes come in the order datatype, ref,
    applies_to, unit, the element has no nested element, and all keys of
    the column are string keys. *)
Theorem property_element_attributes array vertex element w e' w' :
  WritePropertyElement array vertex element w = Ok (e', w') ->
  exists value,
    GetVariantValue array (if vertex =? -1 then 0 else vertex) = Ok value
    /\ string_keys_only (GetInformation array) = true
    /\ e' = AddNestedElement element
              (XMLDataElement "property"
                 ([("datatype", datatype (GetTypeAsString value));
                   ("ref", ref (authority_of array) (GetName array));
                   ("applies_to",
                    if String.eqb (metadata (GetInformation array) "applies_to") EmptyString
                    then "clade" else metadata (GetInformation array) "applies_to")]
                  ++ (if String.eqb (metadata (GetInformation array) "unit") EmptyString
                      then []
                      else [("unit", metadata (GetInformation array) "unit")]))
                 (ToString value) []).
Proof.
  rewrite WritePropertyElement_run.
  destruct (scan_keys (GetInformation array) no_attributes) as [found | |] eqn:Hscan;
    try discriminate.
  destruct (GetVariantValue array _) as [value | |]; try discriminate.
  intros [= <- _]. exists value.
  split; [reflexivity |]. split; [apply (scan_keys_Ok_string_keys _ _ _ Hscan) |].
  destruct (scan_keys_found _ _ _ Hscan) as (Ha & Hb & Hc).
  cbn [no_attributes authority appliesTo unit_] in Ha, Hb, Hc.
  rewrite picked_empty in Ha, Hb, Hc.
  unfold property_element, authority_of. rewrite Ha, Hb, Hc.
  destruct (String.eqb (metadata (GetInformation array) "unit") EmptyString); reflexivity.
Qed.

Lemma property_element_attributes_witness :
  exists value,
    GetVariantValue habitat (if 2 =? -1 then 0 else 2) = Ok value
    /\ string_keys_only (GetInformation habitat) = true
    /\ AddNestedElement NewElement
         (XMLDataElement "property"
            [("datatype", "xsd:string"); ("ref", "NCBI:habitat");
             ("applies_to", "clade"); ("unit", "biome")] "forest" [])
       = AddNestedElement NewElement
           (XMLDataElement "property"
              ([("datatype", datatype (GetTypeAsString value));
                ("ref", ref (authority_of habitat) (GetName habitat));
                ("applies_to",
                 if String.eqb (metadata (GetInformation habitat) "applies_to") EmptyString
                 then "clade" else metadata (GetInformation habitat) "applies_to")]
               ++ (if String.eqb (metadata (GetInformation habitat) "unit") EmptyString
                   then []
                   else [("unit", metadata (GetInformation habitat) "unit")]))
              (ToString value) []).
Proof.
  apply (property_element_attributes habitat 2 NewElement (New good_stream) _
           (record_ [] [(habitat, 2)] (New good_stream))).
  reflexivity.
Defined.

(** ** The branch length of a clade *)

Lemma app_disjoint {A} (l l' : list A) (x : A) :
  NoDup (l ++ l') -> In x l -> In x l' -> False.
Proof.
  induction l as [| a l IH]; intros Hnd Hl Hl'; [contradiction |].
  simpl in Hnd. apply NoDup_cons_iff in Hnd. destruct Hnd as [Hnotin Hnd].
  destruct Hl as [-> | Hl]; [apply Hnotin, in_or_app; right; assumption |].
  apply IH; assumption.
Qed.

Lemma flat_map_NoDup_part {A B} (f : A -> list B) (kids : list A) (k : A) :
  NoDup (flat_map f kids) -> In k kids -> NoDup (f k).
Proof.
  induction kids as [| k' rest IH]; intros Hnd Hin; [contradiction |].
  simpl in Hnd. destruct Hin as [-> | Hin].
  - apply (NoDup_app_remove_r _ _ Hnd).
  - apply IH; [apply (NoDup_app_remove_l _ _ Hnd) | assumption].
Qed.

Lemma flat_map_NoDup_same {A B} (f : A -> list B) (kids : list A) (k1 k2 : A) (v : B) :
  NoDup (flat_map f kids) -> In k1 kids -> In k2 kids ->
  In v (f k1) -> In v (f k2) -> k1 = k2.
Proof.
  induction kids as [| k rest IH]; intros Hnd H1 H2 Hv1 Hv2; [contradiction |].
  simpl in Hnd.
  destruct H1 as [-> | H1], H2 as [-> | H2].
  - reflexivity.
  - exfalso. apply (app_disjoint _ _ v Hnd Hv1). apply in_flat_map. eauto.
  - exfalso. apply (app_disjoint _ _ v Hnd Hv2). apply in_flat_map. eauto.
  - apply IH; try assumption. apply (NoDup_app_remove_l _ _ Hnd).
Qed.

Lemma nodupb_NoDup (xs : list Z) : nodupb xs = true -> NoDup xs.
Proof.
  induction xs as [| x rest IH]; intros H; [constructor |].
  simpl in H. apply andb_prop in H. destruct H as [Hx Hrest].
  constructor; [| apply IH; assumption].
  intros Hin. apply negb_true_iff in Hx.
  assert (Hex : existsb (Z.eqb x) rest = true).
  { apply existsb_exists. exists x. split; [assumption | apply Z.eqb_refl]. }
  congruence.
Qed.

Lemma rose_root_In sh : In (rose_root sh) (vertices sh).
Proof. destruct sh. left. reflexivity. Qed.

Lemma child_in_below sh u v :
  child_in sh u v -> In v (tl (vertices sh)).
Proof.
  induction 1 as [r kids k Hin | r kids k a b Hin Hchild IH]; cbn [vertices tl].
  - apply in_flat_map. exists k. split; [assumption | apply rose_root_In].
  - apply in_flat_map. exists k. split; [assumption |].
    destruct k. right. exact IH.
Qed.

Lemma child_in_vertex sh u v : child_in sh u v -> In v (vertices sh).
Proof. intros H. apply child_in_below in H. destruct sh. right. exact H. Qed.

(** In a tree without a repeated vertex, a vertex has one parent. *)
Lemma child_in_unique :
  forall sh u u' v,
    NoDup (vertices sh) -> child_in sh u v -> child_in sh u' v -> u = u'.
Proof.
  induction sh as [r kids IH] using rose_induction.
  intros u u' v Hnd H1 H2.
  cbn [vertices] in Hnd. apply NoDup_cons_iff in Hnd. destruct Hnd as [_ Hnd].
  rewrite Forall_forall in IH.
  inversion H1 as [? ? k1 Hin1 | ? ? k1 ? ? Hin1 Hc1]; subst;
    inversion H2 as [? ? k2 Hin2 Heq | ? ? k2 ? ? Hin2 Hc2]; subst.
  - reflexivity.
  - exfalso.
    assert (k1 = k2).
    { apply (flat_map_NoDup_same vertices kids k1 k2 (rose_root k1) Hnd Hin1 Hin2).
      - apply rose_root_In.
      - apply (child_in_vertex _ _ _ Hc2). }
    subst k2. pose proof (flat_map_NoDup_part _ _ _ Hnd Hin1) as Hk.
    apply child_in_below in Hc2. destruct k1 as [v1 kids1]. cbn in *.
    apply NoDup_cons_iff in Hk. tauto.
  - exfalso.
    assert (k1 = k2).
    { apply (flat_map_NoDup_same vertices kids k1 k2 (rose_root k2) Hnd Hin1 Hin2).
      - apply (child_in_vertex _ _ _ Hc1).
      - apply rose_root_In. }
    subst k2. pose proof (flat_map_NoDup_part _ _ _ Hnd Hin1) as Hk.
    apply child_in_below in Hc1. destruct k1 as [v1 kids1]. cbn in *.
    apply NoDup_cons_iff in Hk. tauto.
  - assert (k1 = k2).
    { apply (flat_map_NoDup_same vertices kids k1 k2 v Hnd Hin1 Hin2).
      - apply (child_in_vertex _ _ _ Hc1).
      - apply (child_in_vertex _ _ _ Hc2). }
    subst k2. apply (IH k1 Hin1 u u' v); try assumption.
    apply (flat_map_NoDup_part _ _ _ Hnd Hin1).
Qed.

(** The children [input] reports for a vertex of [sh] are its children
    in [sh], and every vertex of [sh] is a vertex of [input]. *)
Lemma unfolds_child input :
  forall sh u children v,
    unfolds input sh = true -> In u (vertices sh) ->
    GetChildren input u = Ok children -> In v children -> child_in sh u v.
Proof.
  induction sh as [r kids IH] using rose_induction.
  intros u children v Hunf Hu Hkids Hv.
  cbn [unfolds] in Hunf.
  destruct (GetChildren input r) as [cs | |] eqn:Hr; try discriminate.
  apply andb_prop in Hunf. destruct Hunf as [Hsame Hsub].
  apply Zlist_eqb_eq in Hsame. subst cs.
  rewrite forallb_forall in Hsub. rewrite Forall_forall in IH.
  destruct (Z.eq_dec u r) as [-> | Hne].
  - rewrite Hr in Hkids. injection Hkids as <-.
    apply in_map_iff in Hv. destruct Hv as (k & <- & Hin). constructor. assumption.
  - destruct Hu as [Hu | Hu]; [congruence |].
    apply in_flat_map in Hu. destruct Hu as (k & Hin & Hu).
    apply (child_below r kids k u v Hin).
    apply (IH k Hin u children v (Hsub k Hin) Hu Hkids Hv).
Qed.

Lemma unfolds_vertex input :
  forall sh u,
    unfolds input sh = true -> In u (vertices sh) ->
    0 <= u < Z.of_nat (GetNumberOfVertices input).
Proof.
  induction sh as [r kids IH] using rose_induction.
  intros u Hunf Hu. cbn [unfolds] in Hunf.
  destruct (GetChildren input r) as [cs | |] eqn:Hr; try discriminate.
  apply andb_prop in Hunf. destruct Hunf as [_ Hsub].
  rewrite forallb_forall in Hsub. rewrite Forall_forall in IH.
  destruct Hu as [<- | Hu]; [apply (GetChildren_range _ _ _ Hr) |].
  apply in_flat_map in Hu. destruct Hu as (k & Hin & Hu).
  apply (IH k Hin u (Hsub k Hin) Hu).
Qed.

Lemma is_tree_NoDup input sh : is_tree input sh = true -> NoDup (vertices sh).
Proof.
  unfold is_tree. intros H. apply andb_prop in H. destruct H as [_ H].
  apply nodupb_NoDup. assumption.
Qed.

(** Every vertex of a tree is reached from the root. *)
Lemma is_tree_reaches input sh u :
  is_tree input sh = true ->
  0 <= u < Z.of_nat (GetNumberOfVertices input) -> In u (vertices sh).
Proof.
  intros Htree Hu.
  destruct (is_tree_parts _ _ Htree) as (_ & Hunf & Hsize).
  pose proof (is_tree_NoDup _ _ Htree) as Hnd.
  assert (Hincl : incl (vertices sh)
                    (map Z.of_nat (seq 0 (GetNumberOfVertices input)))).
  { intros x Hx. pose proof (unfolds_vertex _ _ _ Hunf Hx) as Hrange.
    apply in_map_iff. exists (Z.to_nat x). split; [lia |].
    apply in_seq. lia. }
  assert (Hback : incl (map Z.of_nat (seq 0 (GetNumberOfVertices input))) (vertices sh)).
  { apply (NoDup_length_incl Hnd); [| exact Hincl].
    rewrite length_map, length_seq. unfold size in Hsize. lia. }
  apply Hback. apply in_map_iff. exists (Z.to_nat u). split; [lia |].
  apply in_seq. lia.
Qed.

Lemma GetOutEdges_children input u es :
  GetOutEdges input u = Ok es -> GetChildren input u = Ok (map Target es).
Proof. unfold GetChildren. intros ->. reflexivity. Qed.

Lemma GetOutEdges_nth input u es :
  GetOutEdges input u = Ok es ->
  0 <= u /\ nth_error (Adjacency input) (Z.to_nat u) = Some es.
Proof.
  unfold GetOutEdges. destruct (u <? 0) eqn:Hneg; [discriminate |].
  apply Z.ltb_ge in Hneg.
  destruct (nth_error (Adjacency input) (Z.to_nat u)) as [es' |]; [| discriminate].
  intros [= ->]. auto.
Qed.

Lemma nth_GetOutEdges input i es :
  nth_error (Adjacency input) i = Some es -> GetOutEdges input (Z.of_nat i) = Ok es.
Proof.
  intros H. unfold GetOutEdges.
  destruct (Z.of_nat i <? 0) eqn:Hneg; [apply Z.ltb_lt in Hneg; lia |].
  rewrite Nat2Z.id, H. reflexivity.
Qed.

Lemma find_parent_spec (adj : list (list vtkOutEdgeType)) :
  forall k v,
    (find_parent adj k v = -1
     /\ forall es, In es adj -> existsb (fun e => Target e =? v) es = false)
    \/ exists i es,
         find_parent adj k v = k + Z.of_nat i
         /\ nth_error adj i = Some es
         /\ existsb (fun e => Target e =? v) es = true.
Proof.
  induction adj as [| es rest IH]; intros k v; cbn [find_parent].
  - left. split; [reflexivity | intros es []].
  - destruct (existsb (fun e => Target e =? v) es) eqn:Hhere.
    + right. exists 0%nat, es. split; [lia | split; [reflexivity | assumption]].
    + destruct (IH (k + 1) v) as [[Hnone Hall] | (i & es' & Hfound & Hnth & Hex)].
      * left. split; [assumption |]. intros es' [<- | Hin]; auto.
      * right. exists (S i), es'. split; [lia | split; assumption].
Qed.

Lemma existsb_target es v :
  existsb (fun e => Target e =? v) es = true <-> In v (map Target es).
Proof.
  rewrite existsb_exists, in_map_iff. split.
  - intros (e & Hin & Heq). apply Z.eqb_eq in Heq. eauto.
  - intros (e & Heq & Hin). exists e. split; [assumption | apply Z.eqb_eq; assumption].
Qed.

(** In a tree the parent of the target of an edge is the source of the
    edge, and the root has no parent. *)
Lemma GetParent_of_target input sh u es e :
  is_tree input sh = true ->
  GetOutEdges input u = Ok es -> In e es ->
  GetParent input (Target e) = Ok u.
Proof.
  intros Htree Hes Hin.
  destruct (is_tree_parts _ _ Htree) as (_ & Hunf & _).
  pose proof (is_tree_NoDup _ _ Htree) as Hnd.
  pose proof (GetOutEdges_children _ _ _ Hes) as Hkids.
  pose proof (GetChildren_range _ _ _ Hkids) as Hu.
  assert (Hchild : child_in sh u (Target e)).
  { apply (unfolds_child input sh u (map Target es)); try assumption.
    - apply (is_tree_reaches _ _ _ Htree Hu).
    - apply in_map. assumption. }
  pose proof (unfolds_vertex _ _ _ Hunf (child_in_vertex _ _ _ Hchild)) as Hv.
  unfold GetParent, GetOutEdges.
  destruct (Target e <? 0) eqn:Hneg; [apply Z.ltb_lt in Hneg; lia |].
  destruct (nth_error (Adjacency input) (Z.to_nat (Target e))) as [es' |] eqn:Hnth.
  2:{ apply nth_error_None in Hnth. unfold GetNumberOfVertices in Hv. lia. }
  f_equal.
  destruct (find_parent_spec (Adjacency input) 0 (Target e))
    as [[_ Hall] | (i & es2 & Hfound & Hnth2 & Hex)].
  - exfalso. apply GetOutEdges_nth in Hes. destruct Hes as [_ Hes].
    apply nth_error_In in Hes. specialize (Hall es Hes).
    assert (existsb (fun e0 => Target e0 =? Target e) es = true).
    { apply existsb_target. apply in_map. assumption. }
    congruence.
  - rewrite Hfound. rewrite Z.add_0_l.
    apply (child_in_unique sh (Z.of_nat i) u (Target e) Hnd); [| assumption].
    pose proof (nth_GetOutEdges _ _ _ Hnth2) as Hes2.
    pose proof (GetOutEdges_children _ _ _ Hes2) as Hkids2.
    apply (unfolds_child input sh (Z.of_nat i) (map Target es2)); try assumption.
    + apply (is_tree_reaches _ _ _ Htree (GetChildren_range _ _ _ Hkids2)).
    + apply existsb_target. assumption.
Qed.

Lemma GetParent_of_root input sh :
  is_tree input sh = true -> GetParent input (GetRoot input) = Ok (-1).
Proof.
  intros Htree.
  destruct (is_tree_parts _ _ Htree) as (Hroot & Hunf & _).
  pose proof (is_tree_NoDup _ _ Htree) as Hnd.
  pose proof (unfolds_vertex _ _ _ Hunf (rose_root_In sh)) as Hv.
  rewrite Hroot in Hv.
  unfold GetParent, GetOutEdges.
  destruct (GetRoot input <? 0) eqn:Hneg; [apply Z.ltb_lt in Hneg; lia |].
  destruct (nth_error (Adjacency input) (Z.to_nat (GetRoot input))) as [es' |] eqn:Hnth.
  2:{ apply nth_error_None in Hnth. unfold GetNumberOfVertices in Hv. lia. }
  f_equal.
  destruct (find_parent_spec (Adjacency input) 0 (GetRoot input))
    as [[Hnone _] | (i & es2 & Hfound & Hnth2 & Hex)]; [assumption |].
  exfalso.
  pose proof (nth_GetOutEdges _ _ _ Hnth2) as Hes2.
  pose proof (GetOutEdges_children _ _ _ Hes2) as Hkids2.
  assert (Hchild : child_in sh (Z.of_nat i) (GetRoot input)).
  { apply (unfolds_child input sh (Z.of_nat i) (map Target es2)); try assumption.
    - apply (is_tree_reaches _ _ _ Htree (GetChildren_range _ _ _ Hkids2)).
    - apply existsb_target. assumption. }
  apply child_in_below in Hchild. rewrite <- Hroot in Hchild.
  destruct sh as [r kids]. cbn in *.
  apply NoDup_cons_iff in Hnd. tauto.
Qed.

Lemma NoDup_map_In {A B} (f : A -> B) (l : list A) (x y : A) :
  NoDup (map f l) -> In x l -> In y l -> f x = f y -> x = y.
Proof.
  induction l as [| a l IH]; intros Hnd Hx Hy Heq; [contradiction |].
  simpl in Hnd. apply NoDup_cons_iff in Hnd. destruct Hnd as [Hnotin Hnd].
  destruct Hx as [-> | Hx], Hy as [-> | Hy].
  - reflexivity.
  - exfalso. apply Hnotin. rewrite Heq. apply in_map. assumption.
  - exfalso. apply Hnotin. rewrite <- Heq. apply in_map. assumption.
  - apply IH; assumption.
Qed.

Lemma roots_NoDup (kids : list rose) :
  NoDup (flat_map vertices kids) -> NoDup (map rose_root kids).
Proof.
  induction kids as [| k rest IH]; intros Hnd; [constructor |].
  cbn [map flat_map] in *. constructor.
  - intros Hin. apply in_map_iff in Hin. destruct Hin as (k' & Heq & Hin).
    apply (app_disjoint _ _ (rose_root k) Hnd (rose_root_In k)).
    apply in_flat_map. exists k'. split; [assumption |]. rewrite <- Heq. apply rose_root_In.
  - apply IH. apply (NoDup_app_remove_l _ _ Hnd).
Qed.

(** The children a tree reports for a vertex are all different. *)
Lemma children_NoDup input :
  forall sh u children,
    unfolds input sh = true -> NoDup (vertices sh) -> In u (vertices sh) ->
    GetChildren input u = Ok children -> NoDup children.
Proof.
  induction sh as [r kids IH] using rose_induction.
  intros u children Hunf Hnd Hu Hkids.
  cbn [unfolds] in Hunf.
  destruct (GetChildren input r) as [cs | |] eqn:Hr; try discriminate.
  apply andb_prop in Hunf. destruct Hunf as [Hsame Hsub].
  apply Zlist_eqb_eq in Hsame. subst cs.
  rewrite forallb_forall in Hsub. rewrite Forall_forall in IH.
  cbn [vertices] in Hnd. apply NoDup_cons_iff in Hnd. destruct Hnd as [_ Hnd].
  destruct (Z.eq_dec u r) as [-> | Hne].
  - rewrite Hr in Hkids. injection Hkids as <-. apply roots_NoDup. assumption.
  - destruct Hu as [Hu | Hu]; [congruence |].
    apply in_flat_map in Hu. destruct Hu as (k & Hin & Hu).
    apply (IH k Hin u children (Hsub k Hin) (flat_map_NoDup_part _ _ _ Hnd Hin) Hu Hkids).
Qed.

Lemma GetEdgeId_of_edge input sh u es e :
  is_tree input sh = true ->
  GetOutEdges input u = Ok es -> In e es ->
  GetEdgeId input u (Target e) = Id e.
Proof.
  intros Htree Hes Hin.
  destruct (is_tree_parts _ _ Htree) as (_ & Hunf & _).
  pose proof (is_tree_NoDup _ _ Htree) as Hnd.
  pose proof (GetOutEdges_children _ _ _ Hes) as Hkids.
  pose proof (children_NoDup input sh u _ Hunf Hnd
                (is_tree_reaches _ _ _ Htree (GetChildren_range _ _ _ Hkids)) Hkids)
    as Htargets.
  unfold GetEdgeId. rewrite Hes.
  destruct (find (fun e0 => Target e0 =? Target e) es) as [e' |] eqn:Hfind.
  - apply find_some in Hfind. destruct Hfind as [Hin' Heq]. apply Z.eqb_eq in Heq.
    f_equal. apply (NoDup_map_In Target es e' e Htargets Hin' Hin Heq).
  - exfalso. pose proof (find_none _ _ Hfind e Hin) as Hno.
    cbv beta in Hno. rewrite Z.eqb_refl in Hno. discriminate.
Qed.

(** X6: in a tree, when the edge-weight array is resolved,
    [WriteBranchLengthAttribute] leaves the element of the root without a
    branch_length attribute, and gives the element of the target of an edge
    the attribute branch_length with the value the edge-weight array holds
    at the id of that edge; when the array has no row for that id the call
    reads outside the array.  In each returning case the name of the
    edge-weight array goes into the ledger unless it is there already, and
    nothing else of the writer changes. *)
Theorem branch_length_from_in_edge input sh w edgeWeightArray element :
  is_tree input sh = true ->
  EdgeWeightArray w = Some edgeWeightArray ->
  WriteBranchLengthAttribute input (GetRoot input) element w
  = Ok (element, record_ (fresh (Blacklist w) [GetName edgeWeightArray]) [] w)
  /\ (forall u es e value,
         GetOutEdges input u = Ok es -> In e es ->
         GetVariantValue edgeWeightArray (Id e) = Ok value ->
         WriteBranchLengthAttribute input (Target e) element w
         = Ok (SetDoubleAttribute element "branch_length" (ToDouble value),
               record_ (fresh (Blacklist w) [GetName edgeWeightArray]) [] w))
  /\ (forall u es e f,
         GetOutEdges input u = Ok es -> In e es -> 0 <= Id e ->
         GetVariantValue edgeWeightArray (Id e) = Fault f ->
         WriteBranchLengthAttribute input (Target e) element w = Fault f).
Proof.
  intros Htree Hew. split; [| split].
  - rewrite WriteBranchLengthAttribute_run, Hew. unfold branch_length_attribute.
    rewrite (GetParent_of_root _ _ Htree). reflexivity.
  - intros u es e value Hes Hin Hvalue.
    assert (Hid : (Id e =? -1) = false).
    { apply Z.eqb_neq. intros Heq. rewrite Heq in Hvalue. discriminate. }
    assert (Hu : (u =? -1) = false).
    { apply Z.eqb_neq. apply GetOutEdges_nth in Hes. lia. }
    rewrite WriteBranchLengthAttribute_run, Hew. unfold branch_length_attribute.
    rewrite (GetParent_of_target _ _ _ _ _ Htree Hes Hin). cbn [rbind].
    rewrite Hu, (GetEdgeId_of_edge _ _ _ _ _ Htree Hes Hin), Hid. cbn [negb].
    rewrite Hvalue. reflexivity.
  - intros u es e f Hes Hin Hid Hvalue.
    assert (Hid' : (Id e =? -1) = false) by (apply Z.eqb_neq; lia).
    assert (Hu : (u =? -1) = false).
    { apply Z.eqb_neq. apply GetOutEdges_nth in Hes. lia. }
    rewrite WriteBranchLengthAttribute_run, Hew. unfold branch_length_attribute.
    rewrite (GetParent_of_target _ _ _ _ _ Htree Hes Hin). cbn [rbind].
    rewrite Hu, (GetEdgeId_of_edge _ _ _ _ _ Htree Hes Hin), Hid'. cbn [negb].
    rewrite Hvalue. reflexivity.
Qed.

Lemma branch_length_from_in_edge_witness :
  WriteBranchLengthAttribute root_and_two_leaves 0 (SetName NewElement "clade")
    (resolve root_and_two_leaves (New good_stream))
  = Ok (XMLDataElement "clade" [] EmptyString [],
        record_ ["weight"] [] (resolve root_and_two_leaves (New good_stream)))
  /\ WriteBranchLengthAttribute root_and_two_leaves 2 (SetName NewElement "clade")
       (resolve root_and_two_leaves (New good_stream))
     = Ok (XMLDataElement "clade" [("branch_length", "2.25")] EmptyString [],
           record_ ["weight"] [] (resolve root_and_two_leaves (New good_stream))).
Proof.
  destruct (branch_length_from_in_edge root_and_two_leaves root_and_two_leaves_rose
              (resolve root_and_two_leaves (New good_stream)) edge_weights
              (SetName NewElement "clade") eq_refl eq_refl) as (Hroot & Hedge & _).
  split; [exact Hroot |].
  exact (Hedge 0 [edge 1 0; edge 2 1] (edge 2 1) (double_value "2.25")
           eq_refl (or_intror (or_introl eq_refl)) eq_refl).
Defined.

(** ** The property elements of a write, one by one *)

Lemma clade_arrays_agree input w1 w2 :
  agree input w1 w2 -> clade_arrays input w1 = clade_arrays input w2.
Proof.
  intros (Hew & Hnn & Hledger). unfold clade_arrays.
  rewrite Hew, Hnn, (selected_ext _ _ _ _ _ Hledger). reflexivity.
Qed.

(** The clades below a vertex make one property element for each vertex
    and each selected array, vertex by vertex in depth-first order. *)
Lemma WriteCladeElement_properties input :
  forall sh,
    unfolds input sh = true ->
    forall fuel parentElement w p' w',
      WriteCladeElement fuel input (rose_root sh) parentElement w = Ok (p', w') ->
      PropertyLog w'
      = PropertyLog w
        ++ flat_map (fun v => map (fun a => (a, v)) (clade_arrays input w)) (vertices sh).
Proof.
  induction sh as [v kids IH] using rose_induction.
  intros Hunf fuel parentElement w p' w' H.
  cbn [unfolds] in Hunf.
  destruct (GetChildren input v) as [children | |] eqn:Hkids; try discriminate.
  apply andb_prop in Hunf. destruct Hunf as [Hsame Hsub].
  apply Zlist_eqb_eq in Hsame. subst children.
  cbn [rose_root] in H. apply WriteCladeElement_Ok in H.
  destruct H as (fuel' & c0 & kids' & c & -> & Hv & Hc0 & Hkids' & Hloop & ->).
  rewrite Hkids in Hkids'. injection Hkids' as <-.
  assert (Hchildren : forall e w1 e' w2,
             agree input w w1 ->
             for_each (map rose_root kids)
               (fun child e => WriteCladeElement fuel' input child e) e w1 = Ok (e', w2) ->
             PropertyLog w2
             = PropertyLog w1
               ++ flat_map (fun v => map (fun a => (a, v)) (clade_arrays input w))
                    (flat_map vertices kids)).
  { clear Hloop Hkids Hc0 c0 c. induction kids as [| k rest IHrest];
      intros e w1 e' w2 Hagree H.
    - injection H as _ <-. cbn. rewrite app_nil_r. reflexivity.
    - inversion IH as [| ? ? IHk IHtail]; subst.
      cbn [forallb] in Hsub. apply andb_prop in Hsub. destruct Hsub as [Hk Hrest].
      cbn [map] in H. apply for_each_cons_Ok in H.
      destruct H as (e1 & wk & Hrun & Hrest').
      pose proof (IHk Hk _ _ _ _ _ Hrun) as Hlog.
      rewrite <- (clade_arrays_agree _ _ _ Hagree) in Hlog.
      destruct (WriteCladeElement_step _ _ _ _ _ _ _ Hrun) as [Hstep _].
      rewrite (IHrest IHtail Hrest e1 wk e' w2
                 (agree_trans _ _ _ _ Hagree (clade_step_agree _ _ _ Hstep)) Hrest').
      rewrite Hlog. cbn [flat_map]. rewrite flat_map_app, <- app_assoc. reflexivity. }
  rewrite (Hchildren c0 (after_content input w v) c w'
             (clade_step_agree _ _ _ (after_content_step input w v Hv)) Hloop).
  cbn [vertices flat_map]. unfold after_content. cbn [record_ PropertyLog visit].
  rewrite <- app_assoc. reflexivity.
Qed.

Section PropertiesOfAWrite.

Variable PrintXML : vtkXMLDataElement -> string.

(** X7: a write of a tree that returns 1 has made these property
    elements, in this order: one for each column whose name starts with
    phylogeny.property., from row 0 (the tree-level properties); then, for
    each vertex in depth-first order, a vertex before its children, one for
    each selected column in the order of the vertex data, from the row of
    that vertex.  The selected columns are the same for every vertex: the
    columns of the vertex data that are neither the resolved node-name array
    nor the resolved edge-weight array as objects, and whose name is neither
    in the ledger the write started with nor the name of a column the write
    handles by a fixed convention. *)
Theorem property_elements_of_a_write fuel input sh w w' :
  is_tree input sh = true ->
  WriteData PrintXML fuel input w = Ok (1, w') ->
  PropertyLog w'
  = PropertyLog w
    ++ map (fun a => (a, -1)) (tree_level_arrays input)
    ++ flat_map (fun v => map (fun a => (a, v))
                            (clade_arrays input (after_tree_level input w)))
         (vertices sh)
  /\ forall a,
       In a (clade_arrays input (after_tree_level input w))
       <-> In a (GetVertexData input)
           /\ same_array a (GetAbstractArray (GetVertexData input) (NodeNameArrayName w))
              = false
           /\ same_array a (GetAbstractArray (GetEdgeData input) (EdgeWeightArrayName w))
              = false
           /\ ~ In (GetName a) (Blacklist w)
           /\ ~ In (GetName a) (ledger_names input w).
Proof.
  intros Htree Hrun.
  destruct (is_tree_parts _ _ Htree) as (Hroot & Hunf & _).
  split.
  - rewrite WriteData_run in Hrun.
    destruct (fail (opened (Stream w))); [discriminate |].
    destruct (tree_level_section input) as [root | |]; try discriminate.
    cbn [rbind] in Hrun.
    destruct (WriteCladeElement fuel input (GetRoot input) root _)
      as [[root' wc] | |] eqn:Hclade; try discriminate.
    injection Hrun as <-. rewrite <- Hroot in Hclade.
    apply (WriteCladeElement_properties input sh Hunf) in Hclade.
    change (PropertyLog (checked _ wc)) with (PropertyLog wc).
    rewrite Hclade. unfold after_tree_level at 1. cbn [record_ PropertyLog checked resolve].
    rewrite <- app_assoc. reflexivity.
  - intros a. unfold clade_arrays, selected. rewrite filter_In.
    rewrite andb_true_iff, negb_true_iff, orb_false_iff, LookupValue_absent.
    change (NodeNameArray (after_tree_level input w))
      with (GetAbstractArray (GetVertexData input) (NodeNameArrayName w)).
    change (EdgeWeightArray (after_tree_level input w))
      with (GetAbstractArray (GetEdgeData input) (EdgeWeightArrayName w)).
    unfold clade_ledger. rewrite closure_In, ledger_names_split.
    change (Blacklist (after_tree_level input w))
      with (Blacklist w ++ tree_level_names input).
    rewrite !in_app_iff. tauto.
Qed.

End PropertiesOfAWrite.

Lemma property_elements_of_a_write_witness :
  exists w',
    WriteData render 3%nat root_and_two_leaves (New good_stream) = Ok (1, w')
    /\ PropertyLog w' = [(habitat, 0); (habitat, 1); (habitat, 2)].
Proof.
  eexists. split; [lazy; reflexivity |].
  eapply eq_trans;
    [eapply (property_elements_of_a_write render 3%nat root_and_two_leaves
               root_and_two_leaves_rose (New good_stream));
     [reflexivity | lazy; reflexivity]
    | reflexivity].
Defined.

(** ** The layout of a clade element *)

Lemma extend_nil e : extend e [] = e.
Proof. destruct e. unfold extend. simpl. rewrite app_nil_r. reflexivity. Qed.

Lemma extend_extend e a b : extend (extend e a) b = extend e (a ++ b).
Proof. unfold extend. simpl. rewrite app_assoc. reflexivity. Qed.

Lemma AddNestedElement_extend e c : AddNestedElement e c = extend e [c].
Proof. destruct e. reflexivity. Qed.

Lemma name_element_extend nn vertex e e' :
  name_element nn vertex e = Ok e' -> e' = extend e (name_part nn vertex).
Proof.
  unfold name_element, name_part. destruct nn as [a |].
  - destruct (GetVariantValue a vertex) as [value | |]; try discriminate.
    cbn [rbind]. intros [= <-].
    destruct (String.eqb (ToString value) EmptyString); cbn [negb].
    + symmetry. apply extend_nil.
    + apply AddNestedElement_extend.
  - intros [= <-]. symmetry. apply extend_nil.
Qed.

Lemma confidence_element_extend input vertex e e' :
  confidence_element input vertex e = Ok e' -> e' = extend e (confidence_part input vertex).
Proof.
  unfold confidence_element, confidence_part.
  destruct (GetAbstractArray (GetVertexData input) "confidence") as [a |].
  - destruct (GetVariantValue a vertex) as [value | |]; try discriminate.
    cbn [rbind]. intros [= <-].
    destruct (String.eqb (ToString value) EmptyString); cbn [negb].
    + symmetry. apply extend_nil.
    + rewrite AddNestedElement_extend.
      destruct (String.eqb (GetArrayAttribute a "type") EmptyString); reflexivity.
  - intros [= <-]. symmetry. apply extend_nil.
Qed.

Lemma color_element_extend input vertex e e' :
  color_element input vertex e = Ok e' -> e' = extend e (color_part input vertex).
Proof.
  unfold color_element, color_part.
  destruct (vtkArrayDownCast_UnsignedChar _) as [a |].
  - destruct (GetComponent a vertex 0) as [r | |]; try discriminate. cbn [rbind].
    destruct (GetComponent a vertex 1) as [g | |]; try discriminate. cbn [rbind].
    destruct (GetComponent a vertex 2) as [b | |]; try discriminate. cbn [rbind].
    intros [= <-]. apply AddNestedElement_extend.
  - intros [= <-]. symmetry. apply extend_nil.
Qed.

Lemma branch_length_attribute_shape input ew vertex e e' :
  branch_length_attribute input ew vertex e = Ok e' ->
  e' = e \/ exists weight, e' = SetDoubleAttribute e "branch_length" weight.
Proof.
  unfold branch_length_attribute. destruct ew as [a |]; [| intros [= <-]; auto].
  destruct (GetParent input vertex) as [parent | |]; try discriminate. cbn [rbind].
  destruct (negb (parent =? -1)); [| intros [= <-]; auto].
  destruct (negb (GetEdgeId input parent vertex =? -1)); [| intros [= <-]; auto].
  destruct (GetVariantValue a _) as [value | |]; try discriminate. cbn [rbind].
  intros [= <-]. right. eauto.
Qed.

Lemma properties_of_extend arrays row :
  forall e e',
    properties_of arrays row e = Ok e' ->
    exists parts,
      e' = extend e parts
      /\ Forall2 (fun a p => exists value,
                      GetVariantValue a row = Ok value
                      /\ ElementName p = "property"
                      /\ CharacterData p = ToString value
                      /\ NestedElements p = []) arrays parts.
Proof.
  induction arrays as [| a rest IH]; intros e e'; cbn [properties_of].
  - intros [= <-]. exists []. split; [symmetry; apply extend_nil | constructor].
  - unfold property_of.
    destruct (scan_keys _ _) as [found | |]; try discriminate. cbn [rbind].
    destruct (GetVariantValue a row) as [value | |] eqn:Hvalue; try discriminate.
    cbn [rbind]. intros H. destruct (IH _ _ H) as (parts & -> & Hparts).
    exists (property_element a found value :: parts). split.
    + rewrite AddNestedElement_extend, extend_extend. reflexivity.
    + constructor; [| assumption]. exists value.
      split; [assumption |]. unfold property_element.
      destruct (negb (String.eqb (unit_ found) EmptyString)); repeat split.
Qed.

Lemma clade_loop_name fuel input :
  forall kids e w e' w',
    for_each kids (fun child e => WriteCladeElement fuel input child e) e w = Ok (e', w') ->
    ElementName e' = ElementName e.
Proof.
  induction kids as [| k rest IH]; intros e w e' w' H.
  - injection H as <- _. reflexivity.
  - apply for_each_cons_Ok in H. destruct H as (e1 & w1 & Hk & Hrest).
    rewrite (IH _ _ _ _ Hrest). apply WriteCladeElement_Ok in Hk.
    destruct Hk as (_ & _ & _ & c & _ & _ & _ & _ & _ & ->). destruct e. reflexivity.
Qed.

(** A returning call appends one clade element to the parent. *)
Lemma WriteCladeElement_appends fuel input vertex parentElement w p' w' :
  WriteCladeElement fuel input vertex parentElement w = Ok (p', w') ->
  exists c, p' = AddNestedElement parentElement c /\ ElementName c = "clade".
Proof.
  intros H. apply WriteCladeElement_Ok in H.
  destruct H as (fuel' & c0 & kids & c & _ & _ & Hc0 & _ & Hloop & ->).
  exists c. split; [reflexivity |].
  rewrite (clade_loop_name _ _ _ _ _ _ _ Hloop).
  apply (clade_content_head _ _ _ _ Hc0).
Qed.

Lemma clade_loop_extend fuel input :
  forall kids e w e' w',
    for_each kids (fun child e => WriteCladeElement fuel input child e) e w = Ok (e', w') ->
    exists clades,
      e' = extend e clades
      /\ Forall2 (fun (child : Z) c => ElementName c = "clade") kids clades.
Proof.
  induction kids as [| k rest IH]; intros e w e' w' H.
  - injection H as <- _. exists []. split; [symmetry; apply extend_nil | constructor].
  - apply for_each_cons_Ok in H. destruct H as (e1 & w1 & Hk & Hrest).
    apply WriteCladeElement_appends in Hk. destruct Hk as (c & -> & Hname).
    destruct (IH _ _ _ _ Hrest) as (clades & -> & Hclades).
    exists (c :: clades). split.
    + rewrite AddNestedElement_extend, extend_extend. reflexivity.
    + constructor; assumption.
Qed.

(** X8: a returning call of [WriteCladeElement] appends one element named
    clade to the parent element.  That element has no text and no attribute
    other than branch_length, and its nested elements are, in this order:
    the name element of the vertex (when the node-name array is resolved and
    the name is not empty), its confidence element (when a column confidence
    exists and its value for the vertex is not empty; with the attribute
    type when the column has a string key type with a value), its color
    element with a red, a green and a blue element (when the column color is
    an unsigned char array), one property element for each selected column
    in the order of the vertex data, holding the value of the vertex's row,
    and one clade element for each child of the vertex in the order the
    tree reports them. *)
Theorem clade_layout fuel input vertex parentElement w p' w' :
  WriteCladeElement fuel input vertex parentElement w = Ok (p', w') ->
  exists clade property_part children child_clades,
    p' = AddNestedElement parentElement clade
    /\ ElementName clade = "clade"
    /\ CharacterData clade = EmptyString
    /\ (Attributes clade = []
        \/ exists weight, Attributes clade = [("branch_length", weight)])
    /\ NestedElements clade
       = name_part (NodeNameArray w) vertex ++ confidence_part input vertex
         ++ color_part input vertex ++ property_part ++ child_clades
    /\ Forall2 (fun a p => exists value,
                    GetVariantValue a vertex = Ok value
                    /\ ElementName p = "property"
                    /\ CharacterData p = ToString value
                    /\ NestedElements p = [])
               (clade_arrays input w) property_part
    /\ GetChildren input vertex = Ok children
    /\ Forall2 (fun (child : Z) c => ElementName c = "clade") children child_clades.
Proof.
  intros H. apply WriteCladeElement_Ok in H.
  destruct H as (fuel' & c0 & kids & c & _ & _ & Hc0 & Hkids & Hloop & ->).
  unfold clade_content, fixed_elements in Hc0.
  destruct (branch_length_attribute _ _ _ _) as [e1 | |] eqn:H1; try discriminate.
  cbn [rbind] in Hc0.
  destruct (name_element _ _ e1) as [e2 | |] eqn:H2; try discriminate. cbn [rbind] in Hc0.
  destruct (confidence_element _ _ e2) as [e3 | |] eqn:H3; try discriminate.
  cbn [rbind] in Hc0.
  destruct (color_element _ _ e3) as [e4 | |] eqn:H4; try discriminate. cbn [rbind] in Hc0.
  apply name_element_extend in H2. apply confidence_element_extend in H3.
  apply color_element_extend in H4.
  destruct (properties_of_extend _ _ _ _ Hc0) as (props & -> & Hprops).
  destruct (clade_loop_extend _ _ _ _ _ _ _ Hloop) as (clades & -> & Hclades).
  subst e4 e3 e2. rewrite !extend_extend.
  exists (extend e1 (name_part (NodeNameArray w) vertex
                     ++ confidence_part input vertex ++ color_part input vertex
                     ++ props ++ clades)), props, kids, clades.
  assert (Hnested : NestedElements e1 = []
                    /\ ElementName e1 = "clade" /\ CharacterData e1 = EmptyString
                    /\ (Attributes e1 = []
                        \/ exists weight, Attributes e1 = [("branch_length", weight)])).
  { destruct (branch_length_attribute_shape _ _ _ _ _ H1) as [-> | (weight & ->)].
    - cbn. auto.
    - cbn. eauto 6. }
  destruct Hnested as (Hn & Hname & Htext & Hattrs).
  refine (conj _ (conj _ (conj _ (conj _ (conj _ (conj _ (conj _ _))))))); trivial.
  cbn. rewrite Hn. reflexivity.
Qed.

Lemma clade_layout_witness :
  exists clade property_part children child_clades,
    XMLDataElement "phylogeny" [] EmptyString
      [XMLDataElement "clade" [] EmptyString
         [XMLDataElement "name" [] "root" [];
          XMLDataElement "property"
            [("datatype", "xsd:string"); ("ref", "NCBI:habitat");
             ("applies_to", "clade"); ("unit", "biome")] "sea" [];
          XMLDataElement "clade" [("branch_length", "1.5")] EmptyString
            [XMLDataElement "name" [] "leafA" [];
             XMLDataElement "property"
               [("datatype", "xsd:string"); ("ref", "NCBI:habitat");
                ("applies_to", "clade"); ("unit", "biome")] "shore" []];
          XMLDataElement "clade" [("branch_length", "2.25")] EmptyString
            [XMLDataElement "name" [] "leafB" [];
             XMLDataElement "property"
               [("datatype", "xsd:string"); ("ref", "NCBI:habitat");
                ("applies_to", "clade"); ("unit", "biome")] "forest" []]]]
    = AddNestedElement (SetName NewElement "phylogeny") clade
    /\ ElementName clade = "clade"
    /\ CharacterData clade = EmptyString
    /\ (Attributes clade = []
        \/ exists weight, Attributes clade = [("branch_length", weight)])
    /\ NestedElements clade
       = name_part (NodeNameArray (after_tree_level root_and_two_leaves (New good_stream))) 0
         ++ confidence_part root_and_two_leaves 0
         ++ color_part root_and_two_leaves 0 ++ property_part ++ child_clades
    /\ Forall2 (fun a p => exists value,
                    GetVariantValue a 0 = Ok value
                    /\ ElementName p = "property"
                    /\ CharacterData p = ToString value
                    /\ NestedElements p = [])
               (clade_arrays root_and_two_leaves
                  (after_tree_level root_and_two_leaves (New good_stream)))
               property_part
    /\ GetChildren root_and_two_leaves 0 = Ok children
    /\ Forall2 (fun (child : Z) c => ElementName c = "clade") children child_clades.
Proof.
  eapply (clade_layout 2%nat root_and_two_leaves 0 (SetName NewElement "phylogeny")
            (after_tree_level root_and_two_leaves (New good_stream))).
  lazy. reflexivity.
Defined.

(** ** The layout of the phylogeny element *)

Lemma tree_level_element_extend input e elementName attributeName e' :
  tree_level_element input e elementName attributeName = Ok e' ->
  e' = extend e (tree_level_part input elementName attributeName).
Proof.
  unfold tree_level_element, tree_level_part.
  destruct (GetAbstractArray _ _) as [a |]; [| intros [= <-]; symmetry; apply extend_nil].
  destruct (GetVariantValue a 0) as [value | |]; try discriminate. cbn [rbind].
  intros [= <-]. rewrite AddNestedElement_extend.
  destruct (String.eqb attributeName EmptyString); [reflexivity |].
  destruct (String.eqb (GetArrayAttribute a attributeName) EmptyString); reflexivity.
Qed.

Section Phylogeny.

Variable PrintXML : vtkXMLDataElement -> string.

(** X9: a returning write to a stream that takes the opening sends, between
    the opening and the closing of the document, the rendering of one
    element named phylogeny with the single attribute rooted = true, whose
    nested elements are, in this order: a name, a description and a
    confidence element, each present exactly when the vertex data has the
    column phylogeny.name, phylogeny.description or phylogeny.confidence and
    holding the value of row 0 of that column, empty or not (the confidence
    element with the attribute type when the column has a string key type
    with a value); one property element for each column whose name starts
    with phylogeny.property., in the order of the vertex data, from row 0;
    and last a single clade element. *)
Theorem phylogeny_layout fuel input w r w' :
  opens (Stream w) = true ->
  WriteData PrintXML fuel input w = Ok (r, w') ->
  exists document property_part clade,
    r = 1
    /\ Written (Stream w')
       = (Written (Stream w) ++ phyloxml_open ++ newline
          ++ PrintXML document ++ phyloxml_close)%string
    /\ ElementName document = "phylogeny"
    /\ Attributes document = [("rooted", "true")]
    /\ CharacterData document = EmptyString
    /\ NestedElements document
       = tree_level_part input "name" EmptyString
         ++ tree_level_part input "description" EmptyString
         ++ tree_level_part input "confidence" "type"
         ++ property_part ++ [clade]
    /\ Forall2 (fun a p => exists value,
                    GetVariantValue a 0 = Ok value
                    /\ ElementName p = "property"
                    /\ CharacterData p = ToString value
                    /\ NestedElements p = [])
               (tree_level_arrays input) property_part
    /\ ElementName clade = "clade".
Proof.
  intros Hopens Hrun.
  destruct (opened_ok _ Hopens) as [Hfail Hwritten].
  rewrite WriteData_run in Hrun. unfold fail in Hrun. rewrite Hfail in Hrun.
  destruct (tree_level_section input) as [root | |] eqn:Hsection; try discriminate.
  cbn [rbind] in Hrun.
  destruct (WriteCladeElement fuel input (GetRoot input) root _)
    as [[root' wc] | |] eqn:Hclade; try discriminate.
  injection Hrun as <- <-.
  destruct (WriteCladeElement_step _ _ _ _ _ _ _ Hclade) as [Hstep _].
  destruct (step_setup _ _ _ Hstep) as (_ & _ & _ & _ & _ & Hstream).
  change (Stream (after_tree_level input w)) with (opened (Stream w)) in Hstream.
  apply WriteCladeElement_appends in Hclade. destruct Hclade as (clade & -> & Hname).
  unfold tree_level_section in Hsection.
  destruct (tree_level_element input phylogeny_element _ _) as [e1 | |] eqn:H1;
    try discriminate. cbn [rbind] in Hsection.
  destruct (tree_level_element input e1 _ _) as [e2 | |] eqn:H2; try discriminate.
  cbn [rbind] in Hsection.
  destruct (tree_level_element input e2 _ _) as [e3 | |] eqn:H3; try discriminate.
  cbn [rbind] in Hsection.
  apply tree_level_element_extend in H1, H2, H3.
  destruct (properties_of_extend _ _ _ _ Hsection) as (props & -> & Hprops).
  subst e3 e2 e1. rewrite AddNestedElement_extend, !extend_extend.
  eexists _, props, clade.
  refine (conj _ (conj _ (conj _ (conj _ (conj _ (conj _ (conj _ _))))))).
  - reflexivity.
  - cbn [checked Stream]. unfold closed. rewrite Written_flush, Hstream.
    rewrite Written_put_string by (rewrite FailBit_put_string; assumption).
    rewrite Written_put_string by assumption.
    rewrite Hwritten, !append_assoc. reflexivity.
  - reflexivity.
  - reflexivity.
  - reflexivity.
  - reflexivity.
  - assumption.
  - assumption.
Qed.

End Phylogeny.

Lemma phylogeny_layout_witness :
  exists w' document property_part clade,
    WriteData render 3%nat root_and_two_leaves (New good_stream) = Ok (1, w')
    /\ Written (Stream w')
       = (Written (Stream (New good_stream)) ++ phyloxml_open ++ newline
          ++ render document ++ phyloxml_close)%string
    /\ ElementName document = "phylogeny"
    /\ Attributes document = [("rooted", "true")]
    /\ CharacterData document = EmptyString
    /\ NestedElements document
       = tree_level_part root_and_two_leaves "name" EmptyString
         ++ tree_level_part root_and_two_leaves "description" EmptyString
         ++ tree_level_part root_and_two_leaves "confidence" "type"
         ++ property_part ++ [clade]
    /\ Forall2 (fun a p => exists value,
                    GetVariantValue a 0 = Ok value
                    /\ ElementName p = "property"
                    /\ CharacterData p = ToString value
                    /\ NestedElements p = [])
               (tree_level_arrays root_and_two_leaves) property_part
    /\ ElementName clade = "clade".
Proof.
  assert (Hrun : { w' | WriteData render 3%nat root_and_two_leaves (New good_stream)
                        = Ok (1, w') }) by (eexists; lazy; reflexivity).
  destruct Hrun as [w' Hrun]. exists w'.
  destruct (phylogeny_layout render 3%nat root_and_two_leaves (New good_stream) 1 w'
              eq_refl Hrun) as (document & property_part & clade & _ & H).
  exists document, property_part, clade. split; assumption.
Defined.

(** ** The error code of a write *)

Lemma SystemError_put_string os s : SystemError (put_string os s) = SystemError os.
Proof. unfold put_string. destruct (FailBit os); reflexivity. Qed.

Lemma SystemError_flush os : SystemError (flush os) = SystemError os.
Proof. unfold flush. destruct (Device os); reflexivity. Qed.

Section ErrorCodeOfAWrite.

Variable PrintXML : vtkXMLDataElement -> string.

(** X10: a write that returns leaves the error code of the writer as it
    was when the stream is not in failure at the end, and sets it to the
    system error when the stream is in failure at the end, whether the write
    returns 0 or 1; a write that returns 0 always leaves the stream in
    failure. *)
Theorem error_code_records_flush_failure fuel input w r w' :
  WriteData PrintXML fuel input w = Ok (r, w') ->
  ErrorCode w' = (if fail (Stream w') then SystemError (Stream w) else ErrorCode w)
  /\ (r = 0 -> fail (Stream w') = true).
Proof.
  rewrite WriteData_run.
  destruct (fail (opened (Stream w))) eqn:Hfail.
  - intros [= <- <-]. cbn [checked ErrorCode Stream]. rewrite Hfail.
    unfold GetLastSystemError. rewrite SystemError_opened. auto.
  - destruct (tree_level_section input) as [root | |]; try discriminate. cbn [rbind].
    destruct (WriteCladeElement fuel input (GetRoot input) root _)
      as [[root' wc] | |] eqn:Hclade; try discriminate.
    intros [= <- <-]. split; [| discriminate].
    destruct (WriteCladeElement_step _ _ _ _ _ _ _ Hclade) as [Hstep _].
    destruct (step_setup _ _ _ Hstep) as (_ & _ & _ & _ & Hcode & Hstream).
    cbn [checked ErrorCode Stream]. rewrite Hcode, Hstream.
    change (Stream (after_tree_level input w)) with (opened (Stream w)).
    change (ErrorCode (after_tree_level input w))
      with (if fail (opened (Stream w)) then GetLastSystemError (opened (Stream w))
            else ErrorCode w).
    rewrite Hfail. unfold GetLastSystemError, closed.
    rewrite SystemError_flush, !SystemError_put_string, SystemError_opened. reflexivity.
Qed.

End ErrorCodeOfAWrite.

Lemma error_code_records_flush_failure_witness :
  exists w',
    WriteData render 1%nat (single_vertex []) (New closing_flush_fails) = Ok (1, w')
    /\ fail (Stream w') = true
    /\ ErrorCode w' = 28.
Proof.
  assert (Hrun : { w' | WriteData render 1%nat (single_vertex []) (New closing_flush_fails)
                        = Ok (1, w') }) by (eexists; lazy; reflexivity).
  destruct Hrun as [w' Hrun]. exists w'. split; [exact Hrun |].
  pose proof (proj1 (error_code_records_flush_failure render 1%nat (single_vertex [])
                       (New closing_flush_fails) 1 w' Hrun)) as Hcode.
  assert (Hfail : fail (Stream w') = true).
  { assert (Hw : Ok (1, w')
                 = WriteData render 1%nat (single_vertex []) (New closing_flush_fails))
      by (symmetry; exact Hrun).
    lazy in Hw. injection Hw as ->. reflexivity. }
  rewrite Hfail in Hcode. split; assumption.
Defined.

(** ** The write of a tree without a vertex *)

Lemma fuelless_ret {A} (a : A) : fuelless (ret a).
Proof. intros w. discriminate. Qed.

Lemma fuelless_bind {A B} (m : M A) (k : A -> M B) :
  fuelless m -> (forall a, fuelless (k a)) -> fuelless (bind m k).
Proof.
  intros Hm Hk w. unfold bind. specialize (Hm w).
  destruct (m w) as [[a w1] | f |]; [apply Hk | discriminate | congruence].
Qed.

Lemma fuelless_lift {A} (r : result A) : r <> OutOfFuel -> fuelless (lift r).
Proof. intros Hr w. unfold lift. destruct r; [discriminate | discriminate | congruence]. Qed.

Lemma fuelless_for_each {A} (xs : list A) body :
  (forall x e, fuelless (body x e)) -> forall e, fuelless (for_each xs body e).
Proof.
  intros Hbody. induction xs as [| x rest IH]; intros e; cbn [for_each].
  - apply fuelless_ret.
  - apply fuelless_bind; [apply Hbody | exact IH].
Qed.

Lemma GetVariantValue_fuel array idx : GetVariantValue array idx <> OutOfFuel.
Proof.
  unfold GetVariantValue. destruct (idx <? 0); [discriminate |].
  destruct (nth_error _ _); discriminate.
Qed.

Lemma GetComponent_fuel array tuple comp : GetComponent array tuple comp <> OutOfFuel.
Proof.
  unfold GetComponent. destruct (_ || _); [discriminate |].
  destruct (nth_error _ _); discriminate.
Qed.

Lemma GetOutEdges_fuel input v : GetOutEdges input v <> OutOfFuel.
Proof.
  unfold GetOutEdges. destruct (v <? 0); [discriminate |].
  destruct (nth_error _ _); discriminate.
Qed.

Lemma GetParent_fuel input v : GetParent input v <> OutOfFuel.
Proof.
  unfold GetParent. pose proof (GetOutEdges_fuel input v).
  destruct (GetOutEdges input v); [discriminate | discriminate | congruence].
Qed.

Lemma scan_keys_fuel info : forall acc, scan_keys info acc <> OutOfFuel.
Proof.
  induction info as [| e rest IH]; intros acc; cbn [scan_keys]; [discriminate |].
  destruct (SafeDownCast (CurrentKey e)) as [key |]; [| discriminate].
  destruct (String.eqb _ _); [apply IH |].
  destruct (String.eqb _ _); [apply IH |].
  destruct (String.eqb _ _); apply IH.
Qed.

Ltac fuelless_step :=
  first
    [ apply fuelless_ret
    | apply fuelless_bind; [| intros ?]
    | apply fuelless_lift;
      first [ apply GetVariantValue_fuel | apply GetComponent_fuel
            | apply GetParent_fuel | apply scan_keys_fuel ]
    | apply fuelless_for_each; intros ? ?
    | match goal with
      | |- fuelless (if ?c then _ else _) => destruct c
      | |- fuelless (match ?x with Some _ => _ | None => _ end) => destruct x
      end
    | (intros ?; discriminate) ].

Lemma fuelless_WritePropertyElement array vertex element :
  fuelless (WritePropertyElement array vertex element).
Proof. unfold WritePropertyElement, IgnoreArray. repeat fuelless_step. Qed.

Lemma fuelless_WriteCladeContent input vertex : fuelless (WriteCladeContent input vertex).
Proof.
  unfold WriteCladeContent. apply fuelless_bind; [intros ?; discriminate | intros _].
  apply fuelless_bind; [| intros e1].
  { unfold WriteBranchLengthAttribute, IgnoreArray. repeat fuelless_step. }
  apply fuelless_bind; [| intros e2].
  { unfold WriteNameElement, IgnoreArray. repeat fuelless_step. }
  apply fuelless_bind; [| intros e3].
  { unfold WriteConfidenceElement, IgnoreArray. repeat fuelless_step. }
  apply fuelless_bind; [| intros e4].
  { unfold WriteColorElement, IgnoreArray. repeat fuelless_step. }
  unfold WriteCladeProperties. apply fuelless_for_each. intros a e.
  apply fuelless_bind; [intros ?; discriminate | intros w0].
  destruct (_ || _); [apply fuelless_ret |].
  destruct (negb _); [apply fuelless_ret | apply fuelless_WritePropertyElement].
Qed.

Lemma fuelless_tree_level input :
  forall phylogeny,
    fuelless (rootElement <- WriteTreeLevelElement input phylogeny "name" EmptyString ;;
              rootElement <- WriteTreeLevelElement input rootElement "description"
                               EmptyString ;;
              rootElement <- WriteTreeLevelElement input rootElement "confidence" "type" ;;
              WriteTreeLevelProperties input rootElement).
Proof.
  intros phylogeny. unfold WriteTreeLevelElement, WriteTreeLevelProperties.
  repeat first [ apply fuelless_WritePropertyElement | fuelless_step ].
Qed.

Lemma GetChildren_no_vertex input v :
  GetNumberOfVertices input = 0%nat -> GetChildren input v = Fault OutOfRange.
Proof.
  unfold GetNumberOfVertices, GetChildren, GetOutEdges. intros H.
  destruct (v <? 0); [reflexivity |].
  destruct (nth_error (Adjacency input) (Z.to_nat v)) as [es |] eqn:Hnth; [| reflexivity].
  exfalso. assert (Hlt : (Z.to_nat v < List.length (Adjacency input))%nat).
  { apply nth_error_Some. congruence. }
  lia.
Qed.

(** Without a vertex the recursion stops at the children of the root. *)
Lemma WriteCladeElement_no_vertex fuel input vertex parentElement w :
  GetNumberOfVertices input = 0%nat ->
  exists f, WriteCladeElement (S fuel) input vertex parentElement w = Fault f.
Proof.
  intros Hempty. cbn [WriteCladeElement]. unfold bind at 1.
  pose proof (fuelless_WriteCladeContent input vertex w) as Hfuel.
  destruct (WriteCladeContent input vertex w) as [[c0 w1] | f |];
    [| eauto | congruence].
  unfold bind at 1. unfold lift. rewrite (GetChildren_no_vertex _ _ Hempty). eauto.
Qed.

Section EmptyTree.

Variable PrintXML : vtkXMLDataElement -> string.

(** X11: [WriteData] has no guard for a tree without a vertex.  When the
    stream takes the opening, the write of such a tree does not return: with
    fuel for one clade or more it ends in a fault, at the latest when
    [WriteCladeElement] asks the tree for the children of the root, a vertex
    the tree does not have. *)
Theorem write_of_empty_tree_faults fuel input w :
  GetNumberOfVertices input = 0%nat ->
  opens (Stream w) = true ->
  exists f, WriteData PrintXML (S fuel) input w = Fault f.
Proof.
  intros Hempty Hopens.
  unfold WriteData. unfold bind at 1. unfold this at 1.
  unfold bind at 1. unfold set_arrays at 1. fold (resolve input w).
  unfold bind at 1. rewrite StartFile_run.
  change (Stream (resolve input w)) with (Stream w).
  rewrite fail_opened, Hopens. cbn [negb]. change (1 =? 0) with false. cbv iota.
  set (w0 := checked (opened (Stream w)) (resolve input w)).
  set (phylogeny := SetAttribute (SetName NewElement "phylogeny") "rooted" "true").
  pose proof (fuelless_tree_level input phylogeny w0) as Hfuel.
  unfold bind at 1 2 3 4.
  unfold bind at 1 2 3 in Hfuel.
  destruct (WriteTreeLevelElement input phylogeny "name" EmptyString w0)
    as [[e1 w1] | f |]; [| eauto | congruence].
  destruct (WriteTreeLevelElement input e1 "description" EmptyString w1)
    as [[e2 w2] | f |]; [| eauto | congruence].
  destruct (WriteTreeLevelElement input e2 "confidence" "type" w2)
    as [[e3 w3] | f |]; [| eauto | congruence].
  destruct (WriteTreeLevelProperties input e3 w3) as [[e4 w4] | f |];
    [| eauto | congruence].
  unfold bind at 1.
  destruct (WriteCladeElement_no_vertex fuel input (GetRoot input) e4 w4 Hempty)
    as [f Hf].
  rewrite Hf. eauto.
Qed.

End EmptyTree.

Lemma write_of_empty_tree_faults_witness :
  exists f, WriteData render 1%nat empty_tree (New good_stream) = Fault f.
Proof.
  apply (write_of_empty_tree_faults render 0%nat empty_tree (New good_stream));
    reflexivity.
Defined.
